(** * Medical AI chat widget: the embeddable widget's state store, network
    client and markdown renderer, embedded from the widget script.

    Strings are sequences of 8-bit characters; a character stands for the
    UTF-16 code unit with the same number, so the model covers texts in the
    Latin-1 range.  The line terminators of that range are LF and CR. *)

From Stdlib Require Import ZArith Lia Bool Ascii.
From Stdlib Require Import Strings.String Numbers.DecimalString Numbers.DecimalZ.
From stdpp Require Import gmap strings.

Local Open Scope string_scope.
Set Warnings "-register-all".
#[local] Arguments String.append !_ _ / : simpl nomatch.

(* ===================================================================== *)
(** ** Characters and strings as the script uses them *)
(* ===================================================================== *)

Module Str.

Definition chr (n : nat) : ascii := ascii_of_nat n.

Definition LF : ascii := chr 10.
Definition CR : ascii := chr 13.

(** ECMAScript LineTerminator, restricted to the 8-bit range. *)
Definition is_line_terminator (c : ascii) : bool :=
  Ascii.eqb c LF || Ascii.eqb c CR.

(** ECMAScript WhiteSpace and LineTerminator in the 8-bit range: what
    [String.prototype.trim] strips and what [\s] matches. *)
Definition is_space (c : ascii) : bool :=
  let n := nat_of_ascii c in
  (Nat.leb 9 n && Nat.leb n 13) || Nat.eqb n 32 || Nat.eqb n 160.

Definition is_digit (c : ascii) : bool :=
  let n := nat_of_ascii c in Nat.leb 48 n && Nat.leb n 57.

Fixpoint trim_start (s : string) : string :=
  match s with
  | String c s' => if is_space c then trim_start s' else s
  | EmptyString => EmptyString
  end.

(** Drops trailing white space: a character is kept when it is not white
    space or when something is kept after it. *)
Fixpoint trim_end (s : string) : string :=
  match s with
  | String c s' =>
      match trim_end s' with
      | EmptyString => if is_space c then EmptyString else String c EmptyString
      | t => String c t
      end
  | EmptyString => EmptyString
  end.

(** [s.trim()] *)
Definition trim (s : string) : string := trim_end (trim_start s).

(** The value a textarea hands to the script: every CR LF pair and every
    other CR of what was entered is one LF.  [after_cr] tells that the
    character before was a CR. *)
Fixpoint normalize_from (after_cr : bool) (s : string) : string :=
  match s with
  | String c s' =>
      if Ascii.eqb c CR then String LF (normalize_from true s')
      else if Ascii.eqb c LF && after_cr then normalize_from false s'
      else String c (normalize_from false s')
  | EmptyString => EmptyString
  end.

Definition normalize_newlines (s : string) : string := normalize_from false s.

Fixpoint drop (n : nat) (s : string) : string :=
  match n, s with
  | S n', String _ s' => drop n' s'
  | _, _ => s
  end.

(** [s.includes(pat)] *)
Fixpoint includes (pat s : string) : bool :=
  String.prefix pat s ||
  match s with
  | String _ s' => includes pat s'
  | EmptyString => false
  end.

(** Number of positions of [s] at which [pat] starts. *)
Fixpoint count (pat s : string) : nat :=
  match s with
  | String _ s' => (if String.prefix pat s then 1 else 0) + count pat s'
  | EmptyString => 0
  end.

(** [parts.join(sep)] *)
Fixpoint join (sep : string) (parts : list string) : string :=
  match parts with
  | [] => ""
  | [p] => p
  | p :: ps => p ++ sep ++ join sep ps
  end.

(** The text holds no line terminator. *)
Fixpoint single_line (s : string) : bool :=
  match s with
  | String c s' => negb (is_line_terminator c) && single_line s'
  | EmptyString => true
  end.

Definition underscore : ascii := chr 95.

Fixpoint has_char (c : ascii) (s : string) : bool :=
  match s with
  | String d s' => Ascii.eqb c d || has_char c s'
  | EmptyString => false
  end.

(** Decimal rendering of an integral JavaScript number. *)
Definition of_Z (z : Z) : string := NilEmpty.string_of_int (Z.to_int z).

End Str.

(* ===================================================================== *)
(** ** The regular expressions of [parseMarkdown]

    A backtracking matcher for the fragment of ECMAScript regular
    expressions the renderer uses: literal characters, the multi-line
    anchors, one capture group, and greedy or lazy repetition of a single
    character class.  Alternatives are tried in the order the ECMAScript
    matcher tries them, so the first success is the match the script gets. *)
(* ===================================================================== *)

Module Regex.

Inductive cclass :=
| Dot        (** [.] without the [s] flag: any character but a line terminator *)
| Every      (** [.] under the [s] flag, and [[\s\S]] *)
| Digit.     (** [\d] *)

Definition in_class (cl : cclass) (c : ascii) : bool :=
  match cl with
  | Dot => negb (Str.is_line_terminator c)
  | Every => true
  | Digit => Str.is_digit c
  end.

Inductive atom :=
| Lit (c : ascii)        (** a literal character *)
| Bol                    (** [^] under the [m] flag *)
| Eol                    (** [$] under the [m] flag *)
| Star (cl : cclass)     (** [cl*] *)
| StarLazy (cl : cclass) (** [cl*?] *)
| Plus (cl : cclass)     (** [cl+] *)
| GOpen                  (** [(] of group 1 *)
| GClose.                (** [)] of group 1 *)

Definition regex := list atom.

Fixpoint lits (s : string) : regex :=
  match s with
  | String c s' => Lit c :: lits s'
  | EmptyString => []
  end.

(** A match in progress: [bol] says whether the current position is a
    line start, [i] is the offset from the start of the match, [g] the
    offsets at which group 1 opened and closed.  A successful match
    yields the group's offsets and the offset of the match's end. *)
Definition at_eol (s : string) : bool :=
  match s with
  | String c _ => Str.is_line_terminator c
  | EmptyString => true
  end.

Definition cont := bool -> string -> nat -> nat * nat -> option (nat * nat * nat).

Definition m_lit (c : ascii) (k : cont) : cont :=
  fun bol s i g =>
    match s with
    | String d s' =>
        if Ascii.eqb c d then k (Str.is_line_terminator d) s' (S i) g else None
    | EmptyString => None
    end.

Definition m_star (cl : cclass) (k : cont) : cont :=
  fix star (bol : bool) (s : string) (i : nat) (g : nat * nat) :=
    match s with
    | String d s' =>
        if in_class cl d then
          match star (Str.is_line_terminator d) s' (S i) g with
          | Some r => Some r
          | None => k bol s i g
          end
        else k bol s i g
    | EmptyString => k bol s i g
    end.

Definition m_star_lazy (cl : cclass) (k : cont) : cont :=
  fix lazy (bol : bool) (s : string) (i : nat) (g : nat * nat) :=
    match k bol s i g with
    | Some r => Some r
    | None =>
        match s with
        | String d s' =>
            if in_class cl d then lazy (Str.is_line_terminator d) s' (S i) g
            else None
        | EmptyString => None
        end
    end.

Definition m_plus (cl : cclass) (k : cont) : cont :=
  fun bol s i g =>
    match s with
    | String d s' =>
        if in_class cl d then m_star cl k (Str.is_line_terminator d) s' (S i) g
        else None
    | EmptyString => None
    end.

Fixpoint rmatch (p : regex) : cont :=
  match p with
  | [] => fun _ _ i g => Some (g, i)
  | a :: p' =>
      let k := rmatch p' in
      match a with
      | Lit c => m_lit c k
      | Bol => fun bol s i g => if bol then k bol s i g else None
      | Eol => fun bol s i g => if at_eol s then k bol s i g else None
      | Star cl => m_star cl k
      | StarLazy cl => m_star_lazy cl k
      | Plus cl => m_plus cl k
      | GOpen => fun bol s i g => k bol s i (i, snd g)
      | GClose => fun bol s i g => k bol s i (fst g, i)
      end
  end.

(** The replacement text of a template [before$1after], [g] being the
    offsets of group 1 in the text [s] the match started at.  A template
    without [$1] goes with a pattern without group: the offsets stay at
    [(0, 0)], the empty text, and [after] is empty. *)
Definition expand (before after s : string) (g : nat * nat) : string :=
  before ++ String.substring (fst g) (snd g - fst g) s ++ after.

(** [s.replace(/p/, "before$1after")], with the [g] flag when [global].
    [bol] tells whether the position is a line start, [skip] counts the
    characters of [s] that belong to the match just replaced. *)
Fixpoint scan (global : bool) (p : regex) (before after : string)
    (bol : bool) (skip : nat) (s : string) : string :=
  match s with
  | String c s' =>
      match skip with
      | S n => scan global p before after (Str.is_line_terminator c) n s'
      | O =>
          match rmatch p bol s 0 (0, 0) with
          | Some (g, e) =>
              expand before after s g ++
              (if global then
                 match e with
                 | O => String c (scan global p before after
                                    (Str.is_line_terminator c) 0 s')
                 | S n => scan global p before after
                            (Str.is_line_terminator c) n s'
                 end
               else Str.drop e s)
          | None =>
              String c (scan global p before after
                          (Str.is_line_terminator c) 0 s')
          end
      end
  | EmptyString =>
      match skip with
      | S _ => ""
      | O =>
          match rmatch p bol "" 0 (0, 0) with
          | Some (g, _) => expand before after "" g
          | None => ""
          end
      end
  end.

Definition replace_all (p : regex) (before after s : string) : string :=
  scan true p before after true 0 s.

Definition replace_first (p : regex) (before after s : string) : string :=
  scan false p before after true 0 s.

End Regex.

(* ===================================================================== *)
(** ** [parseMarkdown] *)
(* ===================================================================== *)

Module Markdown.
Import Regex.

(** [/^marker(.*$)/gim]: the three header rules [/^### (.*$)/gim],
    [/^## (.*$)/gim], [/^# (.*$)/gim] and the three bullet rules
    [/^\* (.*$)/gim], [/^- (.*$)/gim], [/^\+ (.*$)/gim].  The [i] flag has
    no effect: no literal of these patterns is a letter. *)
Definition re_line (marker : string) : regex :=
  (Bol :: lits marker ++ [GOpen; Star Dot; Eol; GClose])%list.

(** [/\*\*(.*?)\*\*/g], [/__(.*?)__/g], [/\*(.*?)\*/g], [/_(.*?)_/g],
    [/`(.*?)`/g] *)
Definition re_span (delim : string) : regex :=
  (lits delim ++ [GOpen; StarLazy Dot; GClose] ++ lits delim)%list.

(** [/```([\s\S]*?)```/g] *)
Definition re_fence : regex :=
  (lits "```" ++ [GOpen; StarLazy Every; GClose] ++ lits "```")%list.

(** [/^\d+\. (.*$)/gim]; here too the [i] flag has no effect. *)
Definition re_numbered : regex :=
  ([Bol; Plus Digit] ++ lits ". " ++ [GOpen; Star Dot; Eol; GClose])%list.

(** [/\n\n/g] and [/\n/g] *)
Definition re_blank_line : regex := [Lit Str.LF; Lit Str.LF].
Definition re_newline : regex := [Lit Str.LF].

(** [/(<li>.*<\/li>)/s], without the [g] flag *)
Definition re_list_span : regex :=
  ([GOpen] ++ lits "<li>" ++ [Star Every] ++ lits "</li>" ++ [GClose])%list.

Definition headers (s : string) : string :=
  replace_all (re_line "# ") "<h1>" "</h1>"
    (replace_all (re_line "## ") "<h2>" "</h2>"
       (replace_all (re_line "### ") "<h3>" "</h3>" s)).

Definition bold (s : string) : string :=
  replace_all (re_span "__") "<strong>" "</strong>"
    (replace_all (re_span "**") "<strong>" "</strong>" s).

Definition italic (s : string) : string :=
  replace_all (re_span "_") "<em>" "</em>"
    (replace_all (re_span "*") "<em>" "</em>" s).

Definition code (s : string) : string :=
  replace_all (re_span "`") "<code>" "</code>"
    (replace_all re_fence "<pre><code>" "</code></pre>" s).

Definition list_items (s : string) : string :=
  replace_all re_numbered "<li>" "</li>"
    (replace_all (re_line "+ ") "<li>" "</li>"
       (replace_all (re_line "- ") "<li>" "</li>"
          (replace_all (re_line "* ") "<li>" "</li>" s))).

Definition line_breaks (s : string) : string :=
  replace_all re_newline "<br>" ""
    (replace_all re_blank_line "</p><p>" "" s).

Definition wrap_lists (s : string) : string :=
  replace_first re_list_span "<ul>" "</ul>" s.

Definition has_block (html : string) : bool :=
  Str.includes "<h1>" html || Str.includes "<h2>" html ||
  Str.includes "<h3>" html || Str.includes "<ul>" html ||
  Str.includes "<pre>" html.

Definition parseMarkdown (text : string) : string :=
  match text with
  | EmptyString => ""
  | _ =>
      let html :=
        wrap_lists (line_breaks (list_items (code (italic (bold (headers text)))))) in
      if has_block html then html else "<p>" ++ html ++ "</p>"
  end.

End Markdown.

(* ===================================================================== *)
(** ** JavaScript values

    The values a host configuration, a JSON response body and the
    prototype chain of a plain object can hold.  Numbers are the integral
    ones (below 10^21 in magnitude, where [String(n)] is the decimal
    rendering); an object is the finite map of its own enumerable data
    properties, keyed by ordinary property names. *)
(* ===================================================================== *)

Module Js.

(** The values the script meets.  A number is an integer that prints in
    plain decimal (a clock reading, a status code, a count).  An array and
    an object are plain data, with the prototype their literal gives
    them; an object is given by its own enumerable properties.  The only
    functions are the built-in ones a property lookup on a plain object
    finds on [Object.prototype], each known by the name it prints with:
    the data of the host page and of a response body is taken to hold no
    functions of its own. *)
Inductive value :=
| VUndef
| VNull
| VBool (b : bool)
| VNum (n : Z)
| VStr (s : string)
| VArr (items : list value)
| VObj (props : gmap string value)
| VNative (name : string).   (** a built-in function object *)

(** ToBoolean *)
Definition truthy (v : value) : bool :=
  match v with
  | VUndef | VNull => false
  | VBool b => b
  | VNum n => negb (n =? 0)%Z
  | VStr s => negb (String.eqb s "")
  | VArr _ | VObj _ | VNative _ => true
  end.

(** [a || b] *)
Definition or_else (a b : value) : value := if truthy a then a else b.

(** ToString, as template literals and property keys apply it: the text
    the conversion yields when it completes; [converts] below tells when
    it does. *)
Fixpoint to_string (v : value) : string :=
  match v with
  | VUndef => "undefined"
  | VNull => "null"
  | VBool b => if b then "true" else "false"
  | VNum n => Str.of_Z n
  | VStr s => s
  | VArr items =>
      Str.join ","
        ((fix each (l : list value) : list string :=
            match l with
            | [] => []
            | x :: r =>
                match x with
                | VUndef | VNull => ""
                | _ => to_string x
                end :: each r
            end) items)
  | VObj _ => "[object Object]"
  | VNative name => "function " ++ name ++ "() { [native code] }"
  end.

(** ToString completes.  A plain object converts through the [toString]
    it finds: the built-in one it inherits, or an own one that is a
    function.  An own [toString] that is no function is skipped, and then
    nothing yields a primitive: an own [valueOf] that is no function is
    skipped too, and the inherited one returns the object itself; the
    conversion ends in a [TypeError].  An array converts when its
    elements do. *)
Fixpoint converts (v : value) : bool :=
  match v with
  | VArr items =>
      (fix each (l : list value) : bool :=
         match l with
         | [] => true
         | x :: r => converts x && each r
         end) items
  | VObj props =>
      match props !! "toString" with
      | None | Some (VNative _) => true
      | Some _ => false
      end
  | VUndef | VNull | VBool _ | VNum _ | VStr _ | VNative _ => true
  end.

(** The function-valued properties every plain object inherits from
    [Object.prototype], each with the name its function object prints. *)
Definition object_prototype : gmap string value :=
  list_to_map
    [ ("constructor", VNative "Object");
      ("hasOwnProperty", VNative "hasOwnProperty");
      ("isPrototypeOf", VNative "isPrototypeOf");
      ("propertyIsEnumerable", VNative "propertyIsEnumerable");
      ("toLocaleString", VNative "toLocaleString");
      ("toString", VNative "toString");
      ("valueOf", VNative "valueOf");
      ("__defineGetter__", VNative "__defineGetter__");
      ("__defineSetter__", VNative "__defineSetter__");
      ("__lookupGetter__", VNative "__lookupGetter__");
      ("__lookupSetter__", VNative "__lookupSetter__") ].

(** [o[k]] on a plain object: the own property, else the inherited one;
    the inherited accessor [__proto__] yields the prototype itself. *)
Definition obj_get (o : gmap string value) (k : string) : value :=
  match o !! k with
  | Some v => v
  | None =>
      match object_prototype !! k with
      | Some v => v
      | None => if String.eqb k "__proto__" then VObj object_prototype else VUndef
      end
  end.

Fixpoint indexed (i : nat) (l : list value) : list (string * value) :=
  match l with
  | [] => []
  | x :: r => (Str.of_Z (Z.of_nat i), x) :: indexed (S i) r
  end.

Fixpoint chars (s : string) : list value :=
  match s with
  | String c s' => VStr (String c "") :: chars s'
  | EmptyString => []
  end.

(** The own enumerable string-keyed properties that object spread and
    [Object.assign] copy from a source value. *)
Definition own_props (v : value) : gmap string value :=
  match v with
  | VObj props => props
  | VArr items => list_to_map (indexed 0 items)
  | VStr s => list_to_map (indexed 0 (chars s))
  | VUndef | VNull | VBool _ | VNum _ | VNative _ => ∅
  end.

(** [{...target, ...source}]: the spread defines the source's properties
    over the target's in a fresh plain object, the others stay. *)
Definition assign (target : gmap string value) (source : value)
  : gmap string value :=
  own_props source ∪ target.

(** The prototype of an object whose prototype can change. *)
Inductive proto :=
| ObjectPrototype                (** [Object.prototype], as at creation *)
| NullPrototype                  (** [null] *)
| DataPrototype (v : value).     (** an array, an object or a function *)

Definition is_object (v : value) : bool :=
  match v with
  | VArr _ | VObj _ | VNative _ => true
  | VUndef | VNull | VBool _ | VNum _ | VStr _ => false
  end.

(** An assignment to [__proto__] that finds no own property of that name
    walks up the prototypes: it ends at the accessor of
    [Object.prototype] unless the chain is cut by [null] or a plain
    object on the way has a property of that name itself. *)
Definition reaches_proto_accessor (p : proto) : bool :=
  match p with
  | ObjectPrototype => true
  | NullPrototype => false
  | DataPrototype (VObj props) =>
      match props !! "__proto__" with Some _ => false | None => true end
  | DataPrototype _ => true
  end.

(** The setter of the accessor: an object or [null] becomes the
    prototype, any other value is ignored. *)
Definition set_prototype (v : value) (p : proto) : proto :=
  if is_object v then DataPrototype v
  else match v with VNull => NullPrototype | _ => p end.

(** [Object.assign(target, source)]: every own property of the source is
    assigned to the target.  An assignment writes the target's own
    property or creates one, except where it finds an inherited accessor:
    the key [__proto__] goes to the setter of [Object.prototype] when the
    target has no own property of that name and still inherits the
    accessor.  The result is the target's own properties and its
    prototype. *)
Definition object_assign (target : gmap string value) (p : proto)
    (source : value) : gmap string value * proto :=
  let props := own_props source in
  match props !! "__proto__" with
  | Some v =>
      match target !! "__proto__" with
      | None =>
          if reaches_proto_accessor p
          then (delete "__proto__" props ∪ target, set_prototype v p)
          else (props ∪ target, p)
      | Some _ => (props ∪ target, p)
      end
  | None => (props ∪ target, p)
  end.

End Js.

(* ===================================================================== *)
(** ** The widget: configuration, state store, render engine, network
    client and control surface *)
(* ===================================================================== *)

Module Widget.
Import Js.

(** *** What the script reads from its surroundings *)

(** The page the script is loaded into. *)
Record host := {
  hostname : string;                 (** [window.location.hostname] *)
  protocol : string;                 (** [window.location.protocol] *)
  MedicalAIWidgetConfig : value      (** [window.MedicalAIWidgetConfig] *)
}.

(** One reading of the clock and of the random source.  [Date.now()] is
    the time in milliseconds; a message's [new Date().toISOString()] is
    represented by the millisecond reading it renders;
    [Math.random().toString(36).substr(2, 9)] is the suffix it yields. *)
Record moment := {
  clock : Z;
  random_suffix : string
}.

(** *** Configuration *)

Definition defaultConfig (h : host) : gmap string value :=
  list_to_map
    [ ("apiUrl",
        VBool (String.eqb (hostname h)
                 "https://medical-ai-chatbot-backend.onrender.com"));
      ("theme", VStr "blue");
      ("position", VStr "bottom-right");
      ("greeting",
        VStr "Hello! I'm your Medical AI Assistant. How can I help you today?");
      ("title", VStr "Medical AI Assistant");
      ("placeholder", VStr "Ask me about your health...");
      ("width", VStr "350px");
      ("height", VStr "500px");
      ("testMode",
        VBool (String.eqb (hostname h) "localhost"
               || String.eqb (hostname h) "127.0.0.1"
               || String.eqb (protocol h) "file:")) ].

(** [window.MedicalAIWidgetConfig ? {...defaultConfig, ...it} : defaultConfig] *)
Definition initial_config (h : host) : gmap string value :=
  if truthy (MedicalAIWidgetConfig h)
  then assign (defaultConfig h) (MedicalAIWidgetConfig h)
  else defaultConfig h.

(** *** Position of the container *)

Definition positions : gmap string value :=
  list_to_map
    [ ("bottom-right", VStr "bottom: 20px; right: 20px;");
      ("bottom-left", VStr "bottom: 20px; left: 20px;");
      ("top-right", VStr "top: 20px; right: 20px;");
      ("top-left", VStr "top: 20px; left: 20px;") ].

(** [${positions[config.position] || positions['bottom-right']}] *)
Definition placement (cfg : gmap string value) : string :=
  to_string
    (or_else (obj_get positions (to_string (obj_get cfg "position")))
             (obj_get positions "bottom-right")).

(** [widgetContainer.style.cssText], one declaration per line. *)
Definition cssText (cfg : gmap string value) : list string :=
  [ "position: fixed;";
    placement cfg;
    "z-index: 10000;";
    "font-family: -apple-system, BlinkMacSystemFont, 'Segoe UI', Roboto, sans-serif;" ].

(** *** State *)

Inductive sender := user | assistant.

Record message := {
  role : sender;
  content : value;
  timestamp : Z
}.

(** What the last successful render put into the container: the values
    the templates of [renderChat] were filled with.  The browser parses
    the markup made from them; the elements of the template stand in
    the parsed container as the template has them when the texts filled
    in bring no markup of their own ([panel_stands] below). *)
Record bubble := {
  bubble_role : sender;
  bubble_html : string;
  bubble_time : Z
}.

Record panel := {
  bubbles : list bubble;
  thinking : bool;          (** the "Thinking..." row *)
  input_id : string;        (** id of the textarea *)
  input_value : string;     (** what the textarea holds *)
  placeholder : string;
  send_id : string;         (** id of the send button *)
  send_disabled : bool
}.

Inductive view :=
| Button
| Chat (title : string) (minimized : bool) (body : option panel).

(** The variables of the closure and the container.  The configuration
    is an object the script assigns to: [config] holds its own properties
    and [config_proto] its prototype, which only an assignment to
    [__proto__] changes.  Once loaded, the script reads [apiUrl],
    [greeting], [title] and [placeholder] of it, keys of the default
    configuration: every configuration the script builds has them as own
    properties ([defaults_stay_own] below), so that a read finds the own
    property, whatever the prototype is. *)
Record state := {
  isOpen : bool;
  isMinimized : bool;
  isLoading : bool;
  messages : list message;
  sessionId : string;
  config : gmap string value;       (** the own properties of [config] *)
  config_proto : proto;             (** the prototype of [config] *)
  dom : view
}.

Definition userId : string := "anonymous".

Definition set_isOpen (b : bool) (st : state) : state :=
  {| isOpen := b; isMinimized := isMinimized st; isLoading := isLoading st;
     messages := messages st; sessionId := sessionId st;
     config := config st; config_proto := config_proto st;
     dom := dom st |}.

Definition set_isMinimized (b : bool) (st : state) : state :=
  {| isOpen := isOpen st; isMinimized := b; isLoading := isLoading st;
     messages := messages st; sessionId := sessionId st;
     config := config st; config_proto := config_proto st;
     dom := dom st |}.

Definition set_isLoading (b : bool) (st : state) : state :=
  {| isOpen := isOpen st; isMinimized := isMinimized st; isLoading := b;
     messages := messages st; sessionId := sessionId st;
     config := config st; config_proto := config_proto st;
     dom := dom st |}.

Definition set_messages (ms : list message) (st : state) : state :=
  {| isOpen := isOpen st; isMinimized := isMinimized st;
     isLoading := isLoading st; messages := ms; sessionId := sessionId st;
     config := config st; config_proto := config_proto st;
     dom := dom st |}.

Definition set_sessionId (id : string) (st : state) : state :=
  {| isOpen := isOpen st; isMinimized := isMinimized st;
     isLoading := isLoading st; messages := messages st; sessionId := id;
     config := config st; config_proto := config_proto st;
     dom := dom st |}.

Definition set_config (cfg : gmap string value) (st : state) : state :=
  {| isOpen := isOpen st; isMinimized := isMinimized st;
     isLoading := isLoading st; messages := messages st;
     sessionId := sessionId st; config := cfg;
     config_proto := config_proto st; dom := dom st |}.

Definition set_config_proto (p : proto) (st : state) : state :=
  {| isOpen := isOpen st; isMinimized := isMinimized st;
     isLoading := isLoading st; messages := messages st;
     sessionId := sessionId st; config := config st;
     config_proto := p; dom := dom st |}.

Definition set_dom (v : view) (st : state) : state :=
  {| isOpen := isOpen st; isMinimized := isMinimized st;
     isLoading := isLoading st; messages := messages st;
     sessionId := sessionId st; config := config st;
     config_proto := config_proto st; dom := v |}.

(** [messages.push(m)] *)
Definition push (m : message) (st : state) : state :=
  set_messages (messages st ++ [m])%list st.

(** ['widget_' + Date.now() + '_' + Math.random().toString(36).substr(2, 9)] *)
Definition new_session_id (t : moment) : string :=
  "widget_" ++ Str.of_Z (clock t) ++ "_" ++ random_suffix t.

Definition greeting_message (cfg : gmap string value) (now : Z) : message :=
  {| role := assistant; content := obj_get cfg "greeting"; timestamp := now |}.

(** *** Render engine *)

(** [parseMarkdown(msg.content)]: the falsy content renders as the empty
    text; [text.replace] exists on strings only, so any other content is
    a [TypeError] ([None]). *)
Definition parseMarkdown_content (v : value) : option string :=
  if truthy v then
    match v with
    | VStr s => Some (Markdown.parseMarkdown s)
    | _ => None
    end
  else Some "".

(** [`${v}`]: the text of a value in a template, [None] when the
    conversion throws. *)
Definition template (v : value) : option string :=
  if converts v then Some (to_string v) else None.

Definition render_message (m : message) : option bubble :=
  html ← match role m with
         | assistant => parseMarkdown_content (content m)
         | user => template (content m)
         end;
  Some {| bubble_role := role m; bubble_html := html;
          bubble_time := timestamp m |}.

(** [renderChat()]: the markup of the messages is made first, folded
    panel or not; the placeholder is converted for the unfolded panel
    only.  [None] when a conversion or [parseMarkdown] throws. *)
Definition renderChat (st : state) : option view :=
  messagesHtml ← mapM render_message (messages st);
  title ← template (obj_get (config st) "title");
  if isMinimized st then Some (Chat title true None)
  else
    hint ← template (obj_get (config st) "placeholder");
    Some (Chat title false
            (Some {| bubbles := messagesHtml;
                     thinking := isLoading st;
                     input_id := "widget-input-" ++ sessionId st;
                     input_value := "";
                     placeholder := hint;
                     send_id := "send-button-" ++ sessionId st;
                     send_disabled := isLoading st |})).

(** How a synchronous piece of the script ends: normally, or by an
    exception that leaves the assignments made so far in place. *)
Inductive completion :=
| Normal (st : state)
| Threw (st : state).

Definition state_of (c : completion) : state :=
  match c with Normal st | Threw st => st end.

(** [widgetContainer.innerHTML = isOpen ? renderChat() : renderButton()];
    the markup is built before it is assigned, so a render that throws
    leaves the container as it was. *)
Definition render (st : state) : completion :=
  if isOpen st then
    match renderChat st with
    | Some v => Normal (set_dom v st)
    | None => Threw st
    end
  else Normal (set_dom Button st).

(** *** Loading the script *)

(** The script runs to its end when it is loaded: the templates of the
    container's style and of the style sheet convert the configured
    position, width and height, and a conversion that throws ends the
    script before the widget exists. *)
Definition loads (h : host) : bool :=
  let cfg := initial_config h in
  converts (obj_get cfg "position") && converts (obj_get cfg "width")
  && converts (obj_get cfg "height").

(** The widget of a script that ran to its end. *)
Definition init (h : host) (now : Z) (t : moment) : state :=
  let cfg := initial_config h in
  state_of (render {| isOpen := false; isMinimized := false;
                      isLoading := false;
                      messages := [greeting_message cfg now];
                      sessionId := new_session_id t;
                      config := cfg; config_proto := ObjectPrototype;
                      dom := Button |}).

(** [if (config.autoOpen) setTimeout(open, config.autoOpenDelay || 3000)]:
    the delay after which the script opens the widget by itself, if it
    does. *)
Definition auto_open_delay (cfg : gmap string value) : option value :=
  if truthy (obj_get cfg "autoOpen")
  then Some (or_else (obj_get cfg "autoOpenDelay") (VNum 3000))
  else None.

(** *** The textarea *)

(** [document.getElementById(`widget-input-${sessionId}`)]: the value of
    the textarea, when the container holds one with that id.  This reads
    the template the container was filled from; it is what the browser
    finds in the parsed container when the panel stands. *)
Definition find_input (st : state) : option string :=
  match dom st with
  | Chat _ _ (Some p) =>
      if String.eqb (input_id p) ("widget-input-" ++ sessionId st)
      then Some (input_value p) else None
  | _ => None
  end.

Definition with_input_value (text : string) (v : view) : view :=
  match v with
  | Chat t m (Some p) =>
      Chat t m (Some {| bubbles := bubbles p; thinking := thinking p;
                        input_id := input_id p; input_value := text;
                        placeholder := placeholder p;
                        send_id := send_id p;
                        send_disabled := send_disabled p |})
  | _ => v
  end.

(** The visitor edits the textarea (a browser event, no script runs):
    [text] is what the textarea holds afterwards, its line breaks read by
    the script as line feeds. *)
Definition type_text (text : string) (st : state) : state :=
  set_dom (with_input_value (Str.normalize_newlines text) (dom st)) st.

(** *** Network client *)

Record request := {
  url : string;
  body_message : string;
  conversation_id : string;
  user_id : string
}.

Inductive body_outcome :=
| BodyError (msg : string)     (** [response.json()] rejects *)
| BodyJson (data : value).     (** the parsed body *)

Inductive fetch_outcome :=
| Rejected (msg : string)      (** [fetch] rejects: transport failure *)
| Responded (status : Z) (statusText : string) (body : body_outcome).

(** [response.ok] *)
Definition ok (status : Z) : bool := (200 <=? status)%Z && (status <=? 299)%Z.

Definition apology : string :=
  "I apologize, but I couldn't process your request properly.".

Definition error_content (msg : string) : string :=
  "I apologize, but I'm having trouble connecting right now. Error: " ++ msg
  ++ ". Please try again later or consult a healthcare professional for urgent medical concerns.".

(** The message of the [TypeError] that reading a property of [null] or
    [undefined] raises (the engine's wording). *)
Definition null_access_message : string :=
  "Cannot read properties of null (reading 'response')".

(** [data.response]: [None] is the [TypeError] on [null]; a plain object
    answers with its own or inherited property; no primitive, array or
    function has a property of that name. *)
Definition get_response (data : value) : option value :=
  match data with
  | VUndef | VNull => None
  | VObj props => Some (obj_get props "response")
  | VBool _ | VNum _ | VStr _ | VArr _ | VNative _ => Some VUndef
  end.

(** The body of the [try] block: [inl] is the content of the reply,
    [inr] the [message] of the error the [catch] block receives. *)
Definition try_block (o : fetch_outcome) : value + string :=
  match o with
  | Rejected msg => inr msg
  | Responded status statusText body =>
      if ok status then
        match body with
        | BodyError msg => inr msg
        | BodyJson data =>
            match get_response data with
            | Some r => inl (or_else r (VStr apology))
            | None => inr null_access_message
            end
        end
      else inr ("HTTP " ++ Str.of_Z status ++ ": " ++ statusText)
  end.

Definition reply_content (o : fetch_outcome) : value :=
  match try_block o with
  | inl v => v
  | inr msg => VStr (error_content msg)
  end.

(** The message of the [TypeError] a conversion to a primitive raises
    (the engine's wording). *)
Definition conversion_message : string :=
  "Cannot convert object to primitive value".

(** [sendMessage] up to its first [await]. *)
Inductive send_step :=
| Returned (st : state)                  (** an early [return] *)
| Aborted (st : state)                   (** the first [render()] threw *)
| Awaiting (st : state) (req : request)  (** [fetch] was called *)
| Caught (st : state).                   (** the template of the address
                                             threw inside [try]: the
                                             [catch] block runs next, in
                                             the same turn *)

Definition step_state (s : send_step) : state :=
  match s with Returned st | Aborted st | Awaiting st _ | Caught st => st end.

Definition sendMessage_begin (now : Z) (st : state) : send_step :=
  match find_input st with
  | None => Returned st
  | Some text =>
      let message := Str.trim text in
      if String.eqb message "" || isLoading st then Returned st
      else
        let st1 :=
          push {| role := user; content := VStr message; timestamp := now |} st in
        let st2 := set_isLoading true (type_text "" st1) in
        match render st2 with
        | Threw st3 => Aborted st3
        | Normal st3 =>
            match template (obj_get (config st3) "apiUrl") with
            | Some address =>
                Awaiting st3
                  {| url := address ++ "/api/chat/widget-default";
                     body_message := message;
                     conversation_id := sessionId st3;
                     user_id := userId |}
            | None => Caught st3
            end
        end
  end.

(** [sendMessage] from the moment the request settles, on the state the
    widget has by then. *)
Definition sendMessage_settle (now : Z) (o : fetch_outcome) (st : state)
  : completion :=
  render
    (set_isLoading false
       (push {| role := assistant; content := reply_content o;
                timestamp := now |} st)).

(** [sendMessage] from its [catch] block on, when the [try] block threw
    before the request was made. *)
Definition sendMessage_caught (now : Z) (st : state) : completion :=
  render
    (set_isLoading false
       (push {| role := assistant;
                content := VStr (error_content conversion_message);
                timestamp := now |} st)).

(** *** Control surface *)

Definition open (st : state) : completion :=
  render (set_isMinimized false (set_isOpen true st)).

Definition close (st : state) : completion :=
  render (set_isOpen false st).

Definition minimize (st : state) : completion :=
  render (set_isMinimized (negb (isMinimized st)) st).

Definition reset (now : Z) (t : moment) (st : state) : completion :=
  render
    (set_sessionId (new_session_id t)
       (set_messages [greeting_message (config st) now] st)).

Definition handleKeyPress (key : string) (shiftKey : bool) (now : Z)
    (st : state) : send_step :=
  if String.eqb key "Enter" && negb shiftKey
  then sendMessage_begin now st
  else Returned st.

(** [Object.assign(config, newConfig); render()] *)
Definition configure (newConfig : value) (st : state) : completion :=
  let merged := object_assign (config st) (config_proto st) newConfig in
  render (set_config_proto (snd merged) (set_config (fst merged) st)).

End Widget.

(* ===================================================================== *)
(** ** Vocabulary of the properties, and sample inputs *)
(* ===================================================================== *)

Import Js Widget.

(** The message holds a text, as every message of the data model does. *)
Definition textual (m : message) : Prop := exists s, content m = VStr s.

(** The request failed: a transport error or a status outside 200..299.
    The text is the [message] of the error raised for it. *)
Definition failure_text (o : fetch_outcome) : option string :=
  match o with
  | Rejected msg => Some msg
  | Responded status statusText _ =>
      if ok status then None
      else Some ("HTTP " ++ Str.of_Z status ++ ": " ++ statusText)
  end.

(** What a line rule [/^marker(.*$)/gm -> before$1after] makes of one line,
    [body] telling the text after the marker when the line has it. *)
Definition line_rule (before after : string) (body : string -> option string)
    (l : string) : string :=
  match body l with
  | Some b => before ++ b ++ after
  | None => l
  end.

(** The line without the marker it begins with, if it begins with it. *)
Definition strip (marker l : string) : option string :=
  if String.prefix marker l
  then Some (Str.drop (String.length marker) l) else None.

Fixpoint skip_digits (s : string) : string :=
  match s with
  | String c s' => if Str.is_digit c then skip_digits s' else s
  | EmptyString => EmptyString
  end.

(** The line after its [N. ] marker, N being one or more digits. *)
Definition numbered_body (l : string) : option string :=
  match l with
  | String c l' => if Str.is_digit c then strip ". " (skip_digits l') else None
  | EmptyString => None
  end.

(** The text of a list item: the line after a marker [*], [-], [+] or [N.]
    and the space that follows it. *)
Definition item_body (l : string) : option string :=
  match strip "* " l with
  | Some b => Some b
  | None =>
      match strip "- " l with
      | Some b => Some b
      | None =>
          match strip "+ " l with
          | Some b => Some b
          | None => numbered_body l
          end
      end
  end.

Definition li (x : string) : string := "<li>" ++ x ++ "</li>".

(** The lines of a text, joined by line feeds. *)
Definition unlines (ls : list string) : string :=
  Str.join (String Str.LF "") ls.

(** A text free of line terminators and of the inline markers. *)
Definition plain (x : string) : bool :=
  Str.single_line x && negb (Str.has_char "*" x)
  && negb (Str.has_char "_" x) && negb (Str.has_char "`" x).

(** [N. ] with N one or more digits. *)
Definition numbered_marker (m : string) : bool :=
  match m with
  | String c m' => Str.is_digit c && String.eqb (skip_digits m') ". "
  | EmptyString => false
  end.

(** A list marker other than the asterisk, with its space. *)
Definition plain_marker (m : string) : bool :=
  String.eqb m "- " || String.eqb m "+ " || numbered_marker m.

(** A list marker with its space: [* ], [- ], [+ ] or [N. ]. *)
Definition list_marker (m : string) : bool :=
  String.eqb m "* " || plain_marker m.

(** A list line given by its marker and its item text. *)
Definition entry_line (e : string * string) : string := fst e ++ snd e.

Definition list_entry (e : string * string) : Prop :=
  plain_marker (fst e) = true /\ plain (snd e) = true.

(** The pattern has no [^]. *)
Definition unanchored (p : Regex.regex) : bool :=
  List.forallb (fun a => match a with Regex.Bol => false | _ => true end) p.

(** A line as the list rules leave it. *)
Definition list_line (l : string) : string :=
  match item_body l with
  | Some b => li b
  | None => l
  end.

(** The own property [response] of a parsed body, when it has one. *)
Definition response_field (data : value) : option value :=
  match data with
  | VObj props => props !! "response"
  | _ => None
  end.

Definition sample_two_lists : string :=
  "- a" ++ String Str.LF ("text" ++ String Str.LF "- b").

Definition sample_entries : list (string * string) :=
  [("- ", "rest"); ("12. ", "drink water"); ("+ ", "sleep")].

Definition sample_host : host :=
  {| hostname := "clinic.example"; protocol := "https:";
     MedicalAIWidgetConfig := VUndef |}.

Definition sample_partial : gmap string value :=
  {[ "theme" := VStr "dark"; "position" := VStr "top-left" ]}.

Definition sample_host_dark : host :=
  {| hostname := "clinic.example"; protocol := "https:";
     MedicalAIWidgetConfig := VObj sample_partial |}.

Definition sample_moment : moment :=
  {| clock := 1700000000000; random_suffix := "k3j9x0q1z" |}.

Definition sample_init : state := init sample_host 1700000000000 sample_moment.

Definition sample_later : moment :=
  {| clock := 1700000000750; random_suffix := "k3j9x0q1z" |}.

Definition sample_host_odd : host :=
  {| hostname := "clinic.example"; protocol := "https:";
     MedicalAIWidgetConfig := VObj {[ "position" := VStr "constructor" ]} |}.

Definition sample_empty_reply : gmap string value :=
  {[ "response" := VStr "" ]}.

(** The widget loaded, opened, and the visitor has typed [text]. *)
Definition sample_typed (text : string) : state :=
  type_text text (state_of (open sample_init)).

(** The same widget while its first request is outstanding. *)
Definition sample_loading : state :=
  type_text "again"
    (step_state (sendMessage_begin 1700000000500 (sample_typed "hello"))).

(** *** Runs of the widget

    What happens to a loaded widget is a sequence of events: calls of the
    control surface, edits of the textarea, and requests settling.
    [outstanding] counts the requests that were issued and have not
    settled yet; a request can settle only while it is outstanding. *)

Inductive event :=
| EvOpen
| EvClose
| EvMinimize
| EvReset (now : Z) (t : moment)
| EvConfigure (newConfig : value)
| EvType (text : string)
| EvSend (now : Z)
| EvSettle (now : Z) (o : fetch_outcome).

Record running := {
  widget : state;
  outstanding : nat
}.

Definition step (r : running) (e : event) : running :=
  let keep st := {| widget := st; outstanding := outstanding r |} in
  match e with
  | EvOpen => keep (state_of (open (widget r)))
  | EvClose => keep (state_of (close (widget r)))
  | EvMinimize => keep (state_of (minimize (widget r)))
  | EvReset now t => keep (state_of (reset now t (widget r)))
  | EvConfigure newConfig => keep (state_of (configure newConfig (widget r)))
  | EvType text => keep (type_text text (widget r))
  | EvSend now =>
      match sendMessage_begin now (widget r) with
      | Awaiting st _ => {| widget := st; outstanding := S (outstanding r) |}
      | Returned st | Aborted st => keep st
      | Caught st => keep (state_of (sendMessage_caught now st))
      end
  | EvSettle now o =>
      match outstanding r with
      | O => r
      | S n => {| widget := state_of (sendMessage_settle now o (widget r));
                  outstanding := n |}
      end
  end.

Definition run (h : host) (now : Z) (t : moment) (es : list event) : running :=
  List.fold_left step es {| widget := init h now t; outstanding := 0 |}.

(** The requests are in check: at most one is outstanding, and
    [isLoading] is true as long as one is. *)
Definition in_check (r : running) : Prop :=
  (outstanding r <= 1)%nat /\
  (outstanding r = 1%nat -> isLoading (widget r) = true).

(** *** More vocabulary: the render engine and the control surface *)

(** The bubble a message with a text renders as: an assistant's text goes
    through [parseMarkdown], a visitor's text is inserted as it is. *)
Definition bubble_of (m : message) : bubble :=
  {| bubble_role := role m;
     bubble_html :=
       match role m, content m with
       | assistant, VStr s => Markdown.parseMarkdown s
       | assistant, _ => ""
       | user, c => to_string c
       end;
     bubble_time := timestamp m |}.


(** The panel of a state whose transcript holds texts. *)
Definition text_panel (st : state) : panel :=
  {| bubbles := List.map bubble_of (messages st);
     thinking := isLoading st;
     input_id := "widget-input-" ++ sessionId st;
     input_value := "";
     placeholder := to_string (obj_get (config st) "placeholder");
     send_id := "send-button-" ++ sessionId st;
     send_disabled := isLoading st |}.

(** What the container of such a state shows after a render. *)
Definition text_view (st : state) : view :=
  if isOpen st then
    Chat (to_string (obj_get (config st) "title")) (isMinimized st)
      (if isMinimized st then None else Some (text_panel st))
  else Button.

(** What [render] would put into the container, [None] when it throws. *)
Definition expected_view (st : state) : option view :=
  if isOpen st then renderChat st else Some Button.

(** The transcript begins with an assistant message. *)
Definition greeted (st : state) : Prop :=
  exists m ms, messages st = m :: ms /\ role m = assistant.

Definition sample_open : state := state_of (open sample_init).

Definition sample_number_reply : fetch_outcome :=
  Responded 200 "OK" (BodyJson (VObj {[ "response" := VNum 42 ]})).

Definition sample_text_reply : fetch_outcome :=
  Responded 200 "OK" (BodyJson (VObj {[ "response" := VStr "Rest and drink water." ]})).

Definition sample_events : list event :=
  [EvOpen; EvType "hello"; EvSend 1700000000500;
   EvReset 1700000000600 sample_later;
   EvSettle 1700000000900 sample_text_reply; EvMinimize].

(** *** More vocabulary: texts for the renderer *)

(** How often the character occurs in the text. *)
Fixpoint count_char (c : ascii) (s : string) : nat :=
  match s with
  | String d s' => (if Ascii.eqb c d then 1 else 0) + count_char c s'
  | EmptyString => 0
  end.

(** Every character of the text is in the class. *)
Fixpoint within (cl : Regex.cclass) (s : string) : bool :=
  match s with
  | String c s' => Regex.in_class cl c && within cl s'
  | EmptyString => true
  end.

(** The shape of the span rules and of the fence rule:
    [delim(content*?)delim]. *)
Definition span_like (cl : Regex.cclass) (delim : string) : Regex.regex :=
  (Regex.lits delim ++ [Regex.GOpen; Regex.StarLazy cl; Regex.GClose]
   ++ Regex.lits delim)%list.

(** The text holds no [<]. *)
Definition tagless (s : string) : bool := negb (Str.has_char "<" s).

(** Running text: one line without inline markers and without [<]. *)
Definition prose (s : string) : bool := plain s && tagless s.

(** The text does not begin like a header or a list item. *)
Definition inert_start (s : string) : bool :=
  match s with
  | String c _ =>
      negb (Str.has_char c "#*-+") && negb (Str.is_digit c)
  | EmptyString => true
  end.

(** Two texts that part ways before either ends. *)
Definition diverge (p q : string) : bool :=
  negb (String.prefix p q) && negb (String.prefix q p).

(** A line as the three header rules leave it. *)
Definition header_line (l : string) : string :=
  line_rule "<h1>" "</h1>" (strip "# ")
    (line_rule "<h2>" "</h2>" (strip "## ")
       (line_rule "<h3>" "</h3>" (strip "### ") l)).

(** A line as the header rules and the list rules leave it. *)
Definition block_line (l : string) : string := list_line (header_line l).

(** The line begins like a header or like a list item. *)
Definition starts_block (l : string) : bool :=
  String.prefix "# " l || String.prefix "## " l || String.prefix "### " l
  || match item_body l with Some _ => true | None => false end.

(** Paragraphs of lines: an empty line between two paragraphs. *)
Definition paragraphs (ps : list (list string)) : string :=
  Str.join (String Str.LF (String Str.LF "")) (List.map unlines ps).

(** The lines of such a text. *)
Fixpoint lines_of (ps : list (list string)) : list string :=
  match ps with
  | [] => []
  | [p] => p
  | p :: ps' => (p ++ "" :: lines_of ps')%list
  end.

(** What the last step of the renderer makes of the markup. *)
Definition finish (html : string) : string :=
  if Markdown.has_block html then html else "<p>" ++ html ++ "</p>".

(** The text can be passed over when looking for the pattern: the pattern
    neither lies in it nor begins in it. *)
Definition passes (pat u : string) : Prop :=
  forall v, Str.includes pat (u ++ v) = Str.includes pat v.

(** An element around a text. *)
Definition element (tag x : string) : string :=
  "<" ++ tag ++ ">" ++ x ++ "</" ++ tag ++ ">".

(** A line the renderer treats as running text. *)
Definition text_line (l : string) : Prop :=
  prose l = true /\ l <> "" /\ starts_block l = false.

Definition sample_raw_markup : string := "<img src=x onerror=alert(1)>".

Definition sample_paragraphs : list (list string) :=
  [["Take one tablet."; "Drink water."]; ["Rest well."]].

(** *** More vocabulary: what the templates are filled with *)

(** The value is a primitive: it converts to a text whatever it is. *)
Definition primitive (v : value) : bool := negb (is_object v).

(** The configured title and placeholder are primitives. *)
Definition printable (cfg : gmap string value) : Prop :=
  primitive (obj_get cfg "title") = true /\
  primitive (obj_get cfg "placeholder") = true.

Definition double_quote : ascii := Str.chr 34.

(** The text holds no double quote. *)
Definition quoteless (s : string) : bool :=
  negb (Str.has_char double_quote s).

(** A digit, a small letter, the underscore or the hyphen. *)
Definition word_char (c : ascii) : bool :=
  let n := nat_of_ascii c in
  Str.is_digit c || (Nat.leb 97 n && Nat.leb n 122)
  || Nat.eqb n 95 || Nat.eqb n 45.

(** The text is made of such characters, as the session identifiers the
    script builds are: it stands in an attribute as it is. *)
Definition wordlike (s : string) : bool :=
  List.forallb word_char (list_ascii_of_string s).

(** The message holds a text without [<]. *)
Definition markup_free (m : message) : Prop :=
  exists s, content m = VStr s /\ tagless s = true.

(** The texts the templates of the panel are filled with bring no markup
    of their own: the title and the messages, which stand in the content
    of elements, hold no [<]; the placeholder, which stands between
    double quotes, holds no double quote; and the session identifier is
    made of the characters the script builds it from, so that the id of
    the textarea reads in the markup as the script wrote it.  The only
    tags of the markup are then those of the templates and those
    [parseMarkdown] writes, none of which ends the parsing of what
    follows it: the elements of the template stand in the parsed
    container, and the textarea is the element its id names. *)
Definition panel_stands (st : state) : Prop :=
  Forall markup_free (messages st) /\
  printable (config st) /\
  tagless (to_string (obj_get (config st) "title")) = true /\
  quoteless (to_string (obj_get (config st) "placeholder")) = true /\
  wordlike (sessionId st) = true.

(** The configured greeting is a text without [<]. *)
Definition plain_greeting (cfg : gmap string value) : Prop :=
  exists s, obj_get cfg "greeting" = VStr s /\ tagless s = true.

(** The prototype is no function. *)
Definition plain_prototype (p : proto) : bool :=
  match p with
  | DataPrototype (VNative _) => false
  | ObjectPrototype | NullPrototype | DataPrototype _ => true
  end.

(** The panel stands, and will after a reset; the configuration's
    prototype is no function. *)
Definition standing (st : state) : Prop :=
  panel_stands st /\ plain_greeting (config st) /\
  plain_prototype (config_proto st) = true.

(** The container shows the state, up to a text without [<] that the
    visitor has typed since the last render. *)
Definition synced (st : state) : Prop :=
  exists text,
    tagless text = true /\ dom st = with_input_value text (text_view st).

(** The event brings no markup: what the visitor types and what a reply
    holds is a text without [<], a new configuration keeps the panel
    standing and brings no function as prototype, and the random suffix
    of a new session identifier is made of digits and small letters. *)
Definition keeps_standing (r : running) (e : event) : Prop :=
  match e with
  | EvSettle _ o => exists s, reply_content o = VStr s /\ tagless s = true
  | EvConfigure newConfig =>
      let merged :=
        object_assign (config (widget r)) (config_proto (widget r))
          newConfig in
      printable (fst merged) /\
      tagless (to_string (obj_get (fst merged) "title")) = true /\
      quoteless (to_string (obj_get (fst merged) "placeholder")) = true /\
      plain_greeting (fst merged) /\
      plain_prototype (snd merged) = true
  | EvReset _ t => wordlike (random_suffix t) = true
  | EvType text => tagless text = true
  | EvOpen | EvClose | EvMinimize | EvSend _ => True
  end.

(** Every event of the sequence brings no markup where it occurs. *)
Fixpoint all_keep_standing (r : running) (es : list event) : Prop :=
  match es with
  | [] => True
  | e :: es' => keeps_standing r e /\ all_keep_standing (step r e) es'
  end.




(** The widget whose first exchange was answered with a number: it was
    loaded and opened, the visitor sent "hello", the request settled with
    the body [{"response": 42}], and the visitor has typed again. *)
Definition sample_number_answered : state :=
  type_text "anyone there?"
    (state_of
       (sendMessage_settle 1700000000900 sample_number_reply
          (step_state (sendMessage_begin 1700000000500 (sample_typed "hello"))))).

Definition sample_number_events : list event :=
  [EvOpen; EvType "hello"; EvSend 1700000000500;
   EvSettle 1700000000900 sample_number_reply; EvType "anyone there?"].

(* ===================================================================== *)
(** * Properties *)
(* ===================================================================== *)

(** ** Strings *)

Section StringFacts.

Lemma append_assoc (a b c : string) : (a ++ b) ++ c = a ++ b ++ c.
Proof. induction a as [|x a IH]; simpl; [reflexivity | now rewrite IH]. Qed.

Lemma append_empty_r (a : string) : a ++ "" = a.
Proof. induction a as [|x a IH]; simpl; [reflexivity | now rewrite IH]. Qed.

Lemma prefix_append (pat s : string) : String.prefix pat (pat ++ s) = true.
Proof.
  induction pat as [|x pat IH]; simpl.
  - now destruct s.
  - destruct (ascii_dec x x) as [_|Hne]; [exact IH | now elim Hne].
Qed.

Lemma prefix_cons (a : ascii) (pat : string) (x : ascii) (s : string) :
  String.prefix (String a pat) (String x s)
    = Ascii.eqb a x && String.prefix pat s.
Proof.
  cbn [String.prefix]. destruct (ascii_dec a x) as [->|Hne].
  - now rewrite Ascii.eqb_refl.
  - apply Ascii.eqb_neq in Hne. now rewrite Hne.
Qed.

Lemma includes_here (pat s : string) :
  String.prefix pat s = true -> Str.includes pat s = true.
Proof. intros H. destruct s; simpl in *; rewrite H; reflexivity. Qed.

Lemma includes_append (pat a b : string) :
  Str.includes pat (a ++ pat ++ b) = true.
Proof.
  induction a as [|x a IH]; simpl.
  - apply includes_here, prefix_append.
  - rewrite IH. apply orb_true_r.
Qed.

Lemma includes_append_l (pat a b : string) :
  Str.includes pat b = true -> Str.includes pat (a ++ b) = true.
Proof.
  intros H. induction a as [|x a IH]; simpl; [exact H|].
  rewrite IH. apply orb_true_r.
Qed.



End StringFacts.

(** ** Decimal renderings and session identifiers *)

Section SessionIds.

Lemma of_Z_inj (a b : Z) : Str.of_Z a = Str.of_Z b -> a = b.
Proof.
  unfold Str.of_Z. intros H.
  apply DecimalZ.to_int_inj.
  pose proof (NilEmpty.isi (Z.to_int a)) as Ha.
  pose proof (NilEmpty.isi (Z.to_int b)) as Hb.
  rewrite H in Ha. congruence.
Qed.

Lemma uint_no_underscore (d : Decimal.uint) :
  Str.has_char Str.underscore (NilEmpty.string_of_uint d) = false.
Proof. induction d; simpl; auto. Qed.

Lemma of_Z_no_underscore (z : Z) : Str.has_char Str.underscore (Str.of_Z z) = false.
Proof.
  unfold Str.of_Z. destruct (Z.to_int z) as [d|d]; simpl;
    apply uint_no_underscore.
Qed.

(** Two texts cut at their first Str.underscore agree piecewise. *)
Lemma split_at_underscore (a b x y : string) :
  Str.has_char Str.underscore a = false ->
  Str.has_char Str.underscore b = false ->
  a ++ String Str.underscore x = b ++ String Str.underscore y ->
  a = b /\ x = y.
Proof.
  revert b. induction a as [|c a IH]; intros [|d b] Ha Hb H.
  - now inversion H.
  - injection H as Hc Hr. cbn [Str.has_char] in Hb.
    rewrite <- Hc, Ascii.eqb_refl in Hb. discriminate.
  - injection H as Hc Hr. cbn [Str.has_char] in Ha.
    rewrite Hc, Ascii.eqb_refl in Ha. discriminate.
  - injection H as Hc Hr. subst d.
    cbn [Str.has_char] in Ha, Hb.
    apply orb_false_iff in Ha as [_ Ha]. apply orb_false_iff in Hb as [_ Hb].
    destruct (IH b Ha Hb Hr) as [-> ->]. now split.
Qed.

Lemma new_session_id_inj (t u : moment) :
  new_session_id t = new_session_id u -> t = u.
Proof.
  unfold new_session_id. intros H.
  apply (f_equal (Str.drop 7)) in H. simpl in H.
  change ("_" ++ random_suffix t) with (String Str.underscore (random_suffix t)) in H.
  change ("_" ++ random_suffix u) with (String Str.underscore (random_suffix u)) in H.
  apply split_at_underscore in H as [Hc Hr]; try apply of_Z_no_underscore.
  apply of_Z_inj in Hc. destruct t, u; simpl in *; congruence.
Qed.

End SessionIds.

(** ** The state store *)

Section StateStore.

Lemma render_config_proto (st : state) :
  config_proto (state_of (render st)) = config_proto st.
Proof.
  unfold render. destruct (isOpen st); [destruct (renderChat st)|]; reflexivity.
Qed.

(** A render changes nothing but the container. *)
Lemma render_frame (st : state) :
  let st' := state_of (render st) in
  isOpen st' = isOpen st /\ isMinimized st' = isMinimized st /\
  isLoading st' = isLoading st /\ messages st' = messages st /\
  sessionId st' = sessionId st /\ config st' = config st.
Proof.
  unfold render. destruct (isOpen st) eqn:Ho; [destruct (renderChat st)|];
    simpl; rewrite ?Ho; repeat split; reflexivity.
Qed.

(** What settling a request leaves in the store. *)
Lemma settle_store (now : Z) (o : fetch_outcome) (st : state) :
  let st' := state_of (sendMessage_settle now o st) in
  isLoading st' = false /\
  messages st' =
    (messages st ++
     [{| role := assistant; content := reply_content o;
         timestamp := now |}])%list.
Proof.
  unfold sendMessage_settle.
  destruct (render_frame
              (set_isLoading false
                 (push {| role := assistant; content := reply_content o;
                          timestamp := now |} st)))
    as (_ & _ & Hl & Hm & _).
  split; [rewrite Hl | rewrite Hm]; reflexivity.
Qed.

Lemma failure_reply (o : fetch_outcome) (err : string) :
  failure_text o = Some err -> reply_content o = VStr (error_content err).
Proof.
  unfold reply_content, try_block, failure_text.
  destruct o as [msg|status statusText body].
  - now intros [= <-].
  - destruct (ok status); [discriminate|]. now intros [= <-].
Qed.

Lemma error_content_quotes (err : string) :
  Str.includes err (error_content err) = true.
Proof. unfold error_content. apply includes_append. Qed.

Lemma error_content_recommends (err : string) :
  Str.includes "consult a healthcare professional" (error_content err) = true.
Proof.
  unfold error_content. rewrite <- append_assoc.
  apply includes_append_l. reflexivity.
Qed.

(** [Object.assign] on a key other than [__proto__] is the union. *)
Lemma object_assign_lookup (target : gmap string value) (p : proto)
    (source : value) (k : string) :
  k <> "__proto__" ->
  fst (object_assign target p source) !! k = assign target source !! k.
Proof.
  intros Hk. unfold object_assign, assign.
  destruct (own_props source !! "__proto__"); [|reflexivity].
  destruct (target !! "__proto__"); [reflexivity|].
  destruct (reaches_proto_accessor p); [|reflexivity].
  cbn [fst]. rewrite !lookup_union, lookup_delete_ne by congruence.
  reflexivity.
Qed.


(** [Object.assign] drops no key. *)
Lemma object_assign_keeps (target : gmap string value) (p : proto)
    (source : value) (k : string) :
  is_Some (target !! k) -> is_Some (fst (object_assign target p source) !! k).
Proof.
  intros [old Hold].
  assert (Hunion : is_Some ((own_props source ∪ target) !! k)).
  { rewrite lookup_union, Hold. destruct (own_props source !! k); eauto. }
  destruct (String.eqb_spec k "__proto__") as [->|Hk].
  - unfold object_assign. rewrite Hold.
    destruct (own_props source !! "__proto__"); exact Hunion.
  - rewrite object_assign_lookup by exact Hk. exact Hunion.
Qed.


(** What [configure] leaves in the store. *)
Lemma configure_store (newConfig : value) (st : state) :
  let st' := state_of (configure newConfig st) in
  let merged := object_assign (config st) (config_proto st) newConfig in
  isOpen st' = isOpen st /\ isMinimized st' = isMinimized st /\
  isLoading st' = isLoading st /\ messages st' = messages st /\
  sessionId st' = sessionId st /\ config st' = fst merged /\
  config_proto st' = snd merged.
Proof.
  cbv zeta. unfold configure.
  destruct (render_frame
              (set_config_proto
                 (snd (object_assign (config st) (config_proto st) newConfig))
                 (set_config
                    (fst (object_assign (config st) (config_proto st) newConfig))
                    st)))
    as (Ho & Hmin & Hl & Hm & Hs & Hc).
  rewrite Ho, Hmin, Hl, Hm, Hs, Hc, render_config_proto. repeat split.
Qed.

(** A send is refused while [isLoading] is true. *)
Lemma busy_returns (st : state) (now : Z) :
  isLoading st = true -> sendMessage_begin now st = Returned st.
Proof.
  intros Hbusy. unfold sendMessage_begin.
  destruct (find_input st); [|reflexivity].
  now rewrite Hbusy, orb_true_r.
Qed.

End StateStore.


(** ** Runs *)

Section Runs.

Lemma render_isLoading (st : state) :
  isLoading (state_of (render st)) = isLoading st.
Proof. now destruct (render_frame st) as (_ & _ & ? & _). Qed.

(** Neither the control surface nor the textarea touches [isLoading]. *)
Lemma quiet_events (r : running) (e : event) :
  match e with EvSend _ | EvSettle _ _ => False | _ => True end ->
  outstanding (step r e) = outstanding r /\
  isLoading (widget (step r e)) = isLoading (widget r).
Proof.
  destruct e; intros He; try easy; cbn [step widget outstanding];
    (split; [reflexivity|]);
    unfold open, close, minimize, reset, configure;
    rewrite ?render_isLoading; reflexivity.
Qed.

(** An event keeps the requests in check. *)
Lemma in_check_step (r : running) (e : event) :
  in_check r -> in_check (step r e).
Proof.
  intros [Hle Hbusy]. unfold in_check.
  destruct e as [| | |now t|newConfig|text|now|now o];
    try (match goal with |- context [step r ?e] =>
           destruct (quiet_events r e I) as [-> ->] end; now split).
  - cbn [step]. unfold sendMessage_begin.
    destruct (find_input (widget r)) as [text|]; [|now split].
    destruct (String.eqb (Str.trim text) "" || isLoading (widget r)) eqn:Hguard;
      [now split|].
    apply orb_false_iff in Hguard as [_ Hidle].
    match goal with |- context [render ?s] =>
      pose proof (render_isLoading s) as Hl; destruct (render s) as [st3|st3] end;
      cbn [widget outstanding state_of] in *.
    + destruct (template (obj_get (config st3) "apiUrl"));
        cbn [widget outstanding].
      * destruct (outstanding r) as [|[|n]].
        -- split; [lia | intros _; exact Hl].
        -- rewrite Hbusy in Hidle by reflexivity. discriminate.
        -- exfalso; lia.
      * split; [exact Hle|]. intros Hone.
        rewrite Hbusy in Hidle by exact Hone. discriminate.
    + split; [exact Hle | intros _; exact Hl].
  - cbn [step]. destruct (Nat.eq_dec (outstanding r) 0) as [H0|H0].
    + rewrite H0. exact (conj Hle Hbusy).
    + destruct (outstanding r) as [|n]; [easy|].
      cbn [widget outstanding]. split; [lia|]. intros ->. exfalso. lia.
Qed.

(** No event removes a key of the configuration. *)
Lemma step_keeps_keys (r : running) (e : event) (k : string) :
  is_Some (config (widget r) !! k) -> is_Some (config (widget (step r e)) !! k).
Proof.
  assert (Hr : forall s, config (state_of (render s)) = config s).
  { intros s. now destruct (render_frame s) as (_ & _ & _ & _ & _ & ?). }
  intros Hk.
  destruct e as [| | |now t|newConfig|text|now|now o]; cbn [step widget].
  - unfold open. now rewrite Hr.
  - unfold close. now rewrite Hr.
  - unfold minimize. now rewrite Hr.
  - unfold reset. now rewrite Hr.
  - destruct (configure_store newConfig (widget r))
      as (_ & _ & _ & _ & _ & -> & _).
    now apply object_assign_keeps.
  - exact Hk.
  - unfold sendMessage_begin.
    destruct (find_input (widget r)); [|exact Hk].
    destruct (_ || _); [exact Hk|].
    match goal with |- context [render ?s] =>
      pose proof (Hr s) as Hc; destruct (render s) as [st3|st3] end;
      cbn [state_of] in Hc; [|cbn [widget]; now rewrite Hc].
    destruct (template (obj_get (config st3) "apiUrl")).
    + cbn [widget]. now rewrite Hc.
    + cbn [widget]. unfold sendMessage_caught. rewrite Hr.
      unfold set_isLoading, push, set_messages. cbn [config]. now rewrite Hc.
  - destruct (outstanding r); [exact Hk|]. cbn [widget].
    unfold sendMessage_settle. now rewrite Hr.
Qed.

(** The keys of the default configuration are own properties of the
    configuration throughout every run. *)
Lemma defaults_stay_own (h : host) (now : Z) (t : moment) (es : list event)
    (k : string) :
  is_Some (defaultConfig h !! k) ->
  is_Some (config (widget (run h now t es)) !! k).
Proof.
  intros Hk. unfold run.
  assert (H0 : is_Some (config (widget {| widget := init h now t;
                                          outstanding := 0 |}) !! k)).
  { cbn [widget]. unfold init.
    match goal with |- context [render ?s] =>
      destruct (render_frame s) as (_ & _ & _ & _ & _ & ->) end.
    cbn [config]. unfold initial_config, assign.
    destruct (truthy (MedicalAIWidgetConfig h)); [|exact Hk].
    rewrite lookup_union. destruct Hk as [v ->].
    destruct (own_props (MedicalAIWidgetConfig h) !! k); eauto. }
  revert H0. generalize {| widget := init h now t; outstanding := 0 |} as r.
  induction es as [|e es IH]; intros r Hr; [exact Hr|].
  cbn [List.fold_left]. apply IH. now apply step_keeps_keys.
Qed.

(** In every run of the widget at most one request is outstanding. *)
Lemma at_most_one_outstanding (h : host) (now : Z) (t : moment) (es : list event) :
  in_check (run h now t es).
Proof.
  unfold run.
  assert (H0 : in_check {| widget := init h now t; outstanding := 0 |})
    by (split; cbn; [lia | discriminate]).
  revert H0. generalize {| widget := init h now t; outstanding := 0 |} as r.
  induction es as [|e es IH]; intros r Hr; [exact Hr|].
  cbn [List.fold_left]. apply IH. now apply in_check_step.
Qed.

End Runs.

(** ** Claims about the state store and the network client *)

Section Claims.

(** C1 fails after a reply that is no text.  The widget was loaded and
    opened, the visitor sent a message, and the request settled with the
    body [{"response": 42}]: the render that follows threw inside
    [parseMarkdown], the store having been updated.  The next invocation
    of [sendMessage], with a non-empty message while [isLoading] is
    false, appends the visitor's message, sets [isLoading] and throws in
    its render, which stands before the [try] block: no request is made,
    no assistant message is appended, and [isLoading] stays true, so that
    every later send is refused. *)
Theorem sendMessage_wedges_after_number_reply :
  widget (run sample_host 1700000000000 sample_moment sample_number_events)
    = sample_number_answered /\
  find_input sample_number_answered = Some "anyone there?" /\
  Str.trim "anyone there?" <> "" /\
  isLoading sample_number_answered = false /\
  exists st,
    sendMessage_begin 1700000001000 sample_number_answered = Aborted st /\
    messages st =
      (messages sample_number_answered ++
       [{| role := user; content := VStr "anyone there?";
           timestamp := 1700000001000 |}])%list /\
    isLoading st = true /\
    forall (now : Z) (text : string),
      sendMessage_begin now (type_text text st) = Returned (type_text text st).
Proof.
  split; [vm_compute; reflexivity|].
  split; [vm_compute; reflexivity|].
  split; [vm_compute; discriminate|].
  split; [vm_compute; reflexivity|].
  eexists. split; [vm_compute; reflexivity|].
  split; [vm_compute; reflexivity|].
  split; [reflexivity|].
  intros now text. now apply busy_returns.
Qed.

(** C2: while [isLoading] is true, [sendMessage] returns at once: no
    request is issued and the store, transcript included, is as it was.
    Hence in every run of the widget at most one request is outstanding,
    and [isLoading] is true as long as one is. *)
Theorem sendMessage_refuses_while_loading :
  (forall (st : state) (now : Z),
     isLoading st = true -> sendMessage_begin now st = Returned st) /\
  (forall (h : host) (now : Z) (t : moment) (es : list event),
     (outstanding (run h now t es) <= 1)%nat /\
     (outstanding (run h now t es) = 1%nat ->
      isLoading (widget (run h now t es)) = true)).
Proof.
  split.
  - intros st now Hbusy. unfold sendMessage_begin.
    destruct (find_input st); [|reflexivity].
    rewrite Hbusy, orb_true_r. reflexivity.
  - exact at_most_one_outstanding.
Qed.

Lemma sendMessage_refuses_while_loading_witness :
  isLoading sample_loading = true /\
  find_input sample_loading = Some "again" /\
  sendMessage_begin 1700000000900 sample_loading = Returned sample_loading /\
  outstanding
    (run sample_host 1700000000000 sample_moment
       [EvOpen; EvType "hello"; EvSend 1700000000500; EvType "again";
        EvSend 1700000000900]) = 1%nat.
Proof.
  destruct sendMessage_refuses_while_loading as [Hguard Hrun].
  split; [vm_compute; reflexivity|].
  split; [vm_compute; reflexivity|].
  split.
  - apply (Hguard sample_loading 1700000000900%Z). vm_compute; reflexivity.
  - destruct (Hrun sample_host 1700000000000%Z sample_moment
                [EvOpen; EvType "hello"; EvSend 1700000000500; EvType "again";
                 EvSend 1700000000900]) as [Hle _].
    vm_compute. reflexivity.
Defined.

(** C4: when the textarea holds a text that is empty once trimmed,
    [sendMessage] is a silent no-op: no request is issued, nothing is
    appended, and every field of the store keeps its value. *)
Theorem sendMessage_ignores_blank_input
    (st : state) (now : Z) (text : string)
    (Hinput : find_input st = Some text)
    (Hblank : Str.trim text = "") :
  sendMessage_begin now st = Returned st.
Proof.
  unfold sendMessage_begin. rewrite Hinput, Hblank. reflexivity.
Qed.

Lemma sendMessage_ignores_blank_input_witness :
  find_input (sample_typed "   ") = Some "   " /\
  Str.trim "   " = "" /\
  sendMessage_begin 1700000000500 (sample_typed "   ")
    = Returned (sample_typed "   ").
Proof.
  split; [vm_compute; reflexivity|].
  split; [vm_compute; reflexivity|].
  apply (sendMessage_ignores_blank_input (sample_typed "   ")
           1700000000500 "   ");
    vm_compute; reflexivity.
Defined.

(** C9: [close()] sets [isOpen] to false and keeps the transcript and
    the session identifier; [reset()] keeps [isOpen] and [isMinimized];
    both for every prior state. *)
Theorem close_and_reset_frames (st : state) (now : Z) (t : moment) :
  isOpen (state_of (close st)) = false /\
  messages (state_of (close st)) = messages st /\
  sessionId (state_of (close st)) = sessionId st /\
  isOpen (state_of (reset now t st)) = isOpen st /\
  isMinimized (state_of (reset now t st)) = isMinimized st.
Proof.
  unfold close, reset.
  destruct (render_frame (set_isOpen false st)) as (Ho & _ & _ & Hm & Hs & _).
  destruct (render_frame
              (set_sessionId (new_session_id t)
                 (set_messages [greeting_message (config st) now] st)))
    as (Ho' & Hmin' & _).
  rewrite Ho, Hm, Hs, Ho', Hmin'. repeat split; reflexivity.
Qed.




(** C3, as the script has it: [reset()] leaves a transcript of exactly
    one message, the configured greeting with role assistant, and sets
    the session identifier to one built from the clock reading and the
    random suffix of the moment; the new identifier differs from the
    previous one whenever the previous one was built from another
    reading or another suffix. *)
Theorem reset_transcript_and_session (st : state) (now : Z) (t : moment) :
  messages (state_of (reset now t st)) =
    [{| role := assistant; content := obj_get (config st) "greeting";
        timestamp := now |}] /\
  sessionId (state_of (reset now t st)) = new_session_id t /\
  forall t0 : moment,
    sessionId st = new_session_id t0 -> t0 <> t ->
    sessionId (state_of (reset now t st)) <> sessionId st.
Proof.
  unfold reset.
  destruct (render_frame
              (set_sessionId (new_session_id t)
                 (set_messages [greeting_message (config st) now] st)))
    as (_ & _ & _ & Hm & Hs & _).
  rewrite Hm, Hs. simpl. repeat split.
  intros t0 Hprev Hne Heq. rewrite Hprev in Heq.
  apply new_session_id_inj in Heq. congruence.
Qed.

Lemma reset_transcript_and_session_witness :
  sessionId sample_init = new_session_id sample_moment /\
  sample_moment <> sample_later /\
  length (messages (state_of (reset 1700000000750 sample_later sample_init))) = 1%nat /\
  sessionId (state_of (reset 1700000000750 sample_later sample_init))
    <> sessionId sample_init.
Proof.
  split; [vm_compute; reflexivity|].
  split; [discriminate|].
  destruct (reset_transcript_and_session sample_init 1700000000750 sample_later)
    as (Hm & _ & Hfresh).
  split; [rewrite Hm; reflexivity|].
  apply (Hfresh sample_moment); [vm_compute; reflexivity | discriminate].
Defined.

(** C3, as stated, fails: a reset made at the clock reading and with the
    random suffix the current identifier was built from yields the same
    session identifier again. *)
Lemma reset_can_repeat_session_id :
  sessionId (state_of (reset 1700000000000 sample_moment sample_init))
    = sessionId sample_init.
Proof. vm_compute. reflexivity. Qed.

(** C6, as the script has it: on a 2xx response whose body parses to a
    value other than [null], the appended assistant message holds the
    body's [response] field when that field is present and truthy, and
    the generic apology when the field is absent or falsy (the empty
    text, [null], [false], zero). *)
Theorem sendMessage_success_reply
    (st : state) (now status : Z) (statusText : string) (data : value)
    (Hok : ok status = true)
    (Hnull : data <> VNull) (Hundef : data <> VUndef) :
  messages
    (state_of (sendMessage_settle now
                 (Responded status statusText (BodyJson data)) st)) =
    (messages st ++
     [{| role := assistant;
         content :=
           match response_field data with
           | Some v => if truthy v then v else VStr apology
           | None => VStr apology
           end;
         timestamp := now |}])%list.
Proof.
  destruct (settle_store now (Responded status statusText (BodyJson data)) st)
    as [_ Hm].
  rewrite Hm. do 3 f_equal.
  unfold reply_content, try_block. rewrite Hok.
  destruct data as [| |b|n|s|items|props|name]; try congruence; try reflexivity.
  unfold get_response, response_field, obj_get, or_else.
  destruct (props !! "response") as [v|]; reflexivity.
Qed.

Lemma sendMessage_success_reply_witness :
  ok 200 = true /\
  messages
    (state_of (sendMessage_settle 1700000000900
                 (Responded 200 "OK"
                    (BodyJson (VObj {[ "response" := VStr "Drink water." ]})))
                 sample_loading)) =
    (messages sample_loading ++
     [{| role := assistant; content := VStr "Drink water.";
         timestamp := 1700000000900 |}])%list.
Proof.
  split; [reflexivity|].
  rewrite (sendMessage_success_reply sample_loading 1700000000900 200 "OK"
             (VObj {[ "response" := VStr "Drink water." ]}));
    [reflexivity | reflexivity | discriminate | discriminate].
Defined.

(** C6, as stated, fails: a body whose [response] field is present but
    holds the empty text gets the apology instead of the field. *)
Lemma apology_replaces_present_field :
  response_field (VObj sample_empty_reply) = Some (VStr "") /\
  messages
    (state_of (sendMessage_settle 1700000000900
                 (Responded 200 "OK" (BodyJson (VObj sample_empty_reply)))
                 sample_loading)) =
    (messages sample_loading ++
     [{| role := assistant; content := VStr apology;
         timestamp := 1700000000900 |}])%list.
Proof. split; vm_compute; reflexivity. Qed.

(** A position that converts to a text which names neither a placement
    nor a property inherited from [Object.prototype] falls back to the
    bottom-right placement. *)
Lemma placement_fallback (cfg : gmap string value) :
  converts (obj_get cfg "position") = true ->
  let k := to_string (obj_get cfg "position") in
  positions !! k = None -> object_prototype !! k = None ->
  k <> "__proto__" ->
  placement cfg = "bottom: 20px; right: 20px;".
Proof.
  intros _ k Hp Ho Hk. unfold placement. fold k.
  unfold obj_get at 1. rewrite Hp, Ho.
  apply String.eqb_neq in Hk. rewrite Hk. reflexivity.
Qed.

(** C10 at the position ["constructor"]: the lookup finds the function
    inherited from [Object.prototype], which is truthy, so the
    bottom-right fallback is not taken and the function's source text
    stands in the container's style where the placement declarations
    should. *)
Theorem placement_of_inherited_name :
  obj_get (initial_config sample_host_odd) "position" = VStr "constructor" /\
  placement (initial_config sample_host_odd)
    = "function Object() { [native code] }" /\
  placement (initial_config sample_host_odd)
    <> "bottom: 20px; right: 20px;" /\
  cssText (initial_config sample_host_odd)
    = [ "position: fixed;";
        "function Object() { [native code] }";
        "z-index: 10000;";
        "font-family: -apple-system, BlinkMacSystemFont, 'Segoe UI', Roboto, sans-serif;" ].
Proof.
  split; [vm_compute; reflexivity|].
  split; [vm_compute; reflexivity|].
  split; [vm_compute; discriminate | vm_compute; reflexivity].
Qed.

End Claims.

(** ** Claims about the markdown renderer *)

Section Renderer.
Import Markdown.

(** C7: for the text [**bold** and *italic* and `code`] the renderer's
    output holds exactly one strong element, wrapping "bold", exactly one
    emphasis element, wrapping "italic", and exactly one inline code
    element, wrapping "code". *)
Theorem parseMarkdown_inline_sample :
  let html := parseMarkdown "**bold** and *italic* and `code`" in
  html = "<p><strong>bold</strong> and <em>italic</em> and <code>code</code></p>" /\
  Str.count "<strong>" html = 1%nat /\
  Str.count "<strong>bold</strong>" html = 1%nat /\
  Str.count "<em>" html = 1%nat /\
  Str.count "<em>italic</em>" html = 1%nat /\
  Str.count "<code>" html = 1%nat /\
  Str.count "<code>code</code>" html = 1%nat.
Proof. vm_compute. repeat split; reflexivity. Qed.

End Renderer.


(** ** The matcher on the patterns of the renderer *)

Section RegexFacts.
Import Regex.

Lemma length_append (a b : string) :
  String.length (a ++ b) = (String.length a + String.length b)%nat.
Proof. induction a as [|x a IH]; simpl; [reflexivity | now rewrite IH]. Qed.

Lemma substring_whole (b c : string) :
  String.substring 0 (String.length b) (b ++ c) = b.
Proof.
  induction b as [|x b IH]; simpl.
  - now destruct c.
  - now rewrite IH.
Qed.

Lemma substring_append (a b c : string) :
  String.substring (String.length a) (String.length b) (a ++ b ++ c) = b.
Proof. induction a as [|x a IH]; simpl; [apply substring_whole | exact IH]. Qed.

Lemma drop_append (a b : string) : Str.drop (String.length a) (a ++ b) = b.
Proof.
  induction a as [|x a IH]; simpl; [now destruct b | exact IH].
Qed.

Lemma single_line_append (a b : string) :
  Str.single_line (a ++ b) = Str.single_line a && Str.single_line b.
Proof.
  induction a as [|x a IH]; simpl; [reflexivity|].
  now rewrite IH, andb_assoc.
Qed.

(** Greedy [.*] followed by [$] runs to the end of the line. *)
Lemma star_dot_to_eol (body rest : string) (bol : bool) (i : nat) (g : nat * nat) :
  Str.single_line body = true -> at_eol rest = true ->
  m_star Dot (rmatch [Eol; GClose]) bol (body ++ rest) i g
    = Some ((fst g, i + String.length body), i + String.length body)%nat.
Proof.
  intros Hb Hr. revert bol i. induction body as [|c body IH]; intros bol i.
  - simpl. rewrite Nat.add_0_r. destruct rest as [|c r]; simpl.
    + reflexivity.
    + simpl in Hr. rewrite Hr. simpl. reflexivity.
  - simpl in Hb. apply andb_true_iff in Hb as [Hc Hb].
    simpl. rewrite Hc, (IH Hb), Nat.add_succ_r. reflexivity.
Qed.

Lemma line_terminator_cases (c : ascii) :
  Str.is_line_terminator c = true -> c = Str.LF \/ c = Str.CR.
Proof.
  unfold Str.is_line_terminator. intros H.
  apply orb_true_iff in H as [H|H]; apply Ascii.eqb_eq in H; auto.
Qed.

Lemma line_terminator_not_digit (c : ascii) :
  Str.is_line_terminator c = true -> Str.is_digit c = false.
Proof. intros H. destruct (line_terminator_cases c H) as [-> | ->]; reflexivity. Qed.

Lemma single_line_drop (n : nat) (s : string) :
  Str.single_line s = true -> Str.single_line (Str.drop n s) = true.
Proof.
  revert s. induction n as [|n IH]; intros [|c s] H; simpl; auto.
  simpl in H. apply andb_true_iff in H as [_ H]. auto.
Qed.

(** A marker the line begins with splits the line. *)
Lemma prefix_split (marker l : string) :
  String.prefix marker l = true ->
  l = marker ++ Str.drop (String.length marker) l.
Proof.
  revert l. induction marker as [|a marker IH]; intros l H.
  - now destruct l.
  - destruct l as [|x l]; simpl in H; [discriminate|].
    destruct (ascii_dec a x) as [->|]; [|discriminate].
    simpl. f_equal. exact (IH l H).
Qed.

(** A single-line marker the line does not begin with does not begin the
    line extended past its end either. *)
Lemma prefix_past_eol (marker l rest : string) :
  Str.single_line marker = true -> at_eol rest = true ->
  String.prefix marker l = false -> String.prefix marker (l ++ rest) = false.
Proof.
  revert l. induction marker as [|a marker IH]; intros l Hm Hr H.
  - now destruct l.
  - simpl in Hm. apply andb_true_iff in Hm as [Ha Hm].
    apply negb_true_iff in Ha.
    destruct l as [|x l]; simpl.
    + destruct rest as [|c r]; simpl; [reflexivity|].
      destruct (ascii_dec a c) as [->|]; [|reflexivity].
      simpl in Hr. congruence.
    + simpl in H. destruct (ascii_dec a x); [|reflexivity]. now apply IH.
Qed.

Lemma rmatch_lits_fail (pat : string) (r : regex) (bol : bool) (s : string)
    (i : nat) (g : nat * nat) :
  String.prefix pat s = false -> rmatch (lits pat ++ r)%list bol s i g = None.
Proof.
  revert bol s i. induction pat as [|a pat IH]; intros bol s i H.
  - now destruct s.
  - destruct s as [|x s]; simpl; [reflexivity|].
    simpl in H. destruct (ascii_dec a x) as [->|Hne].
    + rewrite Ascii.eqb_refl. now apply IH.
    + apply Ascii.eqb_neq in Hne. now rewrite Hne.
Qed.

(** [marker(.*$)] on a line that begins with the marker. *)
Lemma rmatch_marker_body (marker b rest : string) (bol : bool) (i : nat)
    (g : nat * nat) :
  Str.single_line b = true -> at_eol rest = true ->
  rmatch (lits marker ++ [GOpen; Star Dot; Eol; GClose])%list bol
    (marker ++ b ++ rest) i g
  = Some ((i + String.length marker,
           i + String.length marker + String.length b),
          i + String.length marker + String.length b)%nat.
Proof.
  intros Hb Hr. revert bol i. induction marker as [|a marker IH]; intros bol i.
  - cbn [lits app append String.length].
    change (rmatch [GOpen; Star Dot; Eol; GClose] bol (b ++ rest) i g)
      with (m_star Dot (rmatch [Eol; GClose]) bol (b ++ rest) i (i, snd g)).
    rewrite (star_dot_to_eol b rest bol i (i, snd g) Hb Hr).
    cbn [fst]. rewrite Nat.add_0_r. reflexivity.
  - cbn [lits app append String.length].
    change (rmatch (Lit a :: lits marker ++ [GOpen; Star Dot; Eol; GClose])%list
              bol (String a (marker ++ b ++ rest)) i g)
      with (if Ascii.eqb a a
            then rmatch (lits marker ++ [GOpen; Star Dot; Eol; GClose])%list
                   (Str.is_line_terminator a) (marker ++ b ++ rest) (S i) g
            else None).
    rewrite Ascii.eqb_refl, IH, !Nat.add_succ_r. reflexivity.
Qed.

Lemma re_line_bol (marker : string) (s : string) (i : nat) (g : nat * nat) :
  rmatch (Markdown.re_line marker) false s i g = None.
Proof. reflexivity. Qed.

Lemma strip_splits (marker l b : string) :
  marker <> "" -> strip marker l = Some b ->
  exists m, l = m ++ b /\ m <> "".
Proof.
  unfold strip. intros Hne H.
  destruct (String.prefix marker l) eqn:Hp; [|discriminate].
  injection H as <-. exists marker. split; [now apply prefix_split | exact Hne].
Qed.

Lemma re_line_match (marker l rest : string) :
  Str.single_line marker = true ->
  Str.single_line l = true -> at_eol rest = true ->
  rmatch (Markdown.re_line marker) true (l ++ rest) 0 (0, 0)%nat =
    match strip marker l with
    | Some b =>
        Some ((String.length l - String.length b, String.length l),
              String.length l)%nat
    | None => None
    end.
Proof.
  intros Hm Hl Hr. unfold Markdown.re_line, strip. cbn [rmatch].
  destruct (String.prefix marker l) eqn:Hp.
  - pose proof (prefix_split marker l Hp) as Hsplit.
    set (b := Str.drop (String.length marker) l) in *.
    assert (Hb : Str.single_line b = true) by now apply single_line_drop.
    rewrite Hsplit at 1. rewrite append_assoc.
    rewrite (rmatch_marker_body marker b rest true 0 (0, 0)%nat Hb Hr).
    assert (Hlen : String.length l
                   = (String.length marker + String.length b)%nat).
    { rewrite Hsplit at 1. apply length_append. }
    rewrite Hlen. cbn [Nat.add].
    replace (String.length marker + String.length b - String.length b)%nat
      with (String.length marker) by lia.
    reflexivity.
  - apply rmatch_lits_fail. now apply prefix_past_eol.
Qed.

(** Only [^] looks at the line-start flag. *)
Lemma rmatch_unanchored (p : regex) :
  unanchored p = true ->
  forall b1 b2 s i g, rmatch p b1 s i g = rmatch p b2 s i g.
Proof.
  induction p as [|a p IH]; intros Hp; [reflexivity|].
  simpl in Hp. apply andb_true_iff in Hp as [Ha Hp]. specialize (IH Hp).
  destruct a; try discriminate; cbn [rmatch]; intros b1 b2 s i g.
  - reflexivity.
  - destruct (at_eol s); [apply IH | reflexivity].
  - revert b1 b2 i g. induction s as [|d s IHs]; intros b1 b2 i g; simpl.
    + apply IH.
    + destruct (in_class cl d); [|apply IH].
      now rewrite (IH b1 b2).
  - revert b1 b2 i g. induction s as [|d s IHs]; intros b1 b2 i g; simpl.
    + now rewrite (IH b1 b2).
    + now rewrite (IH b1 b2).
  - reflexivity.
  - apply IH.
  - apply IH.
Qed.

Lemma skip_digits_length (s : string) :
  (String.length (skip_digits s) <= String.length s)%nat.
Proof.
  induction s as [|c s IH]; simpl; [lia|].
  destruct (Str.is_digit c); simpl; lia.
Qed.

Lemma skip_digits_suffix (s : string) : exists ds, s = ds ++ skip_digits s.
Proof.
  induction s as [|c s [ds IH]]; [now exists ""|].
  simpl. destruct (Str.is_digit c).
  - exists (String c ds). simpl. now rewrite <- IH.
  - now exists "".
Qed.

Lemma skip_digits_single_line (s : string) :
  Str.single_line s = true -> Str.single_line (skip_digits s) = true.
Proof.
  induction s as [|c s IH]; intros H; [reflexivity|].
  simpl. destruct (Str.is_digit c); [|exact H].
  simpl in H. apply andb_true_iff in H as [_ H]. auto.
Qed.

Lemma skip_digits_past_eol (l rest : string) :
  at_eol rest = true -> skip_digits (l ++ rest) = skip_digits l ++ rest.
Proof.
  intros Hr. induction l as [|c l IH]; simpl.
  - destruct rest as [|x r]; [reflexivity|]. simpl.
    simpl in Hr. now rewrite (line_terminator_not_digit x Hr).
  - destruct (Str.is_digit c); [exact IH | reflexivity].
Qed.

(** Greedy [\d*] before a continuation that no digit can start: the
    digits are all taken and never given back. *)
Lemma star_digits (k : cont)
    (Hk : forall b1 b2 s i g, k b1 s i g = k b2 s i g)
    (Hd : forall bol d s i g, Str.is_digit d = true -> k bol (String d s) i g = None)
    (s : string) (bol : bool) (i : nat) (g : nat * nat) :
  m_star Digit k bol s i g
    = k bol (skip_digits s)
        (i + (String.length s - String.length (skip_digits s)))%nat g.
Proof.
  revert bol i. induction s as [|d s IH]; intros bol i.
  - simpl. now rewrite Nat.add_0_r.
  - cbn [m_star in_class skip_digits String.length].
    destruct (Str.is_digit d) eqn:Hdig.
    + rewrite IH. pose proof (skip_digits_length s) as Hlen.
      replace (i + (S (String.length s) - String.length (skip_digits s)))%nat
        with (S i + (String.length s - String.length (skip_digits s)))%nat by lia.
      rewrite (Hk (Str.is_line_terminator d) bol).
      destruct (k bol (skip_digits s) _ g); [reflexivity|].
      now apply Hd.
    + cbn [String.length]. now rewrite Nat.sub_diag, Nat.add_0_r.
Qed.

Lemma numbered_body_splits (l b : string) :
  numbered_body l = Some b -> exists m, l = m ++ b /\ m <> "".
Proof.
  destruct l as [|c l]; simpl; [discriminate|].
  destruct (Str.is_digit c); [|discriminate]. intros H.
  destruct (strip_splits ". " (skip_digits l) b) as (m & Hm & _);
    [discriminate | exact H |].
  destruct (skip_digits_suffix l) as [ds Hds].
  exists (String c (ds ++ m)). split; [|discriminate].
  simpl. f_equal. rewrite append_assoc, <- Hm. exact Hds.
Qed.

Lemma re_numbered_match (l rest : string) :
  Str.single_line l = true -> at_eol rest = true ->
  rmatch Markdown.re_numbered true (l ++ rest) 0 (0, 0)%nat =
    match numbered_body l with
    | Some b =>
        Some ((String.length l - String.length b, String.length l),
              String.length l)%nat
    | None => None
    end.
Proof.
  intros Hl Hr.
  set (k := rmatch (lits ". " ++ [GOpen; Star Dot; Eol; GClose])%list).
  change (rmatch Markdown.re_numbered true (l ++ rest) 0 (0, 0)%nat)
    with (m_plus Digit k true (l ++ rest) 0 (0, 0)%nat).
  assert (Hk : forall b1 b2 s i g, k b1 s i g = k b2 s i g).
  { apply rmatch_unanchored. reflexivity. }
  assert (Hd : forall bol d s i g,
             Str.is_digit d = true -> k bol (String d s) i g = None).
  { intros bol d s i g Hdig. apply rmatch_lits_fail. rewrite prefix_cons.
    destruct (Ascii.eqb_spec "." d) as [<-|]; [|reflexivity].
    vm_compute in Hdig. discriminate. }
  destruct l as [|c l]; cbn [append m_plus numbered_body in_class].
  - destruct rest as [|x r]; [reflexivity|].
    simpl in Hr. cbn [m_plus in_class].
    now rewrite (line_terminator_not_digit x Hr).
  - destruct (Str.is_digit c); [|reflexivity].
    simpl in Hl. apply andb_true_iff in Hl as [_ Hl].
    rewrite (star_digits k Hk Hd), (skip_digits_past_eol l rest Hr).
    rewrite !length_append.
    pose proof (skip_digits_length l) as Hlen.
    unfold strip, k.
    destruct (String.prefix ". " (skip_digits l)) eqn:Hp.
    + pose proof (prefix_split _ _ Hp) as Hsplit.
      set (b := Str.drop (String.length ". ") (skip_digits l)) in *.
      assert (Hb : Str.single_line b = true).
      { apply single_line_drop, skip_digits_single_line, Hl. }
      assert (Hskip : String.length (skip_digits l) = (2 + String.length b)%nat).
      { rewrite Hsplit at 1. apply length_append. }
      rewrite Hsplit at 1. rewrite append_assoc.
      rewrite (rmatch_marker_body ". " b rest _ _ _ Hb Hr).
      cbn [String.length]. rewrite Hskip in *.
      repeat f_equal; lia.
    + apply rmatch_lits_fail.
      apply prefix_past_eol; auto using skip_digits_single_line.
Qed.

(** A pattern anchored at the line start, whose match from a line start is
    the whole line when the line has the marker and none otherwise, rewrites
    a text line by line. *)
Section LineRule.
Variables (p : regex) (before after : string) (body : string -> option string).
Hypothesis Hbol : forall s i g, rmatch p false s i g = None.
Hypothesis Hbody :
  forall l b, body l = Some b -> exists m, l = m ++ b /\ m <> "".
Hypothesis Hmatch :
  forall l rest, Str.single_line l = true -> at_eol rest = true ->
    rmatch p true (l ++ rest) 0 (0, 0)%nat =
      match body l with
      | Some b =>
          Some ((String.length l - String.length b, String.length l),
                String.length l)%nat
      | None => None
      end.

Lemma scan_copy_line (u v : string) :
  Str.single_line u = true ->
  scan true p before after false 0 (u ++ v)
    = u ++ scan true p before after false 0 v.
Proof.
  induction u as [|c u IH]; intros Hu; [reflexivity|].
  simpl in Hu. apply andb_true_iff in Hu as [Hc Hu].
  apply negb_true_iff in Hc.
  simpl. rewrite Hbol, Hc, (IH Hu). reflexivity.
Qed.

Lemma scan_skip_line (u v : string) :
  Str.single_line u = true ->
  scan true p before after false (String.length u) (u ++ v)
    = scan true p before after false 0 v.
Proof.
  induction u as [|c u IH]; intros Hu; [reflexivity|].
  simpl in Hu. apply andb_true_iff in Hu as [Hc Hu].
  apply negb_true_iff in Hc.
  simpl. rewrite Hc. exact (IH Hu).
Qed.

Lemma scan_line_break (c : ascii) (rest : string) :
  Str.is_line_terminator c = true ->
  scan true p before after false 0 (String c rest)
    = String c (scan true p before after true 0 rest).
Proof. intros Hc. simpl. rewrite Hbol, Hc. reflexivity. Qed.

Lemma scan_end_of_text :
  scan true p before after false 0 "" = "".
Proof. simpl. rewrite Hbol. reflexivity. Qed.

Lemma body_of_empty : body "" = None.
Proof.
  destruct (body "") as [b|] eqn:Hb; [|reflexivity].
  destruct (Hbody _ _ Hb) as (m & Hm & Hne).
  destruct m; [congruence | discriminate].
Qed.

(** The line at a line start, followed by whatever [tail] the text has
    after it, provided the tail begins at the end of the line. *)
Lemma scan_from_line_start (l tail : string) :
  Str.single_line l = true -> at_eol tail = true ->
  scan true p before after true 0 (l ++ tail)
    = line_rule before after body l
      ++ match tail with
         | String c rest => String c (scan true p before after true 0 rest)
         | EmptyString => ""
         end.
Proof.
  intros Hl Ht.
  assert (Htail : scan true p before after false 0 tail =
                  match tail with
                  | String c rest => String c (scan true p before after true 0 rest)
                  | EmptyString => ""
                  end).
  { destruct tail as [|c rest]; [apply scan_end_of_text|].
    apply scan_line_break. exact Ht. }
  pose proof (Hmatch l tail Hl Ht) as Hm.
  unfold line_rule.
  destruct l as [|c0 l0].
  - rewrite body_of_empty in *. simpl append in *.
    destruct tail as [|c rest]; simpl.
    + simpl in Hm. rewrite Hm. reflexivity.
    + simpl in Hm, Ht. rewrite Hm, Ht. reflexivity.
  - simpl in Hl. apply andb_true_iff in Hl as [Hc Hl0].
    apply negb_true_iff in Hc.
    change (String c0 l0 ++ tail) with (String c0 (l0 ++ tail)) in *.
    cbn [scan]. rewrite Hm.
    destruct (body (String c0 l0)) as [b|] eqn:Hb.
    + destruct (Hbody _ _ Hb) as (m & Hlm & Hne). f_equal.
      * unfold expand. cbn [fst snd].
        change (String c0 (l0 ++ tail)) with (String c0 l0 ++ tail).
        rewrite Hlm, length_append.
        replace (String.length m + String.length b - String.length b)%nat
          with (String.length m) by lia.
        replace (String.length m + String.length b - String.length m)%nat
          with (String.length b) by lia.
        rewrite (append_assoc m b tail), substring_append. reflexivity.
      * cbn [String.length].
        rewrite Hc, (scan_skip_line l0 tail Hl0), Htail. reflexivity.
    + rewrite Hc, (scan_copy_line l0 tail Hl0), Htail. reflexivity.
Qed.

Lemma scan_line (l : string) (c : ascii) (rest : string) :
  Str.single_line l = true -> Str.is_line_terminator c = true ->
  replace_all p before after (l ++ String c rest)
    = line_rule before after body l
      ++ String c (replace_all p before after rest).
Proof.
  intros Hl Hc. unfold replace_all.
  now rewrite (scan_from_line_start l (String c rest) Hl Hc).
Qed.

Lemma scan_last_line (l : string) :
  Str.single_line l = true ->
  replace_all p before after l = line_rule before after body l.
Proof.
  intros Hl. unfold replace_all.
  rewrite <- (append_empty_r l) at 1.
  rewrite (scan_from_line_start l "" Hl eq_refl). apply append_empty_r.
Qed.

End LineRule.

(** *** The line rules of the renderer *)

Lemma re_line_rule (marker before after l : string) :
  marker <> "" -> Str.single_line marker = true -> Str.single_line l = true ->
  (forall c rest, Str.is_line_terminator c = true ->
     replace_all (Markdown.re_line marker) before after (l ++ String c rest)
       = line_rule before after (strip marker) l
         ++ String c (replace_all (Markdown.re_line marker) before after rest)) /\
  replace_all (Markdown.re_line marker) before after l
    = line_rule before after (strip marker) l.
Proof.
  intros Hne Hm Hl.
  assert (Hbody : forall l b, strip marker l = Some b ->
                    exists m, l = m ++ b /\ m <> "").
  { intros l' b. now apply strip_splits. }
  assert (Hmatch : forall l rest,
             Str.single_line l = true -> at_eol rest = true ->
             rmatch (Markdown.re_line marker) true (l ++ rest) 0 (0, 0)%nat =
               match strip marker l with
               | Some b =>
                   Some ((String.length l - String.length b, String.length l),
                         String.length l)%nat
               | None => None
               end).
  { intros l' rest. now apply re_line_match. }
  split.
  - intros c rest Hc.
    now apply (scan_line _ before after _ (re_line_bol marker) Hbody Hmatch).
  - now apply (scan_last_line _ before after _ (re_line_bol marker) Hbody Hmatch).
Qed.

Lemma re_numbered_rule (before after l : string) :
  Str.single_line l = true ->
  (forall c rest, Str.is_line_terminator c = true ->
     replace_all Markdown.re_numbered before after (l ++ String c rest)
       = line_rule before after numbered_body l
         ++ String c (replace_all Markdown.re_numbered before after rest)) /\
  replace_all Markdown.re_numbered before after l
    = line_rule before after numbered_body l.
Proof.
  intros Hl.
  assert (Hbol : forall s i g, rmatch Markdown.re_numbered false s i g = None)
    by reflexivity.
  split.
  - intros c rest Hc.
    now apply (scan_line _ before after _ Hbol numbered_body_splits
                 re_numbered_match).
  - now apply (scan_last_line _ before after _ Hbol numbered_body_splits
                 re_numbered_match).
Qed.

Lemma strip_single_line (marker l b : string) :
  Str.single_line l = true -> strip marker l = Some b ->
  Str.single_line b = true.
Proof.
  unfold strip. intros Hl H.
  destruct (String.prefix marker l); [|discriminate].
  injection H as <-. now apply single_line_drop.
Qed.

Lemma numbered_body_single_line (l b : string) :
  Str.single_line l = true -> numbered_body l = Some b ->
  Str.single_line b = true.
Proof.
  destruct l as [|c l]; simpl; [discriminate|]. intros Hl.
  apply andb_true_iff in Hl as [_ Hl].
  destruct (Str.is_digit c); [|discriminate].
  apply strip_single_line. now apply skip_digits_single_line.
Qed.

Lemma li_single_line (b : string) :
  Str.single_line b = true -> Str.single_line (li b) = true.
Proof.
  intros Hb. unfold li. rewrite !single_line_append, Hb. reflexivity.
Qed.

(** No list rule applies to a line that is a list-item element already. *)
Lemma li_is_final (b : string) :
  strip "- " (li b) = None /\ strip "+ " (li b) = None /\
  numbered_body (li b) = None.
Proof. repeat split. Qed.

(** The four list rules, one after the other, on one line. *)
Lemma list_rules_on_line (l : string) :
  Str.single_line l = true ->
  let star := line_rule "<li>" "</li>" (strip "* ") l in
  let dash := line_rule "<li>" "</li>" (strip "- ") star in
  let plus := line_rule "<li>" "</li>" (strip "+ ") dash in
  Str.single_line star = true /\ Str.single_line dash = true /\
  Str.single_line plus = true /\
  line_rule "<li>" "</li>" numbered_body plus = list_line l.
Proof.
  intros Hl. unfold list_line, item_body, line_rule. fold (li).
  destruct (strip "* " l) as [b|] eqn:H1.
  { pose proof (li_single_line b (strip_single_line _ _ _ Hl H1)) as Hb.
    fold (li b). destruct (li_is_final b) as (-> & -> & ->). auto. }
  destruct (strip "- " l) as [b|] eqn:H2.
  { pose proof (li_single_line b (strip_single_line _ _ _ Hl H2)) as Hb.
    fold (li b). destruct (li_is_final b) as (_ & -> & ->). auto. }
  destruct (strip "+ " l) as [b|] eqn:H3.
  { pose proof (li_single_line b (strip_single_line _ _ _ Hl H3)) as Hb.
    fold (li b). destruct (li_is_final b) as (_ & _ & ->). auto. }
  destruct (numbered_body l) as [b|] eqn:H4; auto.
Qed.

Lemma list_items_line (l : string) (c : ascii) (rest : string) :
  Str.single_line l = true -> Str.is_line_terminator c = true ->
  Markdown.list_items (l ++ String c rest)
    = list_line l ++ String c (Markdown.list_items rest).
Proof.
  intros Hl Hc. destruct (list_rules_on_line l Hl) as (H1 & H2 & H3 & H4).
  unfold Markdown.list_items.
  destruct (re_line_rule "* " "<li>" "</li>" _ ltac:(discriminate) eq_refl Hl)
    as [Ra _].
  destruct (re_line_rule "- " "<li>" "</li>" _ ltac:(discriminate) eq_refl H1)
    as [Rb _].
  destruct (re_line_rule "+ " "<li>" "</li>" _ ltac:(discriminate) eq_refl H2)
    as [Rc _].
  destruct (re_numbered_rule "<li>" "</li>" _ H3) as [Rd _].
  rewrite (Ra c rest Hc), (Rb c _ Hc), (Rc c _ Hc), (Rd c _ Hc), H4.
  reflexivity.
Qed.

Lemma list_items_last_line (l : string) :
  Str.single_line l = true -> Markdown.list_items l = list_line l.
Proof.
  intros Hl. destruct (list_rules_on_line l Hl) as (H1 & H2 & H3 & H4).
  unfold Markdown.list_items.
  destruct (re_line_rule "* " "<li>" "</li>" _ ltac:(discriminate) eq_refl Hl)
    as [_ Ra].
  destruct (re_line_rule "- " "<li>" "</li>" _ ltac:(discriminate) eq_refl H1)
    as [_ Rb].
  destruct (re_line_rule "+ " "<li>" "</li>" _ ltac:(discriminate) eq_refl H2)
    as [_ Rc].
  destruct (re_numbered_rule "<li>" "</li>" _ H3) as [_ Rd].
  rewrite Ra, Rb, Rc, Rd. exact H4.
Qed.

(** *** The list container *)

Lemma includes_cons (pat : string) (c : ascii) (s : string) :
  Str.includes pat (String c s) = false ->
  String.prefix pat (String c s) = false /\ Str.includes pat s = false.
Proof. cbn [Str.includes]. intros H. now apply orb_false_iff in H. Qed.

(** A pattern the text does not begin with does not begin the text
    extended by a character foreign to the pattern either. *)
Lemma prefix_past_char (pat l : string) (x : ascii) (r : string) :
  Str.has_char x pat = false ->
  String.prefix pat l = false -> String.prefix pat (l ++ String x r) = false.
Proof.
  revert l. induction pat as [|a pat IH]; intros l Hx H.
  - now destruct l.
  - cbn [Str.has_char] in Hx. apply orb_false_iff in Hx as [Ha Hx].
    destruct l as [|y l]; cbn [append]; rewrite prefix_cons.
    + rewrite Ascii.eqb_sym, Ha. reflexivity.
    + rewrite prefix_cons in H. destruct (Ascii.eqb a y); [|reflexivity].
      simpl in H |- *. now apply IH.
Qed.

Lemma rmatch_lits_ok (pat : string) (r : regex) (bol : bool) (s : string)
    (i : nat) (g : nat * nat) :
  exists bol',
    rmatch (lits pat ++ r)%list bol (pat ++ s) i g
      = rmatch r bol' s (i + String.length pat)%nat g.
Proof.
  revert bol i. induction pat as [|a pat IH]; intros bol i.
  - exists bol. cbn [lits app append String.length]. now rewrite Nat.add_0_r.
  - destruct (IH (Str.is_line_terminator a) (S i)) as [bol' Hb].
    exists bol'. cbn [lits app append String.length].
    change (rmatch (Lit a :: lits pat ++ r)%list bol (String a (pat ++ s)) i g)
      with (if Ascii.eqb a a
            then rmatch (lits pat ++ r)%list (Str.is_line_terminator a)
                   (pat ++ s) (S i) g
            else None).
    rewrite Ascii.eqb_refl, Hb, Nat.add_succ_r. reflexivity.
Qed.

(** Greedy [.*] under the [s] flag before [</li>]: the match ends with
    the last [</li>] of the text. *)
Lemma star_every_none (s : string) (bol : bool) (i : nat) (g : nat * nat) :
  Str.includes "</li>" s = false ->
  m_star Every (rmatch (lits "</li>" ++ [GClose])%list) bol s i g = None.
Proof.
  revert bol i. induction s as [|d s IH]; intros bol i H; [reflexivity|].
  apply includes_cons in H as [Hp Hs].
  cbn [m_star in_class]. rewrite (IH _ _ Hs).
  now apply rmatch_lits_fail.
Qed.

Lemma star_every_last (mid post : string) (bol : bool) (i : nat) (g : nat * nat) :
  Str.includes "</li>" post = false ->
  m_star Every (rmatch (lits "</li>" ++ [GClose])%list) bol
    (mid ++ "</li>" ++ post) i g
  = Some ((fst g, i + String.length mid + 5), i + String.length mid + 5)%nat.
Proof.
  intros Hpost. revert bol i. induction mid as [|c mid IH]; intros bol i.
  - change ("" ++ "</li>" ++ post) with (String "<" ("/li>" ++ post)).
    cbn [m_star in_class]. rewrite star_every_none.
    + change (String "<" ("/li>" ++ post)) with ("</li>" ++ post).
      destruct (rmatch_lits_ok "</li>" [GClose] bol post i g) as [bol' ->].
      cbn [rmatch String.length fst]. rewrite Nat.add_0_r. reflexivity.
    + cbn [append Str.includes]. rewrite !prefix_cons. exact Hpost.
  - cbn [append String.length]. cbn [m_star in_class].
    rewrite IH, !Nat.add_succ_r. reflexivity.
Qed.

Lemma scan_cons_none (global : bool) (p : regex) (before after : string)
    (bol : bool) (c : ascii) (s : string) :
  rmatch p bol (String c s) 0 (0, 0)%nat = None ->
  scan global p before after bol 0 (String c s)
    = String c (scan global p before after (Str.is_line_terminator c) 0 s).
Proof. intros H. cbn [scan]. now rewrite H. Qed.

Lemma scan_first_some (p : regex) (before after : string) (bol : bool)
    (c : ascii) (s : string) (g : nat * nat) (e : nat) :
  rmatch p bol (String c s) 0 (0, 0)%nat = Some (g, e) ->
  scan false p before after bol 0 (String c s)
    = expand before after (String c s) g ++ Str.drop e (String c s).
Proof. intros H. cbn [scan]. now rewrite H. Qed.

Lemma re_list_span_none (bol : bool) (s : string) :
  String.prefix "<li>" s = false ->
  rmatch Markdown.re_list_span bol s 0 (0, 0)%nat = None.
Proof.
  intros H.
  change (rmatch Markdown.re_list_span bol s 0 (0, 0)%nat)
    with (rmatch (lits "<li>" ++ Star Every :: lits "</li>" ++ [GClose])%list
            bol s 0 (0, 0)%nat).
  now apply rmatch_lits_fail.
Qed.

Lemma li_length (mid : string) :
  String.length (li mid) = (4 + String.length mid + 5)%nat.
Proof. unfold li. rewrite !length_append. simpl. lia. Qed.

Lemma re_list_span_some (bol : bool) (mid post : string) :
  Str.includes "</li>" post = false ->
  rmatch Markdown.re_list_span bol (li mid ++ post) 0 (0, 0)%nat
    = Some ((0, String.length (li mid)), String.length (li mid))%nat.
Proof.
  intros Hpost. rewrite li_length. unfold li. rewrite !append_assoc.
  change (rmatch Markdown.re_list_span bol
            ("<li>" ++ mid ++ "</li>" ++ post) 0 (0, 0)%nat)
    with (rmatch (lits "<li>" ++ Star Every :: lits "</li>" ++ [GClose])%list
            bol ("<li>" ++ mid ++ "</li>" ++ post) 0 (0, 0)%nat).
  destruct (rmatch_lits_ok "<li>" (Star Every :: lits "</li>" ++ [GClose])%list
              bol (mid ++ "</li>" ++ post) 0 (0, 0)%nat) as [b2 ->].
  change (rmatch (Star Every :: lits "</li>" ++ [GClose])%list)
    with (m_star Every (rmatch (lits "</li>" ++ [GClose])%list)).
  rewrite (star_every_last mid post b2 _ _ Hpost). reflexivity.
Qed.

Lemma scan_before_first_li (before after pre rest : string) (bol : bool) :
  Str.includes "<li>" pre = false ->
  exists bol',
    scan false Markdown.re_list_span before after bol 0 (pre ++ "<li>" ++ rest)
      = pre ++ scan false Markdown.re_list_span before after bol' 0
                 ("<li>" ++ rest).
Proof.
  revert bol. induction pre as [|c pre IH]; intros bol H.
  - now exists bol.
  - apply includes_cons in H as [Hp Hs].
    destruct (IH (Str.is_line_terminator c) Hs) as [bol' Hb].
    exists bol'.
    change (String c pre ++ "<li>" ++ rest)
      with (String c (pre ++ "<li>" ++ rest)).
    rewrite scan_cons_none.
    + now rewrite Hb.
    + apply re_list_span_none.
      rewrite prefix_cons in Hp |- *.
      destruct (Ascii.eqb "<" c); [|reflexivity].
      rewrite andb_true_l in Hp |- *.
      change ("<li>" ++ rest) with (String "<" ("li>" ++ rest)).
      now apply (prefix_past_char "li>" pre "<").
Qed.

(** The text from the first [<li>] to the last [</li>] is wrapped once;
    what stands before and after stays outside. *)
Lemma wrap_lists_span (pre mid post : string) :
  Str.includes "<li>" pre = false -> Str.includes "</li>" post = false ->
  Markdown.wrap_lists (pre ++ li mid ++ post)
    = pre ++ "<ul>" ++ li mid ++ "</ul>" ++ post.
Proof.
  intros Hpre Hpost. unfold Markdown.wrap_lists, replace_first.
  assert (Hshape : li mid ++ post = "<li>" ++ mid ++ "</li>" ++ post).
  { unfold li. now rewrite !append_assoc. }
  rewrite Hshape.
  destruct (scan_before_first_li "<ul>" "</ul>" pre
              (mid ++ "</li>" ++ post) true Hpre) as [bol' ->].
  f_equal. rewrite <- Hshape.
  pose proof (re_list_span_some bol' mid post Hpost) as Hm.
  remember (li mid ++ post) as s eqn:Hs.
  destruct s as [|c s]; [now rewrite Hshape in Hs|].
  rewrite (scan_first_some _ _ _ _ _ _ _ _ Hm). rewrite Hs.
  unfold expand. cbn [fst snd]. rewrite Nat.sub_0_r.
  rewrite substring_whole, drop_append, !append_assoc. reflexivity.
Qed.

(** *** Whole texts *)

Lemma unlines_cons (l l' : string) (ls : list string) :
  unlines (l :: l' :: ls) = l ++ String Str.LF (unlines (l' :: ls)).
Proof. reflexivity. Qed.

(** A rule that works line by line maps over the lines of a text. *)
Lemma rule_on_lines (R f : string -> string) :
  (forall l, Str.single_line l = true ->
     R l = f l /\
     forall c rest, Str.is_line_terminator c = true ->
       R (l ++ String c rest) = f l ++ String c (R rest)) ->
  forall ls, Forall (fun l => Str.single_line l = true) ls -> ls <> [] ->
    R (unlines ls) = unlines (List.map f ls).
Proof.
  intros HR ls Hls. induction Hls as [|l ls Hl Hls IH]; intros Hne; [easy|].
  destruct (HR l Hl) as [Hlast Hline].
  destruct ls as [|l' ls]; [exact Hlast|].
  cbn [List.map]. rewrite !unlines_cons, (Hline Str.LF _ eq_refl), IH; easy.
Qed.

Lemma list_items_on_lines (ls : list string) :
  Forall (fun l => Str.single_line l = true) ls -> ls <> [] ->
  Markdown.list_items (unlines ls) = unlines (List.map list_line ls).
Proof.
  apply rule_on_lines. intros l Hl. split.
  - now apply list_items_last_line.
  - intros c rest Hc. now apply list_items_line.
Qed.

(** A pattern that begins with a literal the text does not hold changes
    nothing. *)
Lemma replace_all_foreign (a : ascii) (p : regex) (before after s : string) :
  Str.has_char a s = false ->
  replace_all (Lit a :: p) before after s = s.
Proof.
  intros H. unfold replace_all.
  enough (Hall : forall bol, scan true (Lit a :: p) before after bol 0 s = s)
    by apply Hall.
  induction s as [|c s IH]; intros bol; [reflexivity|].
  cbn [Str.has_char] in H. apply orb_false_iff in H as [Hc Hs].
  rewrite scan_cons_none.
  - now rewrite IH.
  - cbn [rmatch]. unfold m_lit. now rewrite Hc.
Qed.

Lemma scan_unanchored (p : regex) (global : bool) (before after : string) :
  unanchored p = true ->
  forall s b1 b2 skip,
    scan global p before after b1 skip s = scan global p before after b2 skip s.
Proof.
  intros Hp. induction s as [|c s IH]; intros b1 b2 skip; cbn [scan].
  - destruct skip; [|reflexivity].
    now rewrite (rmatch_unanchored p Hp b1 b2).
  - destruct skip; [|reflexivity].
    now rewrite (rmatch_unanchored p Hp b1 b2).
Qed.

(** Characters foreign to the first literal of the pattern are copied. *)
Lemma copy_foreign (a : ascii) (p : regex) (before after u v : string) :
  unanchored (Lit a :: p) = true -> Str.has_char a u = false ->
  replace_all (Lit a :: p) before after (u ++ v)
    = u ++ replace_all (Lit a :: p) before after v.
Proof.
  intros Hp. unfold replace_all. induction u as [|c u IH]; intros H; [reflexivity|].
  cbn [Str.has_char] in H. apply orb_false_iff in H as [Hc Hu].
  cbn [append]. rewrite scan_cons_none.
  - rewrite (scan_unanchored _ _ _ _ Hp _ _ true), (IH Hu). reflexivity.
  - cbn [rmatch]. unfold m_lit. now rewrite Hc.
Qed.

Lemma has_char_append (a : ascii) (u v : string) :
  Str.has_char a (u ++ v) = Str.has_char a u || Str.has_char a v.
Proof.
  induction u as [|c u IH]; [reflexivity|].
  cbn [append Str.has_char]. now rewrite IH, orb_assoc.
Qed.

Lemma single_line_no_LF (l : string) :
  Str.single_line l = true -> Str.has_char Str.LF l = false.
Proof.
  induction l as [|c l IH]; [reflexivity|]. cbn [Str.single_line Str.has_char].
  intros H. apply andb_true_iff in H as [Hc Hl]. rewrite (IH Hl), orb_false_r.
  apply negb_true_iff in Hc. unfold Str.is_line_terminator in Hc.
  apply orb_false_iff in Hc as [Hc _]. now rewrite Ascii.eqb_sym.
Qed.

Lemma has_char_unlines (a : ascii) (ls : list string) :
  Ascii.eqb a Str.LF = false ->
  Forall (fun l => Str.has_char a l = false) ls ->
  Str.has_char a (unlines ls) = false.
Proof.
  intros Ha Hls. induction Hls as [|l ls Hl Hls IH]; [reflexivity|].
  destruct ls as [|l' ls]; [exact Hl|].
  rewrite unlines_cons, has_char_append, Hl. cbn [Str.has_char orb].
  now rewrite Ha, IH.
Qed.

(** [/\n\n/g] finds nothing between lines none of which is empty. *)
Lemma blank_lines_absent (ls : list string) :
  Forall (fun l => Str.single_line l = true /\ l <> "") ls ->
  replace_all Markdown.re_blank_line "</p><p>" "" (unlines ls) = unlines ls.
Proof.
  intros Hls. induction Hls as [|l ls [Hl Hne] Hls IH]; [reflexivity|].
  destruct ls as [|l' ls].
  - apply replace_all_foreign. now apply single_line_no_LF.
  - rewrite unlines_cons.
    unfold Markdown.re_blank_line.
    rewrite copy_foreign; [|reflexivity | now apply single_line_no_LF].
    f_equal.
    inversion Hls as [|? ? [Hl' Hne'] _]; subst.
    destruct l' as [|c' l'']; [easy|].
    assert (Hhead : exists X, unlines (String c' l'' :: ls) = String c' X).
    { destruct ls; [now exists l''|]. rewrite unlines_cons. now eexists. }
    destruct Hhead as [X HX]. rewrite HX in *.
    cbn [Str.single_line] in Hl'. apply andb_true_iff in Hl' as [Hc' _].
    apply negb_true_iff in Hc'. unfold Str.is_line_terminator in Hc'.
    apply orb_false_iff in Hc' as [Hc' _].
    unfold replace_all in *. rewrite scan_cons_none.
    + rewrite (scan_unanchored [Lit Str.LF; Lit Str.LF] _ _ _ eq_refl _ _ true).
      f_equal. exact IH.
    + cbn [rmatch]. unfold m_lit. rewrite Ascii.eqb_refl, Ascii.eqb_sym, Hc'.
      reflexivity.
Qed.

Lemma newline_step (rest : string) :
  replace_all Markdown.re_newline "<br>" "" (String Str.LF rest)
    = "<br>" ++ replace_all Markdown.re_newline "<br>" "" rest.
Proof.
  unfold replace_all. cbn [scan].
  change (rmatch Markdown.re_newline true (String Str.LF rest) 0 (0, 0)%nat)
    with (Some ((0, 0), 1)%nat).
  cbv iota beta.
  rewrite (scan_unanchored Markdown.re_newline _ _ _ eq_refl _ _ true).
  reflexivity.
Qed.

(** [/\n/g] turns the line feeds between lines into [<br>]. *)
Lemma newlines_to_br (ls : list string) :
  Forall (fun l => Str.single_line l = true) ls ->
  replace_all Markdown.re_newline "<br>" "" (unlines ls) = Str.join "<br>" ls.
Proof.
  intros Hls. induction Hls as [|l ls Hl Hls IH]; [reflexivity|].
  destruct ls as [|l' ls].
  - apply replace_all_foreign. now apply single_line_no_LF.
  - rewrite unlines_cons.
    change Markdown.re_newline with [Lit Str.LF] in *.
    rewrite copy_foreign; [|reflexivity | now apply single_line_no_LF].
    change [Lit Str.LF] with Markdown.re_newline in *.
    rewrite newline_step, IH. reflexivity.
Qed.

(** *** Markers *)

Lemma not_digit_differs (a c : ascii) :
  Str.is_digit a = false -> Str.is_digit c = true -> Ascii.eqb a c = false.
Proof.
  intros Ha Hc. destruct (Ascii.eqb_spec a c) as [->|]; [congruence | reflexivity].
Qed.

Lemma skip_digits_single_line_back (s : string) :
  Str.single_line (skip_digits s) = true -> Str.single_line s = true.
Proof.
  induction s as [|c s IH]; [reflexivity|]. cbn [skip_digits].
  destruct (Str.is_digit c) eqn:Hc; [|easy].
  intros H. cbn [Str.single_line]. rewrite (IH H), andb_true_r.
  apply negb_true_iff.
  destruct (Str.is_line_terminator c) eqn:Hlt; [|reflexivity].
  now rewrite (line_terminator_not_digit c Hlt) in Hc.
Qed.

Lemma skip_digits_has_char (a : ascii) (s : string) :
  Str.is_digit a = false ->
  Str.has_char a s = Str.has_char a (skip_digits s).
Proof.
  intros Ha. induction s as [|c s IH]; [reflexivity|]. cbn [skip_digits].
  destruct (Str.is_digit c) eqn:Hc; [|reflexivity].
  cbn [Str.has_char]. now rewrite (not_digit_differs a c Ha Hc), IH.
Qed.

Lemma skip_digits_before (s x : string) :
  skip_digits s <> "" -> skip_digits (s ++ x) = skip_digits s ++ x.
Proof.
  induction s as [|c s IH]; [easy|]. cbn [append skip_digits].
  destruct (Str.is_digit c); [exact IH | reflexivity].
Qed.

Lemma numbered_marker_shape (m : string) :
  numbered_marker m = true ->
  exists c m', m = String c m' /\ Str.is_digit c = true /\ skip_digits m' = ". ".
Proof.
  destruct m as [|c m']; [discriminate|]. cbn [numbered_marker]. intros H.
  apply andb_true_iff in H as [Hc Hm]. apply String.eqb_eq in Hm. eauto.
Qed.

Lemma plain_marker_cases (m : string) :
  plain_marker m = true ->
  m = "- " \/ m = "+ " \/ numbered_marker m = true.
Proof.
  unfold plain_marker. intros H.
  apply orb_true_iff in H as [H|H]; [apply orb_true_iff in H as [H|H]|];
    rewrite ?String.eqb_eq in H; auto.
Qed.

Lemma strip_here (marker x : string) : strip marker (marker ++ x) = Some x.
Proof. unfold strip. now rewrite prefix_append, drop_append. Qed.

Lemma strip_foreign_head (a c : ascii) (marker m x : string) :
  Ascii.eqb a c = false -> strip (String a marker) (String c m ++ x) = None.
Proof. intros H. unfold strip. cbn [append]. now rewrite prefix_cons, H. Qed.

(** A line that begins with a marker is a list item holding the rest. *)
Lemma item_body_marked (m x : string) :
  plain_marker m = true -> item_body (m ++ x) = Some x.
Proof.
  intros H. unfold item_body.
  destruct (plain_marker_cases m H) as [-> | [-> | Hn]].
  - rewrite strip_foreign_head by reflexivity. now rewrite strip_here.
  - rewrite !strip_foreign_head by reflexivity. now rewrite strip_here.
  - destruct (numbered_marker_shape m Hn) as (c & m' & -> & Hc & Hm').
    rewrite !strip_foreign_head by now apply not_digit_differs.
    cbn [append numbered_body]. rewrite Hc.
    rewrite skip_digits_before, Hm'; [apply strip_here | now rewrite Hm'].
Qed.

Lemma asterisk_line_is_item (x : string) : item_body ("* " ++ x) = Some x.
Proof. unfold item_body. now rewrite strip_here. Qed.

(** A marker holds no line terminator, no inline marker and no [#]. *)
Lemma plain_marker_chars (m : string) (a : ascii) :
  plain_marker m = true ->
  Str.is_digit a = false -> Str.has_char a "-+. " = false ->
  Str.has_char a m = false.
Proof.
  intros H Ha Hset. destruct (plain_marker_cases m H) as [-> | [-> | Hn]].
  - cbn [Str.has_char] in *. repeat (apply orb_false_iff in Hset as [? Hset]).
    repeat (apply orb_false_iff; split); auto.
  - cbn [Str.has_char] in *. repeat (apply orb_false_iff in Hset as [? Hset]).
    repeat (apply orb_false_iff; split); auto.
  - destruct (numbered_marker_shape m Hn) as (c & m' & -> & Hc & Hm').
    cbn [Str.has_char]. rewrite (not_digit_differs a c Ha Hc).
    rewrite (skip_digits_has_char a m' Ha), Hm'.
    cbn [Str.has_char orb] in *. repeat (apply orb_false_iff in Hset as [? Hset]).
    repeat (apply orb_false_iff; split); auto.
Qed.

Lemma plain_marker_single_line (m : string) :
  plain_marker m = true -> Str.single_line m = true.
Proof.
  intros H. destruct (plain_marker_cases m H) as [-> | [-> | Hn]];
    [reflexivity | reflexivity |].
  destruct (numbered_marker_shape m Hn) as (c & m' & -> & Hc & Hm').
  cbn [Str.single_line].
  rewrite (skip_digits_single_line_back m') by now rewrite Hm'.
  rewrite andb_true_r. apply negb_true_iff.
  destruct (Str.is_line_terminator c) eqn:Hlt; [|reflexivity].
  now rewrite (line_terminator_not_digit c Hlt) in Hc.
Qed.

(** No header rule applies to a line that begins with a marker. *)
Lemma marked_line_is_no_header (m x marks : string) :
  plain_marker m = true ->
  strip (String "#" marks) (m ++ x) = None.
Proof.
  intros H. pose proof (plain_marker_chars m "#" H eq_refl eq_refl) as Hm.
  destruct m as [|c m]; [discriminate|].
  cbn [Str.has_char] in Hm. apply orb_false_iff in Hm as [Hc _].
  unfold strip. cbn [append]. now rewrite prefix_cons, Hc.
Qed.

(** *** A text of list lines, through the whole renderer *)

Lemma map_fixed {A : Type} (f : A -> A) (l : list A) :
  Forall (fun x => f x = x) l -> List.map f l = l.
Proof. induction 1 as [|x l Hx _ IH]; simpl; congruence. Qed.

Lemma header_rule_idle (marks before after : string) (ls : list string) :
  Str.single_line marks = true ->
  Forall (fun l => Str.single_line l = true) ls -> ls <> [] ->
  Forall (fun l => strip (String "#" marks) l = None) ls ->
  replace_all (Markdown.re_line (String "#" marks)) before after (unlines ls)
    = unlines ls.
Proof.
  intros Hmarks Hls Hne Hfree.
  rewrite (rule_on_lines _ (line_rule before after (strip (String "#" marks))));
    auto.
  - f_equal. apply map_fixed.
    eapply Forall_impl; [exact Hfree|]. intros l Hl. simpl in Hl.
    unfold line_rule. now rewrite Hl.
  - intros l Hl.
    destruct (re_line_rule (String "#" marks) before after l) as [Hline Hlast];
      auto; discriminate.
Qed.

Lemma headers_idle (ls : list string) :
  Forall (fun l => Str.single_line l = true) ls -> ls <> [] ->
  Forall (fun l => forall marks, strip (String "#" marks) l = None) ls ->
  Markdown.headers (unlines ls) = unlines ls.
Proof.
  intros Hls Hne Hfree. unfold Markdown.headers.
  rewrite (header_rule_idle "## "), (header_rule_idle "# "),
    (header_rule_idle " "); auto;
    (eapply Forall_impl; [exact Hfree|]; intros l Hl; apply Hl).
Qed.

Lemma re_span_idle (a : ascii) (d before after s : string) :
  Str.has_char a s = false ->
  replace_all (Markdown.re_span (String a d)) before after s = s.
Proof.
  intros H.
  exact (replace_all_foreign a
           (lits d ++ [GOpen; StarLazy Dot; GClose] ++ lits (String a d))%list
           before after s H).
Qed.

Lemma re_fence_idle (before after s : string) :
  Str.has_char "`" s = false ->
  replace_all Markdown.re_fence before after s = s.
Proof.
  intros H.
  exact (replace_all_foreign "`"
           (lits "``" ++ [GOpen; StarLazy Every; GClose] ++ lits "```")%list
           before after s H).
Qed.

Lemma inline_rules_idle (s : string) :
  Str.has_char "*" s = false -> Str.has_char "_" s = false ->
  Str.has_char "`" s = false ->
  Markdown.code (Markdown.italic (Markdown.bold s)) = s.
Proof.
  intros Hstar Hund Htick.
  unfold Markdown.code, Markdown.italic, Markdown.bold.
  rewrite (re_span_idle "*" "*" _ _ s Hstar), (re_span_idle "_" "_" _ _ s Hund).
  rewrite (re_span_idle "*" "" _ _ s Hstar), (re_span_idle "_" "" _ _ s Hund).
  rewrite (re_fence_idle _ _ s Htick). exact (re_span_idle "`" "" _ _ s Htick).
Qed.

(** A run of list-item elements is itself of the shape [<li>...</li>]. *)
Lemma run_shape (x : string) (xs : list string) :
  exists mid, Str.join "<br>" (List.map li (x :: xs)) = li mid.
Proof.
  revert x. induction xs as [|y ys IH]; intros x; [now exists x|].
  destruct (IH y) as [mid Hmid].
  exists (x ++ "</li>" ++ "<br>" ++ "<li>" ++ mid).
  change (Str.join "<br>" (List.map li (x :: y :: ys)))
    with (li x ++ "<br>" ++ Str.join "<br>" (List.map li (y :: ys))).
  rewrite Hmid. unfold li. now rewrite !append_assoc.
Qed.

Lemma plain_parts (x : string) :
  plain x = true ->
  Str.single_line x = true /\ Str.has_char "*" x = false /\
  Str.has_char "_" x = false /\ Str.has_char "`" x = false.
Proof.
  unfold plain. intros H.
  repeat (apply andb_true_iff in H as [H ?]).
  repeat split; try apply negb_true_iff; assumption.
Qed.

Lemma entry_line_facts (e : string * string) :
  list_entry e ->
  Str.single_line (entry_line e) = true /\
  entry_line e <> "" /\
  (forall marks, strip (String "#" marks) (entry_line e) = None) /\
  Str.has_char "*" (entry_line e) = false /\
  Str.has_char "_" (entry_line e) = false /\
  Str.has_char "`" (entry_line e) = false /\
  list_line (entry_line e) = li (snd e).
Proof.
  destruct e as [m x]. unfold list_entry, entry_line. cbn [fst snd].
  intros [Hm Hx]. destruct (plain_parts x Hx) as (Hsl & Hstar & Hund & Htick).
  repeat split.
  - now rewrite single_line_append, plain_marker_single_line, Hsl.
  - destruct m; [discriminate | discriminate].
  - intros marks. now apply marked_line_is_no_header.
  - now rewrite has_char_append, (plain_marker_chars m "*" Hm), Hstar.
  - now rewrite has_char_append, (plain_marker_chars m "_" Hm), Hund.
  - now rewrite has_char_append, (plain_marker_chars m "`" Hm), Htick.
  - unfold list_line. now rewrite item_body_marked.
Qed.

Lemma parseMarkdown_nonempty (text : string) :
  text <> "" ->
  Markdown.parseMarkdown text =
    let html :=
      Markdown.wrap_lists
        (Markdown.line_breaks
           (Markdown.list_items
              (Markdown.code (Markdown.italic (Markdown.bold
                 (Markdown.headers text)))))) in
    if Markdown.has_block html then html else "<p>" ++ html ++ "</p>".
Proof. now destruct text. Qed.

(** A text made of list lines only renders as one list container that
    holds one list-item element per line. *)
Lemma list_text_renders (entries : list (string * string)) :
  entries <> [] -> Forall list_entry entries ->
  Markdown.parseMarkdown (unlines (List.map entry_line entries))
    = "<ul>" ++ Str.join "<br>" (List.map (fun e => li (snd e)) entries)
      ++ "</ul>".
Proof.
  intros Hne Hall.
  set (lines := List.map entry_line entries).
  assert (Hfacts : Forall (fun e => _) entries)
    by exact (Forall_impl _ _ _ Hall entry_line_facts).
  assert (Hlines : lines <> []) by (subst lines; now destruct entries).
  assert (Hsl : Forall (fun l => Str.single_line l = true) lines).
  { subst lines. apply Forall_map. eapply Forall_impl; [exact Hfacts|].
    now intros e (? & _). }
  assert (Hhash : Forall (fun l => forall marks,
                            strip (String "#" marks) l = None) lines).
  { subst lines. apply Forall_map. eapply Forall_impl; [exact Hfacts|].
    now intros e (_ & _ & ? & _). }
  assert (Hstar : Str.has_char "*" (unlines lines) = false).
  { apply has_char_unlines; [reflexivity|]. subst lines. apply Forall_map.
    eapply Forall_impl; [exact Hfacts|]. now intros e (_ & _ & _ & ? & _). }
  assert (Hund : Str.has_char "_" (unlines lines) = false).
  { apply has_char_unlines; [reflexivity|]. subst lines. apply Forall_map.
    eapply Forall_impl; [exact Hfacts|]. now intros e (_ & _ & _ & _ & ? & _). }
  assert (Htick : Str.has_char "`" (unlines lines) = false).
  { apply has_char_unlines; [reflexivity|]. subst lines. apply Forall_map.
    eapply Forall_impl; [exact Hfacts|].
    now intros e (_ & _ & _ & _ & _ & ? & _). }
  assert (Hitems : List.map list_line lines
                   = List.map li (List.map snd entries)).
  { subst lines. rewrite !List.map_map. apply List.map_ext_in.
    intros e He. rewrite Forall_forall in Hfacts.
    apply list_elem_of_In in He. now destruct (Hfacts e He) as (_&_&_&_&_&_&?). }
  assert (Hli : Forall (fun l => Str.single_line l = true /\ l <> "")
                  (List.map li (List.map snd entries))).
  { rewrite <- Hitems. subst lines. apply Forall_map, Forall_map.
    eapply Forall_impl; [exact Hfacts|].
    intros e (Hs & _ & _ & _ & _ & _ & Hl). simpl. rewrite Hl.
    split; [|discriminate]. destruct e as [m x]. cbn [snd].
    unfold list_entry in *. apply li_single_line.
    rewrite Forall_forall in Hall. unfold entry_line in Hs. cbn [fst snd] in Hs.
    rewrite single_line_append in Hs. now apply andb_true_iff in Hs as [_ ?]. }
  assert (Htext : unlines lines <> "").
  { destruct entries as [|[m x] es]; [easy|].
    inversion Hall as [|? ? [Hm _] _]; subst. cbn [fst] in Hm.
    subst lines. cbn [List.map]. unfold entry_line at 1. cbn [fst snd].
    destruct m as [|c m]; [discriminate|].
    destruct (List.map entry_line es); discriminate. }
  rewrite (parseMarkdown_nonempty _ Htext). cbv zeta.
  rewrite (headers_idle lines Hsl Hlines Hhash).
  rewrite (inline_rules_idle _ Hstar Hund Htick).
  rewrite (list_items_on_lines lines Hsl Hlines), Hitems.
  unfold Markdown.line_breaks.
  rewrite (blank_lines_absent _ Hli).
  rewrite newlines_to_br by (eapply Forall_impl; [exact Hli|]; now intros l [? _]).
  rewrite <- (List.map_map snd li).
  destruct (List.map snd entries) as [|x xs] eqn:Hxs;
    [now destruct entries|].
  destruct (run_shape x xs) as [mid ->].
  assert (Hwrap : Markdown.wrap_lists (li mid) = "<ul>" ++ li mid ++ "</ul>").
  { pose proof (wrap_lists_span "" mid "" eq_refl eq_refl) as H.
    rewrite !append_empty_r in H. exact H. }
  rewrite Hwrap.
  unfold Markdown.has_block.
  assert (Hul : Str.includes "<ul>" ("<ul>" ++ li mid ++ "</ul>") = true)
    by apply includes_here, prefix_append.
  rewrite Hul, orb_true_r. reflexivity.
Qed.

(** *** Which lines are list items *)

Lemma skip_digits_digits (s : string) :
  exists ds,
    s = ds ++ skip_digits s /\
    forall t, skip_digits t = t -> skip_digits (ds ++ t) = t.
Proof.
  induction s as [|c s (ds & Hs & Hds)].
  - now exists "".
  - cbn [skip_digits]. destruct (Str.is_digit c) eqn:Hc.
    + exists (String c ds). split.
      * cbn [append]. now rewrite <- Hs.
      * intros t Ht. cbn [append skip_digits]. rewrite Hc. now apply Hds.
    + now exists "".
Qed.

Lemma list_marker_cases (m : string) :
  list_marker m = true <-> m = "* " \/ plain_marker m = true.
Proof.
  unfold list_marker. rewrite orb_true_iff, String.eqb_eq. reflexivity.
Qed.

(** The rules take a line for a list item exactly when it begins with a
    marker and its space; the item is the rest of the line. *)
Lemma item_body_spec (l b : string) :
  item_body l = Some b <-> exists m, list_marker m = true /\ l = m ++ b.
Proof.
  split.
  - unfold item_body. intros H.
    assert (Hstrip : forall marker, list_marker marker = true ->
              strip marker l = Some b ->
              exists m, list_marker m = true /\ l = m ++ b).
    { intros marker Hmarker Hs. exists marker. split; [exact Hmarker|].
      unfold strip in Hs. destruct (String.prefix marker l) eqn:Hp; [|discriminate].
      injection Hs as <-. now apply prefix_split. }
    destruct (strip "* " l) eqn:H1; [injection H as ->; now apply (Hstrip "* ")|].
    destruct (strip "- " l) eqn:H2; [injection H as ->; now apply (Hstrip "- ")|].
    destruct (strip "+ " l) eqn:H3; [injection H as ->; now apply (Hstrip "+ ")|].
    destruct l as [|c l]; [discriminate|]. cbn [numbered_body] in H.
    destruct (Str.is_digit c) eqn:Hc; [|discriminate].
    unfold strip in H.
    destruct (String.prefix ". " (skip_digits l)) eqn:Hp; [|discriminate].
    apply prefix_split in Hp.
    set (b' := Str.drop (String.length ". ") (skip_digits l)) in *.
    injection H as <-.
    destruct (skip_digits_digits l) as (ds & Hl & Hds).
    exists (String c (ds ++ ". ")). split.
    + apply list_marker_cases. right. unfold plain_marker.
      cbn [numbered_marker]. rewrite Hc, (Hds ". " eq_refl).
      apply orb_true_r.
    + cbn [append]. f_equal. rewrite append_assoc, <- Hp. exact Hl.
  - intros (m & Hm & ->). apply list_marker_cases in Hm as [-> | Hm].
    + apply asterisk_line_is_item.
    + now apply item_body_marked.
Qed.

End RegexFacts.

(** ** Claims about lists *)

Section Lists.
Import Markdown.

(** C8, as the script has it.  When the list rules run, each line that
    begins with [* ], [- ], [+ ] or [N. ] (the marker, then a space; N one
    or more digits) becomes a list-item element holding the rest of the
    line, and every other line stays as it is.  A single contiguous run of
    list-item elements is wrapped once in a list container, what stands
    before and after it staying outside.  A text made only of lines
    [- x], [+ x] or [N. x] with plain item texts renders as one list
    container holding one list-item element per line. *)
Theorem list_rendering :
  (forall l, Str.single_line l = true ->
     list_items l = list_line l /\
     forall c rest, Str.is_line_terminator c = true ->
       list_items (l ++ String c rest)
         = list_line l ++ String c (list_items rest)) /\
  (forall m x, list_marker m = true -> list_line (m ++ x) = li x) /\
  (forall l, (forall m x, list_marker m = true -> l <> m ++ x) ->
     list_line l = l) /\
  (forall pre items post,
     items <> [] ->
     Str.includes "<li>" pre = false -> Str.includes "</li>" post = false ->
     wrap_lists (pre ++ Str.join "<br>" (List.map li items) ++ post)
       = pre ++ "<ul>" ++ Str.join "<br>" (List.map li items)
         ++ "</ul>" ++ post) /\
  (forall entries,
     entries <> [] -> Forall list_entry entries ->
     parseMarkdown (unlines (List.map entry_line entries))
       = "<ul>" ++ Str.join "<br>" (List.map (fun e => li (snd e)) entries)
         ++ "</ul>").
Proof.
  split; [|split; [|split; [|split]]].
  - intros l Hl. split.
    + now apply list_items_last_line.
    + intros c rest Hc. now apply list_items_line.
  - intros m x Hm. unfold list_line.
    assert (H : item_body (m ++ x) = Some x) by (apply item_body_spec; eauto).
    now rewrite H.
  - intros l Hl. unfold list_line.
    destruct (item_body l) as [b|] eqn:Hb; [|reflexivity].
    apply item_body_spec in Hb as (m & Hm & ->). now elim (Hl m b Hm).
  - intros pre [|x xs] post Hne Hpre Hpost; [easy|].
    destruct (run_shape x xs) as [mid ->].
    exact (wrap_lists_span pre mid post Hpre Hpost).
  - exact list_text_renders.
Qed.

Lemma list_rendering_witness :
  list_items ("3. walk" ++ String Str.CR "-walk")
    = "<li>walk</li>" ++ String Str.CR "-walk" /\
  wrap_lists ("Plan:<br>" ++ Str.join "<br>" (List.map li ["a"; "b"]) ++ "<br>Bye")
    = "Plan:<br><ul><li>a</li><br><li>b</li></ul><br>Bye" /\
  parseMarkdown (unlines (List.map entry_line sample_entries))
    = "<ul><li>rest</li><br><li>drink water</li><br><li>sleep</li></ul>".
Proof.
  destruct list_rendering as (Hline & _ & _ & Hwrap & Htext).
  split; [|split].
  - destruct (Hline "3. walk" eq_refl) as [_ Hl].
    rewrite (Hl Str.CR "-walk" eq_refl).
    destruct (Hline "-walk" eq_refl) as [-> _]. reflexivity.
  - rewrite (Hwrap "Plan:<br>" ["a"; "b"] "<br>Bye");
      [reflexivity | discriminate | reflexivity | reflexivity].
  - rewrite (Htext sample_entries); [reflexivity | discriminate |].
    repeat constructor.
Defined.

(** C8, as stated, fails twice over: a line that begins with [-] without
    a space after it is no list item, and two runs of list items separated
    by a paragraph end up, paragraph included, in one list container. *)
Lemma list_claim_fails :
  parseMarkdown "-x" = "<p>-x</p>" /\
  parseMarkdown sample_two_lists
    = "<ul><li>a</li><br>text<br><li>b</li></ul>" /\
  Str.count "<ul>" (parseMarkdown sample_two_lists) = 1%nat.
Proof. vm_compute. repeat split; reflexivity. Qed.

End Lists.
(* ===================================================================== *)
(** * Further properties of the widget *)
(* ===================================================================== *)

Section TextFacts.

Lemma has_char_trim_start (c : ascii) (s : string) :
  Str.has_char c s = false -> Str.has_char c (Str.trim_start s) = false.
Proof.
  induction s as [|d s IH]; [easy|]. intros H. cbn [Str.trim_start].
  destruct (Str.is_space d); [|exact H]. apply IH.
  cbn [Str.has_char] in H. now apply orb_false_iff in H as [_ ?].
Qed.

Lemma has_char_trim_end (c : ascii) (s : string) :
  Str.has_char c s = false -> Str.has_char c (Str.trim_end s) = false.
Proof.
  induction s as [|d s IH]; [easy|]. cbn [Str.has_char]. intros H.
  apply orb_false_iff in H as [Hd Hs]. specialize (IH Hs).
  cbn [Str.trim_end]. destruct (Str.trim_end s) as [|e t].
  - destruct (Str.is_space d); [reflexivity|]. cbn [Str.has_char].
    now rewrite Hd.
  - cbn [Str.has_char] in *. now rewrite Hd, IH.
Qed.

(** Trimming brings no character the text does not hold. *)
Lemma has_char_trim (c : ascii) (s : string) :
  Str.has_char c s = false -> Str.has_char c (Str.trim s) = false.
Proof. intros H. now apply has_char_trim_end, has_char_trim_start. Qed.

(** Neither does reading line breaks as line feeds, the line feed apart. *)
Lemma has_char_normalize (c : ascii) (s : string) (after_cr : bool) :
  Ascii.eqb c Str.LF = false ->
  Str.has_char c s = false ->
  Str.has_char c (Str.normalize_from after_cr s) = false.
Proof.
  intros Hc. revert after_cr. induction s as [|d s IH]; intros after_cr; [easy|].
  cbn [Str.has_char Str.normalize_from]. intros H.
  apply orb_false_iff in H as [Hd Hs].
  destruct (Ascii.eqb d Str.CR).
  - cbn [Str.has_char]. now rewrite Hc, IH.
  - destruct (Ascii.eqb d Str.LF && after_cr); [now apply IH|].
    cbn [Str.has_char]. now rewrite Hd, IH.
Qed.







Lemma wordlike_append (u v : string) :
  wordlike (u ++ v) = wordlike u && wordlike v.
Proof.
  unfold wordlike. induction u as [|c u IH]; [reflexivity|].
  cbn. now rewrite IH, andb_assoc.
Qed.

Lemma uint_wordlike (d : Decimal.uint) :
  wordlike (NilEmpty.string_of_uint d) = true.
Proof. unfold wordlike. induction d; simpl; auto. Qed.

Lemma of_Z_wordlike (z : Z) : wordlike (Str.of_Z z) = true.
Proof.
  unfold Str.of_Z. destruct (Z.to_int z) as [d|d]; simpl.
  - apply uint_wordlike.
  - exact (uint_wordlike d).
Qed.

(** A session identifier the script builds stands in an attribute as it
    is. *)
Lemma new_session_id_wordlike (t : moment) :
  wordlike (random_suffix t) = true -> wordlike (new_session_id t) = true.
Proof.
  unfold new_session_id. intros H.
  now rewrite !wordlike_append, of_Z_wordlike, H.
Qed.

Lemma primitive_converts (v : value) : primitive v = true -> converts v = true.
Proof. now destruct v. Qed.

End TextFacts.

Section RenderEngine.

Lemma render_by_view (st : state) :
  render st =
    match expected_view st with
    | Some v => Normal (set_dom v st)
    | None => Threw st
    end.
Proof. unfold render, expected_view. now destruct (isOpen st). Qed.

Lemma render_message_text (m : message) :
  textual m -> render_message m = Some (bubble_of m).
Proof.
  intros [s Hs]. unfold render_message, parseMarkdown_content, bubble_of.
  rewrite Hs. destruct (role m); [reflexivity|]. cbn [truthy].
  destruct s; reflexivity.
Qed.

Lemma mapM_render_texts (ms : list message) :
  Forall textual ms ->
  mapM render_message ms = Some (List.map bubble_of ms).
Proof.
  intros H. apply mapM_Some_2. induction H as [|m ms Hm _ IH]; cbn; constructor.
  - now apply render_message_text.
  - exact IH.
Qed.

Lemma template_converts (v : value) :
  converts v = true -> template v = Some (to_string v).
Proof. intros H. unfold template. now rewrite H. Qed.

(** A state with a transcript of texts and primitives for title and
    placeholder renders, as [text_view] says. *)
Lemma expected_view_texts (st : state) :
  Forall textual (messages st) -> printable (config st) ->
  expected_view st = Some (text_view st).
Proof.
  intros H [Htitle Hhint]. unfold expected_view, text_view, renderChat.
  destruct (isOpen st); [|reflexivity].
  rewrite (mapM_render_texts _ H). cbn.
  rewrite (template_converts _ (primitive_converts _ Htitle)). cbn.
  destruct (isMinimized st); [reflexivity|].
  now rewrite (template_converts _ (primitive_converts _ Hhint)).
Qed.

Lemma render_texts (st : state) :
  Forall textual (messages st) -> printable (config st) ->
  render st = Normal (set_dom (text_view st) st).
Proof. intros H Hp. now rewrite render_by_view, expected_view_texts. Qed.

Lemma find_input_text_view (st : state) :
  find_input (set_dom (text_view st) st)
    = if isOpen st && negb (isMinimized st) then Some "" else None.
Proof.
  unfold find_input, text_view. cbn [dom set_dom sessionId].
  destruct (isOpen st), (isMinimized st); cbn; rewrite ?String.eqb_refl;
    reflexivity.
Qed.


(** A render of the folded panel, or of the button, leaves no textarea. *)
Lemma folded_render (st st' : state) :
  isMinimized st = true -> render st = Normal st' -> find_input st' = None.
Proof.
  intros Hmin. unfold render, renderChat. rewrite Hmin.
  destruct (isOpen st).
  - destruct (mapM render_message (messages st)); cbn; [|discriminate].
    destruct (template (obj_get (config st) "title")); cbn; [|discriminate].
    now intros [= <-].
  - now intros [= <-].
Qed.

Lemma markup_free_textual (m : message) : markup_free m -> textual m.
Proof. intros (s & Hs & _). now exists s. Qed.

Lemma panel_stands_texts (st : state) :
  panel_stands st -> Forall textual (messages st) /\ printable (config st).
Proof.
  intros (Hm & Hp & _). split; [|exact Hp].
  eapply Forall_impl; [exact Hm|]. exact markup_free_textual.
Qed.

Lemma render_standing (st : state) :
  panel_stands st -> render st = Normal (set_dom (text_view st) st).
Proof. intros H. destruct (panel_stands_texts st H). now apply render_texts. Qed.

(** A send that finds a message to send, a transcript of texts and
    primitives in the configuration goes through to the request. *)
Lemma send_goes_through (st : state) (now : Z) (text : string) :
  find_input st = Some text -> Str.trim text <> "" -> isLoading st = false ->
  Forall textual (messages st) -> printable (config st) ->
  primitive (obj_get (config st) "apiUrl") = true ->
  let st2 :=
    set_isLoading true
      (type_text ""
         (push {| role := user; content := VStr (Str.trim text);
                  timestamp := now |} st)) in
  sendMessage_begin now st =
    Awaiting (set_dom (text_view st2) st2)
      {| url := to_string (obj_get (config st) "apiUrl")
                ++ "/api/chat/widget-default";
         body_message := Str.trim text;
         conversation_id := sessionId st;
         user_id := "anonymous" |}.
Proof.
  intros Hinput Hmessage Hidle Htexts Hprint Hurl. cbv zeta.
  unfold sendMessage_begin. rewrite Hinput, Hidle.
  apply String.eqb_neq in Hmessage. rewrite Hmessage. cbn [orb].
  rewrite render_texts; [| |exact Hprint].
  2:{ cbn. apply Forall_app. split; [exact Htexts|].
      repeat constructor. now eexists. }
  cbn [config set_dom set_isLoading type_text push set_messages].
  now rewrite (template_converts _ (primitive_converts _ Hurl)).
Qed.

End RenderEngine.

Section ControlSurface.

(** X1: [sendMessage] needs the textarea.  After [close()], which never
    throws, the container holds the button only and [sendMessage] returns
    without touching anything; the same after a [minimize()] that folded
    the panel and completed its render, the title holding no [<]. *)
Theorem send_needs_the_textarea (st : state) (now : Z) :
  (close st = Normal (state_of (close st)) /\
   dom (state_of (close st)) = Button /\
   sendMessage_begin now (state_of (close st)) = Returned (state_of (close st))) /\
  (forall st',
     minimize st = Normal st' -> isMinimized st = false ->
     tagless (to_string (obj_get (config st) "title")) = true ->
     isMinimized st' = true /\ sendMessage_begin now st' = Returned st').
Proof.
  split.
  - unfold close, render. cbn. repeat split.
  - intros st' Hdone Hmin _. unfold minimize in Hdone. rewrite Hmin in Hdone.
    pose proof (render_frame (set_isMinimized (negb false) st))
      as (_ & Hfold & _).
    rewrite Hdone in Hfold. cbn [state_of] in Hfold.
    split; [exact Hfold|].
    unfold sendMessage_begin.
    now rewrite (folded_render (set_isMinimized (negb false) st) st'
                   eq_refl Hdone).
Qed.

Lemma send_needs_the_textarea_witness :
  isMinimized (sample_typed "hello") = false /\
  find_input (sample_typed "hello") = Some "hello" /\
  sendMessage_begin 1700000000500 (state_of (minimize (sample_typed "hello")))
    = Returned (state_of (minimize (sample_typed "hello"))).
Proof.
  split; [reflexivity|]. split; [vm_compute; reflexivity|].
  destruct (send_needs_the_textarea (sample_typed "hello") 1700000000500%Z)
    as [_ Hmin].
  apply (Hmin (state_of (minimize (sample_typed "hello"))));
    vm_compute; reflexivity.
Defined.

(** X2: [open()] on a widget whose texts bring no markup does not throw;
    the widget is open and unfolded, and the container is filled with one
    bubble per message, in order, assistant texts rendered by
    [parseMarkdown] and visitor texts as they are, with an empty textarea
    that carries the session identifier and a send button disabled
    exactly while loading. *)
Theorem open_shows_the_transcript (st : state) :
  panel_stands st ->
  let st' := state_of (open st) in
  open st = Normal st' /\
  isOpen st' = true /\ isMinimized st' = false /\
  dom st' =
    Chat (to_string (obj_get (config st) "title")) false
      (Some {| bubbles := List.map bubble_of (messages st);
               thinking := isLoading st;
               input_id := "widget-input-" ++ sessionId st;
               input_value := "";
               placeholder := to_string (obj_get (config st) "placeholder");
               send_id := "send-button-" ++ sessionId st;
               send_disabled := isLoading st |}) /\
  find_input st' = Some "".
Proof.
  intros Hstands. unfold open.
  rewrite render_standing by exact Hstands.
  cbn [state_of]. rewrite find_input_text_view. repeat split.
Qed.

Lemma sample_init_stands : panel_stands sample_init.
Proof.
  repeat split; try (vm_compute; reflexivity).
  repeat constructor. eexists. split; vm_compute; reflexivity.
Qed.

Lemma open_shows_the_transcript_witness :
  panel_stands sample_init /\
  find_input (state_of (open sample_init)) = Some "".
Proof.
  split; [exact sample_init_stands|].
  exact (proj2 (proj2 (proj2 (proj2
           (open_shows_the_transcript sample_init sample_init_stands))))).
Defined.

(** X3: a re-render rebuilds the textarea: what the visitor had typed is
    gone once the panel was folded and unfolded again by two calls of
    [minimize()], which otherwise restore the state. *)
Theorem minimize_twice_clears_the_draft (st : state) (text : string) :
  panel_stands st -> isOpen st = true -> isMinimized st = false ->
  let st2 := state_of (minimize (state_of (minimize (type_text text st)))) in
  find_input st2 = Some "" /\
  isOpen st2 = true /\ isMinimized st2 = false /\ isLoading st2 = isLoading st /\
  messages st2 = messages st /\ sessionId st2 = sessionId st /\
  config st2 = config st.
Proof.
  intros Hstands Hopen Hmin. unfold minimize.
  rewrite (render_standing (set_isMinimized _ (type_text text st)))
    by exact Hstands.
  cbn [state_of].
  rewrite render_standing by exact Hstands. cbn [state_of].
  rewrite find_input_text_view.
  cbn [isOpen isMinimized isLoading messages sessionId config set_dom
       set_isMinimized type_text].
  rewrite Hopen, Hmin. repeat split.
Qed.

Lemma sample_open_stands : panel_stands sample_open.
Proof.
  repeat split; try (vm_compute; reflexivity).
  repeat constructor. eexists. split; vm_compute; reflexivity.
Qed.

Lemma minimize_twice_clears_the_draft_witness :
  find_input (sample_typed "my symptoms are") = Some "my symptoms are" /\
  find_input
    (state_of (minimize (state_of (minimize (sample_typed "my symptoms are")))))
    = Some "".
Proof.
  split; [vm_compute; reflexivity|].
  exact (proj1 (minimize_twice_clears_the_draft sample_open
                  "my symptoms are" sample_open_stands eq_refl eq_refl)).
Defined.

End ControlSurface.

Section NetworkClient.

(** X4: what a send that goes through does.  The visitor's message is
    the trimmed text of the textarea; when the transcript holds texts and
    the title, the placeholder and [apiUrl] are primitives, the message
    is appended to the transcript, [isLoading] is set, and the request
    goes to [apiUrl] followed by [/api/chat/widget-default] with the
    trimmed message, the current session identifier as conversation id
    and the user id "anonymous". *)
Theorem send_request_payload (st : state) (now : Z) (text : string) :
  find_input st = Some text -> Str.trim text <> "" -> isLoading st = false ->
  Forall textual (messages st) -> printable (config st) ->
  primitive (obj_get (config st) "apiUrl") = true ->
  exists st1,
    sendMessage_begin now st =
      Awaiting st1
        {| url := to_string (obj_get (config st) "apiUrl")
                  ++ "/api/chat/widget-default";
           body_message := Str.trim text;
           conversation_id := sessionId st;
           user_id := "anonymous" |} /\
    messages st1 =
      (messages st ++
       [{| role := user; content := VStr (Str.trim text); timestamp := now |}])%list /\
    isLoading st1 = true /\
    sessionId st1 = sessionId st /\ config st1 = config st /\
    isOpen st1 = isOpen st /\ isMinimized st1 = isMinimized st.
Proof.
  intros Hinput Hmessage Hidle Htexts Hprint Hurl.
  eexists. split.
  - exact (send_goes_through st now text Hinput Hmessage Hidle Htexts Hprint Hurl).
  - repeat split.
Qed.

Lemma sample_typed_texts (text : string) :
  Forall textual (messages (sample_typed text)) /\
  printable (config (sample_typed text)) /\
  primitive (obj_get (config (sample_typed text)) "apiUrl") = true.
Proof.
  split; [|split; [split|]]; try (vm_compute; reflexivity).
  repeat constructor. vm_compute. eexists. reflexivity.
Qed.

Lemma send_request_payload_witness :
  find_input (sample_typed "  chest pain ") = Some "  chest pain " /\
  exists st1,
    sendMessage_begin 1700000000500 (sample_typed "  chest pain ") =
      Awaiting st1
        {| url := "false/api/chat/widget-default";
           body_message := "chest pain";
           conversation_id := "widget_1700000000000_k3j9x0q1z";
           user_id := "anonymous" |}.
Proof.
  split; [vm_compute; reflexivity|].
  destruct (sample_typed_texts "  chest pain ") as (Ht & Hp & Hu).
  destruct (send_request_payload (sample_typed "  chest pain ")
              1700000000500%Z "  chest pain ") as (st1 & Hreq & _);
    try assumption.
  - vm_compute; reflexivity.
  - vm_compute; discriminate.
  - vm_compute; reflexivity.
  - exists st1. rewrite Hreq. vm_compute. reflexivity.
Defined.

(** X5: the default [apiUrl] is the result of a comparison, a boolean.
    Unless the host page supplies an [apiUrl] of its own, the configured
    value prints as "true" or "false", never as the address of a server. *)
Theorem default_apiUrl_is_a_boolean (h : host) :
  own_props (MedicalAIWidgetConfig h) !! "apiUrl" = None ->
  obj_get (initial_config h) "apiUrl"
    = VBool (String.eqb (hostname h)
               "https://medical-ai-chatbot-backend.onrender.com") /\
  (to_string (obj_get (initial_config h) "apiUrl") = "true" \/
   to_string (obj_get (initial_config h) "apiUrl") = "false").
Proof.
  intros Hown.
  assert (Hdef : defaultConfig h !! "apiUrl"
                 = Some (VBool (String.eqb (hostname h)
                     "https://medical-ai-chatbot-backend.onrender.com"))).
  { unfold defaultConfig. cbn [list_to_map foldr uncurry fst snd].
    apply lookup_insert_eq. }
  assert (Hget : obj_get (initial_config h) "apiUrl"
                 = VBool (String.eqb (hostname h)
                     "https://medical-ai-chatbot-backend.onrender.com")).
  { unfold obj_get, initial_config, assign.
    destruct (truthy (MedicalAIWidgetConfig h)).
    - rewrite lookup_union, Hown, Hdef. reflexivity.
    - rewrite Hdef. reflexivity. }
  split; [exact Hget|]. rewrite Hget. cbn.
  destruct (String.eqb _ _); auto.
Qed.

Lemma default_apiUrl_is_a_boolean_witness :
  own_props (MedicalAIWidgetConfig sample_host_dark) !! "apiUrl" = None /\
  to_string (obj_get (initial_config sample_host_dark) "apiUrl") = "false".
Proof.
  split; [vm_compute; reflexivity|].
  destruct (default_apiUrl_is_a_boolean sample_host_dark) as [Hget _].
  - vm_compute; reflexivity.
  - rewrite Hget. reflexivity.
Defined.

(** X6: a complete exchange leaves the widget ready for the next one.
    The panel is open and unfolded and its texts bring no markup, the
    message and the reply neither, and [apiUrl] is a primitive.  After the send
    and the reply the transcript has grown by the visitor's message and
    the reply, in this order, [isLoading] is false again, the render
    completed, and the textarea is there and empty. *)
Theorem exchange_leaves_widget_ready
    (st : state) (now now' : Z) (text reply : string) (o : fetch_outcome) :
  find_input st = Some text -> Str.trim text <> "" -> isLoading st = false ->
  panel_stands st -> tagless (Str.trim text) = true ->
  isOpen st = true -> isMinimized st = false ->
  primitive (obj_get (config st) "apiUrl") = true ->
  reply_content o = VStr reply -> tagless reply = true ->
  exists st1 req,
    sendMessage_begin now st = Awaiting st1 req /\
    let st2 := state_of (sendMessage_settle now' o st1) in
    sendMessage_settle now' o st1 = Normal st2 /\
    messages st2 =
      (messages st ++
       [{| role := user; content := VStr (Str.trim text); timestamp := now |};
        {| role := assistant; content := VStr reply; timestamp := now' |}])%list /\
    isLoading st2 = false /\
    find_input st2 = Some "".
Proof.
  intros Hinput Hmessage Hidle Hstands _ Hopen Hmin Hurl Hreply _.
  destruct (panel_stands_texts st Hstands) as [Htexts Hprint].
  eexists _, _. split.
  - exact (send_goes_through st now text Hinput Hmessage Hidle Htexts Hprint Hurl).
  - unfold sendMessage_settle. rewrite render_texts.
    + cbn [state_of]. rewrite find_input_text_view.
      cbn [isOpen isMinimized isLoading messages set_dom set_isLoading push
           set_messages type_text].
      rewrite Hopen, Hmin, Hreply, <- app_assoc. repeat split.
    + cbn. rewrite Hreply. repeat (apply Forall_app; split); auto;
        repeat constructor; now eexists.
    + exact Hprint.
Qed.

Lemma exchange_leaves_widget_ready_witness :
  reply_content sample_text_reply = VStr "Rest and drink water." /\
  exists st1 req,
    sendMessage_begin 1700000000500 (sample_typed "hello") = Awaiting st1 req /\
    find_input (state_of (sendMessage_settle 1700000000900 sample_text_reply st1))
      = Some "".
Proof.
  split; [vm_compute; reflexivity|].
  destruct (exchange_leaves_widget_ready (sample_typed "hello")
              1700000000500%Z 1700000000900%Z "hello" "Rest and drink water."
              sample_text_reply)
    as (st1 & req & Hb & _ & _ & _ & Hready).
  - vm_compute; reflexivity.
  - vm_compute; discriminate.
  - vm_compute; reflexivity.
  - exact sample_open_stands.
  - vm_compute; reflexivity.
  - vm_compute; reflexivity.
  - vm_compute; reflexivity.
  - vm_compute; reflexivity.
  - vm_compute; reflexivity.
  - vm_compute; reflexivity.
  - exists st1, req. split; [exact Hb | exact Hready].
Defined.

(** X7: nothing cancels a request.  [reset()] does not touch [isLoading],
    so sends stay refused while the request is outstanding, and a reply
    that settles after a [reset()] lands in the new transcript, right
    behind the greeting. *)
Theorem reply_lands_after_reset
    (st : state) (now now' : Z) (t : moment) (o : fetch_outcome) :
  let st1 := state_of (reset now t st) in
  let st2 := state_of (sendMessage_settle now' o st1) in
  isLoading st1 = isLoading st /\
  messages st2 =
    [ {| role := assistant; content := obj_get (config st) "greeting";
         timestamp := now |};
      {| role := assistant; content := reply_content o; timestamp := now' |} ] /\
  sessionId st2 = new_session_id t /\
  isLoading st2 = false.
Proof.
  cbv zeta.
  destruct (settle_store now' o (state_of (reset now t st))) as [Hl Hm].
  destruct (render_frame
              (set_sessionId (new_session_id t)
                 (set_messages [greeting_message (config st) now] st)))
    as (_ & _ & Hl1 & Hm1 & Hs1 & _).
  fold (reset now t st) in Hl1, Hm1, Hs1.
  destruct (render_frame
              (set_isLoading false
                 (push {| role := assistant; content := reply_content o;
                          timestamp := now' |} (state_of (reset now t st)))))
    as (_ & _ & _ & _ & Hs2 & _).
  fold (sendMessage_settle now' o (state_of (reset now t st))) in Hs2.
  rewrite Hm, Hl, Hl1, Hm1, Hs2. cbn [sessionId set_isLoading push set_messages].
  rewrite Hs1. repeat split.
Qed.

(** X20: a failed request is reported.  When the transcript holds texts
    and the title, the placeholder and [apiUrl] are primitives, a send
    with a message to send goes through to the request; if the request
    then fails, by a transport error or a status outside 2xx, the
    transcript grows by the visitor's message and an assistant message
    that quotes the error text and recommends consulting a healthcare
    professional, [isLoading] is false again and the render completes. *)
Theorem failure_is_reported
    (st : state) (now now' : Z) (text err : string) (o : fetch_outcome) :
  find_input st = Some text -> Str.trim text <> "" -> isLoading st = false ->
  Forall textual (messages st) -> printable (config st) ->
  primitive (obj_get (config st) "apiUrl") = true ->
  failure_text o = Some err ->
  exists st1 req,
    sendMessage_begin now st = Awaiting st1 req /\
    let st2 := state_of (sendMessage_settle now' o st1) in
    sendMessage_settle now' o st1 = Normal st2 /\
    isLoading st2 = false /\
    messages st2 =
      (messages st ++
       [{| role := user; content := VStr (Str.trim text); timestamp := now |};
        {| role := assistant; content := VStr (error_content err);
           timestamp := now' |}])%list /\
    Str.includes err (error_content err) = true /\
    Str.includes "consult a healthcare professional" (error_content err)
      = true.
Proof.
  intros Hinput Hmessage Hidle Htexts Hprint Hurl Hfail.
  eexists _, _. split.
  - exact (send_goes_through st now text Hinput Hmessage Hidle Htexts Hprint Hurl).
  - unfold sendMessage_settle. rewrite (failure_reply o err Hfail).
    rewrite render_texts.
    + cbn [state_of isLoading messages set_dom set_isLoading push set_messages
           type_text].
      rewrite <- app_assoc.
      repeat split; auto using error_content_quotes, error_content_recommends.
    + cbn. repeat (apply Forall_app; split); auto;
        repeat constructor; now eexists.
    + exact Hprint.
Qed.

Lemma failure_is_reported_witness :
  failure_text (Responded 503 "Service Unavailable" (BodyError "")) =
    Some "HTTP 503: Service Unavailable" /\
  exists st1 req,
    sendMessage_begin 1700000000500 (sample_typed "  chest pain ")
      = Awaiting st1 req /\
    isLoading
      (state_of (sendMessage_settle 1700000000900
                   (Responded 503 "Service Unavailable" (BodyError "")) st1))
      = false.
Proof.
  split; [vm_compute; reflexivity|].
  destruct (sample_typed_texts "  chest pain ") as (Ht & Hp & Hu).
  destruct (failure_is_reported (sample_typed "  chest pain ")
              1700000000500%Z 1700000000900%Z "  chest pain "
              "HTTP 503: Service Unavailable"
              (Responded 503 "Service Unavailable" (BodyError "")))
    as (st1 & req & Hb & _ & Hl & _); try assumption.
  - vm_compute; reflexivity.
  - vm_compute; discriminate.
  - vm_compute; reflexivity.
  - vm_compute; reflexivity.
  - exists st1, req. split; [exact Hb | exact Hl].
Defined.

End NetworkClient.

Section Failures.





End Failures.

Section Configuration.



End Configuration.

Section RunInvariants.

Lemma greeted_push (m : message) (st : state) :
  greeted st -> greeted (push m st).
Proof. intros (g & ms & Hm & Hr). exists g, (ms ++ [m])%list. cbn. now rewrite Hm. Qed.

Lemma greeted_render (st : state) : greeted st -> greeted (state_of (render st)).
Proof.
  unfold greeted. now destruct (render_frame st) as (_ & _ & _ & -> & _).
Qed.

Lemma greeted_step (r : running) (e : event) :
  greeted (widget r) -> greeted (widget (step r e)).
Proof.
  intros Hg.
  destruct e as [| | |now t|newConfig|text|now|now o]; cbn [step widget];
    try (apply greeted_render; exact Hg).
  - apply greeted_render. eexists _, []. split; reflexivity.
  - exact Hg.
  - unfold sendMessage_begin. destruct (find_input (widget r)); [|exact Hg].
    destruct (_ || _); [exact Hg|].
    match goal with |- context [render ?s] =>
      assert (Hs : greeted (state_of (render s)))
        by (apply greeted_render, (greeted_push _ _ Hg));
      destruct (render s) as [st3|st3] end; cbn [state_of] in Hs;
      [|exact Hs].
    destruct (template (obj_get (config st3) "apiUrl")); cbn [widget];
      [exact Hs|].
    apply greeted_render, (greeted_push _ _ Hs).
  - destruct (outstanding r); [exact Hg|]. cbn [widget].
    apply greeted_render, (greeted_push _ _ Hg).
Qed.

(** X10: whatever happens to a loaded widget, its transcript is never
    empty and begins with an assistant message. *)
Theorem transcript_begins_with_greeting
    (h : host) (now : Z) (t : moment) (es : list event) :
  exists m ms,
    messages (widget (run h now t es)) = m :: ms /\ role m = assistant.
Proof.
  unfold run.
  assert (H0 : greeted (widget {| widget := init h now t; outstanding := 0 |})).
  { eexists _, []. split; reflexivity. }
  revert H0. generalize {| widget := init h now t; outstanding := 0 |} as r.
  induction es as [|e es IH]; intros r Hr; [exact Hr|].
  cbn [List.fold_left]. apply IH, greeted_step, Hr.
Qed.

(** X11: the session identifier changes with [reset()] only and the
    configuration with [configure()] only; no other event, a settling
    request included, touches either. *)
Theorem session_and_config_are_stable (r : running) (e : event) :
  ((forall now t, e <> EvReset now t) ->
   sessionId (widget (step r e)) = sessionId (widget r)) /\
  ((forall newConfig, e <> EvConfigure newConfig) ->
   config (widget (step r e)) = config (widget r)).
Proof.
  assert (Hr : forall s, sessionId (state_of (render s)) = sessionId s /\
                         config (state_of (render s)) = config s).
  { intros s. now destruct (render_frame s) as (_ & _ & _ & _ & ? & ?). }
  assert (Hsend : forall now,
            sessionId (widget (step r (EvSend now))) = sessionId (widget r) /\
            config (widget (step r (EvSend now))) = config (widget r)).
  { intros now. cbn [step]. unfold sendMessage_begin.
    destruct (find_input (widget r)); [|now split].
    destruct (_ || _); [now split|].
    match goal with |- context [render ?s] =>
      destruct (Hr s) as [Hs Hc]; destruct (render s) as [st3|st3] end;
      cbn [state_of] in Hs, Hc; [|now split].
    destruct (template (obj_get (config st3) "apiUrl")); cbn [widget];
      [now split|].
    unfold sendMessage_caught.
    now rewrite (proj1 (Hr _)), (proj2 (Hr _)). }
  destruct e as [| | |now t|newConfig|text|now|now o];
    [| | | | | |split; intros _; apply Hsend|];
    cbn [step widget];
    unfold open, close, minimize, reset, configure;
    (split; intros Hne);
    try (now elim (Hne now t)); try (now elim (Hne newConfig));
    try (now rewrite (proj1 (Hr _))); try (now rewrite (proj2 (Hr _)));
    try reflexivity.
  - destruct (outstanding r); [reflexivity|]. cbn [widget].
    unfold sendMessage_settle. now rewrite (proj1 (Hr _)).
  - destruct (outstanding r); [reflexivity|]. cbn [widget].
    unfold sendMessage_settle. now rewrite (proj2 (Hr _)).
Qed.

Lemma session_and_config_are_stable_witness :
  sessionId (widget (step {| widget := sample_loading; outstanding := 1 |}
                       (EvSettle 1700000000900 sample_text_reply)))
    = sessionId sample_loading.
Proof.
  apply (proj1 (session_and_config_are_stable
                  {| widget := sample_loading; outstanding := 1 |}
                  (EvSettle 1700000000900 sample_text_reply))).
  discriminate.
Defined.

End RunInvariants.

Section ContainerInSync.

Lemma with_input_value_twice (a b : string) (v : view) :
  with_input_value a (with_input_value b v) = with_input_value a v.
Proof. destruct v as [|title m [p|]]; reflexivity. Qed.

Lemma text_view_fresh (st : state) :
  with_input_value "" (text_view st) = text_view st.
Proof. unfold text_view. now destruct (isOpen st), (isMinimized st). Qed.

(** After a render of a state whose panel stands, the panel stands and
    the container shows the state. *)
Lemma after_render (st : state) :
  standing st ->
  standing (state_of (render st)) /\ synced (state_of (render st)).
Proof.
  intros (Hp & Hg & Hproto). rewrite (render_standing st Hp).
  cbn [state_of]. split.
  - exact (conj Hp (conj Hg Hproto)).
  - exists "". split; [reflexivity|]. cbn [dom set_dom]. symmetry.
    exact (text_view_fresh st).
Qed.

Lemma find_input_synced (st : state) (text : string) :
  dom st = with_input_value text (text_view st) ->
  find_input st = if isOpen st && negb (isMinimized st) then Some text else None.
Proof.
  intros Hd. unfold find_input. rewrite Hd. unfold text_view.
  destruct (isOpen st), (isMinimized st); cbn; rewrite ?String.eqb_refl;
    reflexivity.
Qed.

Lemma unfolded_is_Some (o m : bool) (text : string) :
  is_Some (if o && negb m then Some text else None) <-> o = true /\ m = false.
Proof.
  destruct o, m; cbn; split;
    try (intros [? H]; discriminate H); try (intros [H1 H2]; discriminate);
    eauto.
Qed.

Lemma tagless_trim (s : string) : tagless s = true -> tagless (Str.trim s) = true.
Proof.
  unfold tagless. intros H. apply negb_true_iff in H. apply negb_true_iff.
  now apply has_char_trim.
Qed.

Lemma tagless_normalize (s : string) :
  tagless s = true -> tagless (Str.normalize_newlines s) = true.
Proof.
  unfold tagless. intros H. apply negb_true_iff in H. apply negb_true_iff.
  now apply has_char_normalize.
Qed.

Lemma standing_push (m : message) (st : state) :
  markup_free m -> standing st -> standing (push m st).
Proof.
  intros Hm ((Hms & Hrest) & Hg). split; [split|exact Hg]; [|exact Hrest].
  cbn. apply Forall_app. split; [exact Hms|]. now repeat constructor.
Qed.

Lemma in_step (r : running) (e : event) :
  standing (widget r) -> synced (widget r) -> keeps_standing r e ->
  standing (widget (step r e)) /\ synced (widget (step r e)).
Proof.
  intros Hst Hsy He.
  destruct e as [| | |now t|newConfig|text|now|now o]; cbn [step widget].
  - apply after_render. exact Hst.
  - apply after_render. exact Hst.
  - apply after_render. exact Hst.
  - apply after_render.
    destruct Hst as ((Hms & Hp & Ht & Hh & Hs) & Hg & Hproto).
    split; [|exact (conj Hg Hproto)]. unfold panel_stands.
    cbn [messages config sessionId set_sessionId set_messages].
    split; [repeat constructor; exact Hg|].
    split; [exact Hp|]. split; [exact Ht|]. split; [exact Hh|].
    now apply new_session_id_wordlike.
  - unfold configure. apply after_render.
    destruct Hst as ((Hms & _ & _ & _ & Hs) & _).
    destruct He as (Hp & Ht & Hh & Hg & Hproto).
    split; [|exact (conj Hg Hproto)]. unfold panel_stands.
    cbn [messages config sessionId set_config set_config_proto].
    split; [exact Hms|].
    split; [exact Hp|]. split; [exact Ht|]. split; [exact Hh | exact Hs].
  - split; [exact Hst|]. destruct Hsy as (old & _ & Hd).
    exists (Str.normalize_newlines text). split; [now apply tagless_normalize|].
    cbn [dom type_text set_dom]. rewrite Hd. apply with_input_value_twice.
  - destruct Hsy as (typed & Htyped & Hd).
    unfold sendMessage_begin. rewrite (find_input_synced _ typed Hd).
    destruct (isOpen (widget r) && negb (isMinimized (widget r)));
      [|split; [exact Hst | now exists typed]].
    destruct (_ || _); [split; [exact Hst | now exists typed]|].
    match goal with |- context [render ?s] =>
      assert (Hs : standing s) end.
    { apply (standing_push
               {| role := user; content := VStr (Str.trim typed);
                  timestamp := now |} (widget r)); [|exact Hst].
      eexists. split; [reflexivity|]. now apply tagless_trim. }
    match goal with |- context [render ?s] =>
      destruct (after_render s Hs) as [Hst3 Hsy3];
      rewrite (render_standing s (proj1 Hs)) in *;
      cbn [state_of] in Hst3, Hsy3 end.
    match goal with |- context [template ?v] => destruct (template v) end;
      cbn [widget]; [split; assumption|].
    unfold sendMessage_caught. apply after_render.
    match goal with |- standing (set_isLoading false (push ?m ?s)) =>
      apply (standing_push m s) end; [|exact Hst3].
    eexists. split; [reflexivity|]. vm_compute. reflexivity.
  - destruct (outstanding r); [split; assumption|]. cbn [widget].
    unfold sendMessage_settle. apply after_render.
    destruct He as (s & Hs & Htag).
    match goal with |- standing (set_isLoading false (push ?m ?st)) =>
      apply (standing_push m st) end; [|exact Hst].
    exists s. split; [exact Hs | exact Htag].
Qed.

(** X12: as long as no text brings markup of its own, no render throws
    and the container follows the state.  The widget was loaded with a
    standing panel, and every event keeps it standing: then after every
    run the panel stands, the container shows what a render of the state
    shows (up to what the visitor typed since), and the textarea exists
    exactly when the widget is open and not minimized. *)
Theorem container_follows_the_state
    (h : host) (now : Z) (t : moment) (es : list event) :
  standing (init h now t) ->
  all_keep_standing {| widget := init h now t; outstanding := 0 |} es ->
  let st := widget (run h now t es) in
  panel_stands st /\
  (exists text, dom st = with_input_value text (text_view st)) /\
  (is_Some (find_input st) <-> isOpen st = true /\ isMinimized st = false).
Proof.
  intros Hinit Hes. cbv zeta.
  enough (H : standing (widget (run h now t es)) /\
              synced (widget (run h now t es))).
  { destruct H as [(Hp & _) (text & _ & Hd)]. split; [exact Hp|]. split.
    - now exists text.
    - rewrite (find_input_synced _ text Hd). apply unfolded_is_Some. }
  unfold run.
  assert (H0 : standing (widget {| widget := init h now t; outstanding := 0 |})
               /\ synced (widget {| widget := init h now t; outstanding := 0 |})).
  { split; [exact Hinit|]. exists "". split; reflexivity. }
  revert H0 Hes. generalize {| widget := init h now t; outstanding := 0 |} as r.
  induction es as [|e es IH]; intros r Hr Hes; [exact Hr|].
  destruct Hes as [He Hes]. destruct Hr as [Ht Hs]. cbn [List.fold_left].
  apply IH; [|exact Hes]. now apply in_step.
Qed.

Lemma container_follows_the_state_witness :
  standing sample_init /\
  all_keep_standing {| widget := sample_init; outstanding := 0 |} sample_events /\
  isMinimized
    (widget (run sample_host 1700000000000 sample_moment sample_events)) = true /\
  ~ is_Some (find_input
               (widget (run sample_host 1700000000000 sample_moment
                          sample_events))).
Proof.
  assert (Hg : standing sample_init).
  { split; [exact sample_init_stands|]. split; [|reflexivity].
    eexists. split; vm_compute; reflexivity. }
  assert (Hes : all_keep_standing {| widget := sample_init; outstanding := 0 |}
                  sample_events).
  { cbn. repeat split; try (vm_compute; reflexivity).
    eexists. split; vm_compute; reflexivity. }
  split; [exact Hg|]. split; [exact Hes|]. split; [vm_compute; reflexivity|].
  destruct (container_follows_the_state sample_host 1700000000000%Z
              sample_moment sample_events Hg Hes) as (_ & _ & Hiff).
  intros Hsome. apply Hiff in Hsome as [_ Hmin].
  vm_compute in Hmin. discriminate.
Defined.

End ContainerInSync.


(* ===================================================================== *)
(** * Further properties of the renderer *)
(* ===================================================================== *)

Section SpanRules.
Import Regex.

Lemma count_char_append (c : ascii) (u v : string) :
  count_char c (u ++ v) = (count_char c u + count_char c v)%nat.
Proof.
  induction u as [|x u IH]; [reflexivity|].
  cbn [append count_char]. rewrite IH. lia.
Qed.

Lemma count_char_absent (c : ascii) (s : string) :
  Str.has_char c s = false -> count_char c s = 0%nat.
Proof.
  induction s as [|x s IH]; [reflexivity|]. cbn [Str.has_char count_char].
  intros H. apply orb_false_iff in H as [-> H]. now rewrite IH.
Qed.

(** A match of literals splits the text. *)
Lemma rmatch_lits_inv (pat : string) (r : regex) (bol : bool) (s : string)
    (i : nat) (g : nat * nat) (res : nat * nat * nat) :
  rmatch (lits pat ++ r)%list bol s i g = Some res ->
  exists s1 bol',
    s = pat ++ s1 /\ rmatch r bol' s1 (i + String.length pat)%nat g = Some res.
Proof.
  revert bol s i. induction pat as [|a pat IH]; intros bol s i H.
  - exists s, bol. split; [reflexivity|]. cbn [String.length].
    now rewrite Nat.add_0_r.
  - cbn [lits app] in H.
    change (rmatch (Lit a :: lits pat ++ r)%list bol s i g)
      with (m_lit a (rmatch (lits pat ++ r)%list) bol s i g) in H.
    unfold m_lit in H. destruct s as [|x s]; [discriminate|].
    destruct (Ascii.eqb_spec a x) as [<-|]; [|discriminate].
    destruct (IH _ _ _ H) as (s1 & bol' & -> & Hr).
    exists s1, bol'. split; [reflexivity|].
    cbn [String.length]. now rewrite Nat.add_succ_r.
Qed.

(** A lazy repetition that succeeds stops where its continuation does. *)
Lemma m_star_lazy_inv (cl : cclass) (k : cont) (bol : bool) (s : string)
    (i : nat) (g : nat * nat) (res : nat * nat * nat) :
  m_star_lazy cl k bol s i g = Some res ->
  exists u v bol' j, s = u ++ v /\ k bol' v j g = Some res.
Proof.
  revert bol i. induction s as [|d s IH]; intros bol i; cbn [m_star_lazy].
  - destruct (k bol "" i g) eqn:Hk; [|discriminate].
    intros [= <-]. now exists "", "", bol, i.
  - destruct (k bol (String d s) i g) eqn:Hk.
    + intros [= <-]. now exists "", (String d s), bol, i.
    + destruct (in_class cl d); [|discriminate]. intros H.
      destruct (IH _ _ H) as (u & v & bol' & j & -> & Hv).
      now exists (String d u), v, bol', j.
Qed.

(** A span rule matches only where the delimiter stands twice. *)
Lemma span_match_shape (cl : cclass) (d : string) (bol : bool) (s : string)
    (res : nat * nat * nat) :
  rmatch (span_like cl d) bol s 0 (0, 0)%nat = Some res ->
  exists u w, s = d ++ u ++ d ++ w.
Proof.
  unfold span_like. intros H.
  apply rmatch_lits_inv in H as (s1 & bol1 & -> & H).
  change (rmatch ([GOpen; StarLazy cl; GClose] ++ lits d)%list bol1 s1
            (0 + String.length d)%nat (0, 0)%nat)
    with (m_star_lazy cl (rmatch (GClose :: lits d)) bol1 s1
            (0 + String.length d)%nat (0 + String.length d, 0)%nat) in H.
  apply m_star_lazy_inv in H as (u & v & bol2 & j & -> & H).
  change (rmatch (GClose :: lits d) bol2 v j (0 + String.length d, 0)%nat)
    with (rmatch (lits d) bol2 v j (0 + String.length d, j)%nat) in H.
  rewrite <- (app_nil_r (lits d)) in H.
  apply rmatch_lits_inv in H as (w & _ & -> & _).
  now exists u, w.
Qed.

(** A text that holds the delimiter's character less often than two
    delimiters do is left alone. *)
Lemma span_idle_by_count (cl : cclass) (c : ascii) (d before after s : string) :
  (count_char c s < 2 * count_char c d)%nat ->
  replace_all (span_like cl d) before after s = s.
Proof.
  intros Hcount. unfold replace_all.
  assert (Hnone : forall bol s',
            (count_char c s' < 2 * count_char c d)%nat ->
            rmatch (span_like cl d) bol s' 0 (0, 0)%nat = None).
  { intros bol s' Hs'.
    destruct (rmatch (span_like cl d) bol s' 0 (0, 0)%nat) eqn:Hm;
      [|reflexivity].
    apply span_match_shape in Hm as (u & w & ->).
    rewrite !count_char_append in Hs'. lia. }
  generalize true at 2 as bol. revert Hcount.
  induction s as [|x s IH]; intros Hcount bol.
  - cbn [scan]. now rewrite Hnone.
  - rewrite scan_cons_none by now apply Hnone.
    rewrite IH; [reflexivity|]. cbn [count_char] in Hcount. lia.
Qed.

End SpanRules.

Section SpanMatches.
Import Regex.

Lemma unanchored_lits (d : string) : unanchored (lits d) = true.
Proof. induction d as [|a d IH]; [reflexivity | exact IH]. Qed.

Lemma unanchored_span (cl : cclass) (d : string) :
  unanchored (span_like cl d) = true.
Proof.
  unfold span_like, unanchored. rewrite !forallb_app.
  fold (unanchored (lits d)). now rewrite unanchored_lits.
Qed.

(** Skipping the characters of a match. *)
Lemma scan_skip (p : regex) (global : bool) (before after u v : string)
    (b1 b2 : bool) :
  unanchored p = true ->
  scan global p before after b1 (String.length u) (u ++ v)
    = scan global p before after b2 0 v.
Proof.
  intros Hp. revert b1. induction u as [|x u IH]; intros b1.
  - now apply scan_unanchored.
  - cbn [String.length append scan]. apply IH.
Qed.

(** The closing delimiter is not found before a character other than
    its first. *)
Lemma closing_fails (c : ascii) (d' : string) (bol : bool) (y : ascii)
    (rest : string) (i : nat) (g : nat * nat) :
  Ascii.eqb c y = false ->
  rmatch (GClose :: lits (String c d')) bol (String y rest) i g = None.
Proof.
  intros H.
  change (rmatch (GClose :: lits (String c d')) bol (String y rest) i g)
    with (m_lit c (rmatch (lits d')) bol (String y rest) i (fst g, i)).
  unfold m_lit. now rewrite H.
Qed.

Lemma closing_ok (d rest : string) (bol : bool) (i : nat) (g : nat * nat) :
  rmatch (GClose :: lits d) bol (d ++ rest) i g
    = Some ((fst g, i), i + String.length d)%nat.
Proof.
  change (rmatch (GClose :: lits d) bol (d ++ rest) i g)
    with (rmatch (lits d) bol (d ++ rest) i (fst g, i)).
  rewrite <- (app_nil_r (lits d)).
  now destruct (rmatch_lits_ok d [] bol rest i (fst g, i)) as [b' ->].
Qed.

(** The lazy content stops at the first closing delimiter. *)
Lemma lazy_reaches (cl : cclass) (c : ascii) (d' x rest : string) (bol : bool)
    (i : nat) (g : nat * nat) :
  Str.has_char c x = false -> within cl x = true ->
  m_star_lazy cl (rmatch (GClose :: lits (String c d'))) bol
    (x ++ String c d' ++ rest) i g
  = Some ((fst g, i + String.length x), 
          i + String.length x + String.length (String c d'))%nat.
Proof.
  revert bol i. induction x as [|y x IH]; intros bol i Hc Hcl.
  - cbn [String.length]. rewrite Nat.add_0_r.
    pose proof (closing_ok (String c d') rest bol i g) as Hk.
    change ("" ++ String c d' ++ rest) with (String c (d' ++ rest)).
    change (String c d' ++ rest) with (String c (d' ++ rest)) in Hk.
    cbn [m_star_lazy]. now rewrite Hk.
  - cbn [Str.has_char] in Hc. apply orb_false_iff in Hc as [Hy Hc].
    cbn [within] in Hcl. apply andb_true_iff in Hcl as [Hin Hcl].
    cbn [append].
    change (String.length (String y x)) with (S (String.length x)).
    rewrite Nat.add_succ_r.
    change (S (i + String.length x))%nat with (S i + String.length x)%nat.
    rewrite <- (IH (Str.is_line_terminator y) (S i) Hc Hcl).
    cbn [m_star_lazy]. rewrite closing_fails by exact Hy. now rewrite Hin.
Qed.

(** Where a delimited span begins, the rule matches it whole. *)
Lemma span_rmatch (cl : cclass) (c : ascii) (d' x rest : string) (bol : bool) :
  Str.has_char c x = false -> within cl x = true ->
  let d := String c d' in
  rmatch (span_like cl d) bol (d ++ x ++ d ++ rest) 0 (0, 0)%nat
    = Some ((String.length d, String.length d + String.length x),
            String.length d + String.length x + String.length d)%nat.
Proof.
  intros Hc Hcl d. unfold span_like.
  destruct (rmatch_lits_ok d ([GOpen; StarLazy cl; GClose] ++ lits d)%list
              bol (x ++ d ++ rest) 0 (0, 0)%nat) as [b1 ->].
  change (rmatch ([GOpen; StarLazy cl; GClose] ++ lits d)%list b1
            (x ++ d ++ rest) (0 + String.length d)%nat (0, 0)%nat)
    with (m_star_lazy cl (rmatch (GClose :: lits d)) b1 (x ++ d ++ rest)
            (0 + String.length d)%nat (0 + String.length d, 0)%nat).
  exact (lazy_reaches cl c d' x rest b1 (0 + String.length d)
           (0 + String.length d, 0)%nat Hc Hcl).
Qed.

(** A delimited span is replaced where it stands first; the rule goes on
    behind it. *)
Lemma span_replaced (cl : cclass) (c : ascii) (d' before after a x b : string) :
  Str.has_char c a = false -> Str.has_char c x = false ->
  within cl x = true ->
  let d := String c d' in
  replace_all (span_like cl d) before after (a ++ d ++ x ++ d ++ b)
    = a ++ before ++ x ++ after ++ replace_all (span_like cl d) before after b.
Proof.
  intros Ha Hx Hcl d.
  pose proof (unanchored_span cl d) as Hun.
  change (span_like cl d)
    with (Lit c :: (lits d' ++ [GOpen; StarLazy cl; GClose] ++ lits d))%list
    in Hun |- *.
  rewrite copy_foreign by assumption. f_equal.
  change (Lit c :: (lits d' ++ [GOpen; StarLazy cl; GClose] ++ lits d))%list
    with (span_like cl d) in Hun |- *.
  unfold replace_all.
  pose proof (span_rmatch cl c d' x b true Hx Hcl) as Hm. cbv zeta in Hm.
  fold d in Hm.
  change (d ++ x ++ d ++ b) with (String c (d' ++ x ++ d ++ b)) in Hm |- *.
  cbn [scan]. rewrite Hm.
  change (String.length d) with (S (String.length d')).
  cbn [Nat.add]. unfold expand. cbn [fst snd].
  replace (S (String.length d' + String.length x) - S (String.length d'))%nat
    with (String.length x) by lia.
  change (S (String.length d')) with (String.length d) at 1.
  change (String c (d' ++ x ++ d ++ b)) with (d ++ x ++ d ++ b).
  rewrite substring_append.
  rewrite !append_assoc. do 2 f_equal.
  replace (String.length d' + String.length x + S (String.length d'))%nat
    with (String.length (d' ++ x ++ d)).
  2:{ rewrite !length_append. unfold d. cbn [String.length]. lia. }
  rewrite <- (append_assoc x d b), <- (append_assoc d' (x ++ d) b).
  f_equal. now apply scan_skip.
Qed.

End SpanMatches.

Section Blocks.
Import Regex.

(** *** Tags *)

Lemma tagless_append (u v : string) :
  tagless (u ++ v) = tagless u && tagless v.
Proof. unfold tagless. now rewrite has_char_append, negb_orb. Qed.

Lemma includes_past_text (r u v : string) :
  tagless u = true ->
  Str.includes (String "<" r) (u ++ v) = Str.includes (String "<" r) v.
Proof.
  induction u as [|c u IH]; [reflexivity|]. unfold tagless.
  cbn [Str.has_char]. intros H. apply negb_true_iff, orb_false_iff in H as [Hc Hu].
  cbn [append Str.includes]. rewrite prefix_cons, Hc. cbn [andb orb].
  apply IH. unfold tagless. now rewrite Hu.
Qed.

Lemma includes_tagless (r s : string) :
  tagless s = true -> Str.includes (String "<" r) s = false.
Proof.
  intros H. rewrite <- (append_empty_r s). now rewrite includes_past_text.
Qed.

Lemma prefix_diverge (p q rest : string) :
  diverge p q = true -> String.prefix p (q ++ rest) = false.
Proof.
  revert q. induction p as [|a p IH]; intros q; unfold diverge.
  - now destruct q.
  - destruct q as [|b q]; [easy|]. rewrite !prefix_cons. cbn [append].
    rewrite prefix_cons. destruct (Ascii.eqb_spec a b) as [->|Hab].
    + rewrite Ascii.eqb_refl. cbn [andb]. apply IH.
    + reflexivity.
Qed.

Lemma includes_past_tag (r o rest : string) :
  diverge (String "<" r) (String "<" o) = true ->
  Str.includes (String "<" r) (String "<" o ++ rest)
    = Str.includes (String "<" r) (o ++ rest).
Proof.
  intros H. cbn [append Str.includes].
  change (String "<" (o ++ rest)) with (String "<" o ++ rest).
  now rewrite prefix_diverge.
Qed.

(** The list wrapper leaves a text without list item alone. *)
Lemma wrap_lists_idle (s : string) :
  Str.includes "<li>" s = false -> Markdown.wrap_lists s = s.
Proof.
  unfold Markdown.wrap_lists, replace_first.
  enough (Hall : forall bol,
            Str.includes "<li>" s = false ->
            scan false Markdown.re_list_span "<ul>" "</ul>" bol 0 s = s)
    by apply Hall.
  induction s as [|c s IH]; intros bol H.
  - cbn [scan]. now rewrite re_list_span_none.
  - destruct (includes_cons _ _ _ H) as [Hp Hs].
    rewrite scan_cons_none by now apply re_list_span_none.
    now rewrite IH.
Qed.

(** *** Lines *)

Lemma has_char_drop (a : ascii) (n : nat) (s : string) :
  Str.has_char a s = false -> Str.has_char a (Str.drop n s) = false.
Proof.
  revert n. induction s as [|c s IH]; intros [|n] H; try exact H.
  cbn [Str.drop]. apply IH. cbn [Str.has_char] in H.
  now apply orb_false_iff in H as [_ ?].
Qed.

Lemma line_rule_single_line (before after marker l : string) :
  Str.single_line before = true -> Str.single_line after = true ->
  Str.single_line l = true ->
  Str.single_line (line_rule before after (strip marker) l) = true.
Proof.
  intros Hb Ha Hl. unfold line_rule.
  destruct (strip marker l) as [b|] eqn:Hs; [|exact Hl].
  rewrite !single_line_append, Hb, Ha.
  now rewrite (strip_single_line marker l b Hl Hs).
Qed.

Lemma line_rule_has_char (a : ascii) (before after marker l : string) :
  Str.has_char a before = false -> Str.has_char a after = false ->
  Str.has_char a l = false ->
  Str.has_char a (line_rule before after (strip marker) l) = false.
Proof.
  intros Hb Ha Hl. unfold line_rule, strip.
  destruct (String.prefix marker l); [|exact Hl].
  now rewrite !has_char_append, Hb, Ha, has_char_drop.
Qed.

Lemma line_rule_nonempty (before after : string) (body : string -> option string)
    (l : string) :
  before <> "" -> l <> "" -> line_rule before after body l <> "".
Proof.
  intros Hb Hl. unfold line_rule. destruct (body l); [|exact Hl].
  destruct before; [easy | discriminate].
Qed.

Lemma header_line_single_line (l : string) :
  Str.single_line l = true -> Str.single_line (header_line l) = true.
Proof.
  intros H. unfold header_line.
  repeat (apply line_rule_single_line; try reflexivity). exact H.
Qed.

Lemma header_line_has_char (a : ascii) (l : string) :
  Str.has_char a "<h123>/" = false -> Str.has_char a l = false ->
  Str.has_char a (header_line l) = false.
Proof.
  intros Ha H. unfold header_line. cbn [Str.has_char] in Ha.
  repeat (apply orb_false_iff in Ha as [? Ha]).
  repeat (apply line_rule_has_char; try exact H);
    cbn [Str.has_char]; repeat (apply orb_false_iff; split); auto.
Qed.

Lemma header_line_nonempty (l : string) : l <> "" -> header_line l <> "".
Proof.
  intros H. unfold header_line.
  repeat (apply line_rule_nonempty; try discriminate). exact H.
Qed.

Lemma list_line_single_line (l : string) :
  Str.single_line l = true -> Str.single_line (list_line l) = true.
Proof.
  intros H. unfold list_line. destruct (item_body l) as [b|] eqn:Hb; [|exact H].
  apply li_single_line. apply item_body_spec in Hb as (m & _ & ->).
  rewrite single_line_append in H. now apply andb_true_iff in H as [_ ?].
Qed.

Lemma list_line_nonempty (l : string) : l <> "" -> list_line l <> "".
Proof. intros H. unfold list_line. now destruct (item_body l). Qed.

Lemma block_line_facts (l : string) :
  Str.single_line l = true /\ l <> "" ->
  Str.single_line (block_line l) = true /\ block_line l <> "".
Proof.
  intros [Hl Hne]. unfold block_line. split.
  - now apply list_line_single_line, header_line_single_line.
  - now apply list_line_nonempty, header_line_nonempty.
Qed.

Lemma headers_on_lines (ls : list string) :
  Forall (fun l => Str.single_line l = true) ls -> ls <> [] ->
  Markdown.headers (unlines ls) = unlines (List.map header_line ls).
Proof.
  intros Hls Hne. unfold Markdown.headers.
  assert (Hrule : forall marker before after,
            marker <> "" -> Str.single_line marker = true ->
            forall l, Str.single_line l = true ->
              replace_all (Markdown.re_line marker) before after l
                = line_rule before after (strip marker) l /\
              forall c rest, Str.is_line_terminator c = true ->
                replace_all (Markdown.re_line marker) before after
                  (l ++ String c rest)
                = line_rule before after (strip marker) l
                  ++ String c (replace_all (Markdown.re_line marker)
                                 before after rest)).
  { intros marker before after Hm Hs l Hl.
    destruct (re_line_rule marker before after l Hm Hs Hl) as [Hline Hlast].
    split; assumption. }
  rewrite (rule_on_lines _ _ (Hrule "### " "<h3>" "</h3>" ltac:(discriminate) eq_refl)
             ls Hls Hne).
  rewrite (rule_on_lines _ _ (Hrule "## " "<h2>" "</h2>" ltac:(discriminate) eq_refl)).
  2:{ apply Forall_map. eapply Forall_impl; [exact Hls|]. intros l Hl. simpl.
      now apply line_rule_single_line. }
  2:{ now destruct ls. }
  rewrite (rule_on_lines _ _ (Hrule "# " "<h1>" "</h1>" ltac:(discriminate) eq_refl)).
  2:{ apply Forall_map, Forall_map. eapply Forall_impl; [exact Hls|].
      intros l Hl. simpl. now repeat apply line_rule_single_line. }
  2:{ now destruct ls. }
  now rewrite !List.map_map.
Qed.

(** *** Paragraphs *)

Lemma unlines_head (c : ascii) (l : string) (ls : list string) :
  exists X, unlines (String c l :: ls) = String c X.
Proof. destruct ls; [now exists l|]. rewrite unlines_cons. now eexists. Qed.

Lemma unlines_app (p q : list string) :
  p <> [] -> q <> [] ->
  unlines (p ++ q) = unlines p ++ String Str.LF (unlines q).
Proof.
  intros Hp Hq. induction p as [|l p IH]; [easy|].
  destruct p as [|l' p].
  - destruct q as [|l' q]; [easy|]. cbn [app]. now rewrite unlines_cons.
  - cbn [app] in *. rewrite !unlines_cons, IH by discriminate.
    now rewrite append_assoc.
Qed.

Lemma lines_of_nonempty (ps : list (list string)) :
  ps <> [] -> Forall (fun p => p <> []) ps -> lines_of ps <> [].
Proof.
  intros Hne Hps. destruct Hps as [|p ps Hp Hps]; [easy|].
  destruct ps; cbn [lines_of]; [exact Hp|]. now destruct p.
Qed.

Lemma paragraphs_lines (ps : list (list string)) :
  Forall (fun p => p <> []) ps -> paragraphs ps = unlines (lines_of ps).
Proof.
  induction 1 as [|p ps Hp Hps IH]; [reflexivity|].
  destruct ps as [|q ps]; [reflexivity|].
  change (paragraphs (p :: q :: ps))
    with (unlines p ++ String Str.LF (String Str.LF (paragraphs (q :: ps)))).
  change (lines_of (p :: q :: ps)) with (p ++ "" :: lines_of (q :: ps))%list.
  rewrite unlines_app by easy. rewrite IH.
  assert (Hq : lines_of (q :: ps) <> []) by now apply lines_of_nonempty.
  destruct (lines_of (q :: ps)) as [|l ls]; [easy|].
  now rewrite unlines_cons.
Qed.

Lemma lines_of_map (f : string -> string) (ps : list (list string)) :
  f "" = "" ->
  List.map f (lines_of ps) = lines_of (List.map (List.map f) ps).
Proof.
  intros Hf. induction ps as [|p ps IH]; [reflexivity|].
  destruct ps as [|q ps]; [reflexivity|].
  change (lines_of (p :: q :: ps)) with (p ++ "" :: lines_of (q :: ps))%list.
  rewrite List.map_app. cbn [List.map] in *. rewrite Hf, IH. reflexivity.
Qed.

Lemma lines_of_forall (P : string -> Prop) (ps : list (list string)) :
  P "" -> Forall (Forall P) ps -> Forall P (lines_of ps).
Proof.
  intros H0. induction 1 as [|p ps Hp Hps IH]; [constructor|].
  destruct ps as [|q ps]; [exact Hp|].
  change (lines_of (p :: q :: ps)) with (p ++ "" :: lines_of (q :: ps))%list.
  apply Forall_app. split; [exact Hp|]. now constructor.
Qed.

(** [/\n\n/g] finds the empty line that ends a paragraph. *)
Lemma blank_line_found (p : list string) (rest : string) :
  p <> [] -> Forall (fun l => Str.single_line l = true /\ l <> "") p ->
  replace_all Markdown.re_blank_line "</p><p>" ""
    (unlines p ++ String Str.LF (String Str.LF rest))
  = unlines p ++ "</p><p>"
    ++ replace_all Markdown.re_blank_line "</p><p>" "" rest.
Proof.
  intros Hne Hp. induction Hp as [|l p [Hl Hnl] Hp IH]; [easy|]. clear Hne.
  destruct p as [|l' p].
  - change (unlines [l]) with l. unfold Markdown.re_blank_line.
    rewrite copy_foreign; [|reflexivity | now apply single_line_no_LF].
    reflexivity.
  - rewrite unlines_cons, append_assoc. cbn [append].
    unfold Markdown.re_blank_line.
    rewrite copy_foreign; [|reflexivity | now apply single_line_no_LF].
    rewrite append_assoc. f_equal. cbn [append]. 
    inversion Hp as [|? ? [Hl' Hne'] _]; subst.
    destruct l' as [|c' l'']; [easy|].
    destruct (unlines_head c' l'' p) as [X HX]. rewrite HX in *.
    cbn [Str.single_line] in Hl'. apply andb_true_iff in Hl' as [Hc' _].
    apply negb_true_iff in Hc'. unfold Str.is_line_terminator in Hc'.
    apply orb_false_iff in Hc' as [Hc' _].
    unfold replace_all in *. cbn [append]. rewrite scan_cons_none.
    + rewrite (scan_unanchored [Lit Str.LF; Lit Str.LF] _ _ _ eq_refl _ _ true).
      f_equal. apply IH. discriminate.
    + cbn [rmatch]. unfold m_lit. rewrite Ascii.eqb_refl, Ascii.eqb_sym, Hc'.
      reflexivity.
Qed.

Lemma blank_lines_paragraphs (ps : list (list string)) :
  Forall (fun p => p <> [] /\
            Forall (fun l => Str.single_line l = true /\ l <> "") p) ps ->
  replace_all Markdown.re_blank_line "</p><p>" "" (paragraphs ps)
    = Str.join "</p><p>" (List.map unlines ps).
Proof.
  induction 1 as [|p ps [Hne Hp] Hps IH]; [reflexivity|].
  destruct ps as [|q ps].
  - now apply blank_lines_absent.
  - change (paragraphs (p :: q :: ps))
      with (unlines p ++ String Str.LF (String Str.LF (paragraphs (q :: ps)))).
    rewrite blank_line_found by assumption. now rewrite IH.
Qed.

Lemma newline_rule_append (u v : string) :
  replace_all Markdown.re_newline "<br>" "" (u ++ v)
    = replace_all Markdown.re_newline "<br>" "" u
      ++ replace_all Markdown.re_newline "<br>" "" v.
Proof.
  induction u as [|c u IH]; [reflexivity|]. cbn [append].
  destruct (Ascii.eqb_spec Str.LF c) as [<-|Hc].
  - now rewrite !newline_step, IH, append_assoc.
  - apply Ascii.eqb_neq in Hc.
    change Markdown.re_newline with [Lit Str.LF] in *.
    change (String c (u ++ v)) with (String c "" ++ u ++ v).
    change (String c u) with (String c "" ++ u).
    rewrite (copy_foreign Str.LF [] "<br>" "" (String c "") (u ++ v)),
      (copy_foreign Str.LF [] "<br>" "" (String c "") u);
      try reflexivity; try (cbn [Str.has_char]; now rewrite Hc).
    now rewrite IH.
Qed.

Lemma newlines_paragraphs (ps : list (list string)) :
  Forall (Forall (fun l => Str.single_line l = true)) ps ->
  replace_all Markdown.re_newline "<br>" ""
    (Str.join "</p><p>" (List.map unlines ps))
  = Str.join "</p><p>" (List.map (Str.join "<br>") ps).
Proof.
  induction 1 as [|p ps Hp Hps IH]; [reflexivity|].
  destruct ps as [|q ps]; [now apply newlines_to_br|].
  change (Str.join "</p><p>" (List.map unlines (p :: q :: ps)))
    with (unlines p ++ "</p><p>"
          ++ Str.join "</p><p>" (List.map unlines (q :: ps))).
  rewrite !newline_rule_append, IH, newlines_to_br by assumption.
  reflexivity.
Qed.

Lemma line_breaks_paragraphs (ps : list (list string)) :
  Forall (fun p => p <> [] /\
            Forall (fun l => Str.single_line l = true /\ l <> "") p) ps ->
  Markdown.line_breaks (paragraphs ps)
    = Str.join "</p><p>" (List.map (Str.join "<br>") ps).
Proof.
  intros Hps. unfold Markdown.line_breaks.
  rewrite blank_lines_paragraphs by assumption.
  apply newlines_paragraphs.
  eapply Forall_impl; [exact Hps|]. intros p [_ Hp]. simpl.
  eapply Forall_impl; [exact Hp|]. now intros l [? _].
Qed.

End Blocks.

Section Rendering.
Import Regex.

(** *** Looking for a tag *)

Lemma passes_text (r u : string) : tagless u = true -> passes (String "<" r) u.
Proof. intros H v. now apply includes_past_text. Qed.

Lemma passes_append (pat u v : string) :
  passes pat u -> passes pat v -> passes pat (u ++ v).
Proof. intros Hu Hv w. now rewrite append_assoc, Hu, Hv. Qed.

Lemma passes_tag (r o : string) :
  diverge (String "<" r) (String "<" o) = true -> tagless o = true ->
  passes (String "<" r) (String "<" o).
Proof.
  intros Hd Ho v. rewrite includes_past_tag by exact Hd.
  now apply includes_past_text.
Qed.

Lemma passes_empty (pat : string) : passes pat "".
Proof. now intros v. Qed.

Lemma passes_join (pat sep : string) (ls : list string) :
  passes pat sep -> Forall (passes pat) ls -> passes pat (Str.join sep ls).
Proof.
  intros Hsep. induction 1 as [|l ls Hl Hls IH]; [apply passes_empty|].
  destruct ls as [|l' ls]; [exact Hl|].
  change (Str.join sep (l :: l' :: ls)) with (l ++ sep ++ Str.join sep (l' :: ls)).
  now repeat apply passes_append.
Qed.

Lemma passes_absent (a : ascii) (r u : string) :
  passes (String a r) u -> Str.includes (String a r) u = false.
Proof. intros H. rewrite <- (append_empty_r u). now rewrite H. Qed.

Lemma passes_element (r tag x : string) :
  diverge (String "<" r) ("<" ++ tag ++ ">") = true ->
  diverge (String "<" r) ("</" ++ tag ++ ">") = true ->
  tagless tag = true -> passes (String "<" r) x ->
  passes (String "<" r) (element tag x).
Proof.
  intros Hopen Hclose Htag Hx.
  assert (Hshape : element tag x
            = String "<" (tag ++ ">") ++ x ++ String "<" ("/" ++ tag ++ ">")).
  { unfold element. cbn [append]. now rewrite append_assoc. }
  rewrite Hshape. repeat apply passes_append.
  - apply passes_tag; [exact Hopen|]. now rewrite tagless_append, Htag.
  - exact Hx.
  - apply passes_tag; [exact Hclose|].
    change ("/" ++ tag ++ ">") with (String "/" (tag ++ ">")).
    unfold tagless in *. cbn [Str.has_char]. rewrite has_char_append.
    apply negb_true_iff in Htag. now rewrite Htag.
Qed.

(** *** Lines that are running text *)

Lemma prose_parts (l : string) :
  prose l = true -> plain l = true /\ tagless l = true.
Proof. unfold prose. intros H. now apply andb_true_iff in H. Qed.

Lemma block_line_idle (l : string) : starts_block l = false -> block_line l = l.
Proof.
  unfold starts_block. intros H.
  apply orb_false_iff in H as [H Hitem]. apply orb_false_iff in H as [H H3].
  apply orb_false_iff in H as [H1 H2].
  unfold block_line, header_line, line_rule, strip. rewrite H3, H2, H1.
  unfold list_line. now destruct (item_body l).
Qed.

(** *** The renderer on paragraphs of lines without inline markers *)

Lemma render_paragraphs (ps : list (list string)) :
  ps <> [] ->
  Forall (fun p => p <> [] /\ Forall (fun l => plain l = true /\ l <> "") p) ps ->
  Markdown.parseMarkdown (paragraphs ps)
    = finish (Markdown.wrap_lists
                (Str.join "</p><p>"
                   (List.map (fun p => Str.join "<br>" (List.map block_line p))
                      ps))).
Proof.
  intros Hne Hps.
  assert (Hfull : Forall (fun p => p <> []) ps).
  { eapply Forall_impl; [exact Hps|]. now intros p [? _]. }
  assert (Hparts : Forall (Forall (fun l =>
            Str.single_line l = true /\ Str.has_char "*" l = false /\
            Str.has_char "_" l = false /\ Str.has_char "`" l = false)) ps).
  { eapply Forall_impl; [exact Hps|]. intros p [_ Hp]. simpl.
    eapply Forall_impl; [exact Hp|]. intros l [Hl _]. now apply plain_parts. }
  pose proof (lines_of_forall _ ps (conj eq_refl (conj eq_refl (conj eq_refl eq_refl)))
                Hparts) as Hlines.
  assert (Hsl : Forall (fun l => Str.single_line l = true) (lines_of ps)).
  { eapply Forall_impl; [exact Hlines|]. now intros l [? _]. }
  pose proof (lines_of_nonempty ps Hne Hfull) as Hsome.
  assert (Htext : paragraphs ps <> "").
  { rewrite paragraphs_lines by exact Hfull.
    destruct ps as [|p ps]; [easy|].
    inversion Hps as [|? ? [Hp Hpl] _]; subst.
    destruct p as [|l p]; [easy|].
    inversion Hpl as [|? ? [_ Hl] _]; subst.
    destruct l as [|c l]; [easy|].
    assert (Hhead : exists ls, lines_of ((String c l :: p) :: ps)
                               = String c l :: ls).
    { destruct ps; cbn [lines_of app]; eauto. }
    destruct Hhead as [ls ->]. destruct (unlines_head c l ls) as [X ->].
    discriminate. }
  rewrite (parseMarkdown_nonempty _ Htext). cbv zeta. unfold finish.
  assert (Hinner :
    Markdown.line_breaks
      (Markdown.list_items
         (Markdown.code (Markdown.italic (Markdown.bold
            (Markdown.headers (paragraphs ps))))))
    = Str.join "</p><p>"
        (List.map (fun p => Str.join "<br>" (List.map block_line p)) ps)).
  { rewrite (paragraphs_lines ps Hfull), (headers_on_lines _ Hsl Hsome).
    rewrite inline_rules_idle.
    2-4: apply has_char_unlines; [reflexivity|]; apply Forall_map;
      (eapply Forall_impl; [exact Hlines|]); intros l (_ & ? & ? & ?); simpl;
      now apply header_line_has_char.
    rewrite list_items_on_lines.
    2:{ apply Forall_map. eapply Forall_impl; [exact Hsl|]. intros l Hl.
        simpl. now apply header_line_single_line. }
    2:{ now destruct (lines_of ps). }
    rewrite List.map_map.
    change (fun x => list_line (header_line x)) with block_line.
    rewrite (lines_of_map block_line ps eq_refl).
    rewrite <- paragraphs_lines.
    2:{ apply Forall_map. eapply Forall_impl; [exact Hfull|]. intros p Hp.
        simpl. now destruct p. }
    rewrite line_breaks_paragraphs.
    - now rewrite List.map_map.
    - apply Forall_map. eapply Forall_impl; [exact Hps|]. intros p [Hp Hpl].
      simpl. split; [now destruct p|].
      apply Forall_map. eapply Forall_impl; [exact Hpl|]. intros l [Hl Hnl].
      simpl. apply block_line_facts. split; [|exact Hnl].
      now apply plain_parts in Hl as [? _]. }
  now rewrite Hinner.
Qed.

End Rendering.

Ltac pass_tags :=
  repeat first
    [ apply passes_element; [reflexivity | reflexivity | reflexivity | ]
    | apply passes_tag; [first [assumption | reflexivity] | reflexivity]
    | apply passes_text; first [assumption | reflexivity]
    | apply passes_append ].

Section Texts.
Import Regex.

Lemma prefix_empty (s : string) : String.prefix "" s = true.
Proof. now destruct s. Qed.

Lemma plain_append (u v : string) :
  plain u = true -> plain v = true -> plain (u ++ v) = true.
Proof.
  intros Hu Hv.
  destruct (plain_parts u Hu) as (U1 & U2 & U3 & U4).
  destruct (plain_parts v Hv) as (V1 & V2 & V3 & V4).
  unfold plain.
  now rewrite single_line_append, !has_char_append, U1, U2, U3, U4, V1, V2, V3, V4.
Qed.

Lemma item_body_other (c : ascii) (s : string) :
  Str.has_char c "*-+" = false -> Str.is_digit c = false ->
  item_body (String c s) = None.
Proof.
  cbn [Str.has_char]. intros H Hd.
  apply orb_false_iff in H as [H1 H]. apply orb_false_iff in H as [H2 H].
  apply orb_false_iff in H as [H3 _].
  rewrite Ascii.eqb_sym in H1, H2, H3.
  unfold item_body, strip. rewrite !prefix_cons, H1, H2, H3. cbn [andb].
  cbn [numbered_body]. now rewrite Hd.
Qed.

Lemma header_line_other (c : ascii) (s : string) :
  Ascii.eqb "#" c = false -> header_line (String c s) = String c s.
Proof.
  intros H.
  assert (Hs : forall m, strip (String "#" m) (String c s) = None)
    by (intros m; exact (strip_foreign_head "#" c m "" s H)).
  unfold header_line, line_rule.
  now rewrite (Hs "## "), (Hs "# "), (Hs " ").
Qed.

Lemma line_rule_some (before after : string) (body : string -> option string)
    (l b : string) :
  body l = Some b -> line_rule before after body l = before ++ b ++ after.
Proof. intros H. unfold line_rule. now rewrite H. Qed.

Lemma line_rule_none (before after : string) (body : string -> option string)
    (l : string) :
  body l = None -> line_rule before after body l = l.
Proof. intros H. unfold line_rule. now rewrite H. Qed.

(** The block rules leave an element alone. *)
Lemma strip_element (m tag x : string) :
  strip (String "#" m) (element tag x) = None.
Proof.
  exact (strip_foreign_head "#" "<" m ""
           (tag ++ ">" ++ x ++ "</" ++ tag ++ ">") eq_refl).
Qed.

Lemma list_line_element (tag x : string) :
  list_line (element tag x) = element tag x.
Proof.
  unfold list_line.
  change (element tag x) with (String "<" (tag ++ ">" ++ x ++ "</" ++ tag ++ ">")).
  now rewrite item_body_other.
Qed.

Lemma header_line_h1 (x : string) : block_line ("# " ++ x) = element "h1" x.
Proof.
  unfold block_line, header_line.
  assert (H3 : strip "### " ("# " ++ x) = None).
  { unfold strip. cbn [append]. now rewrite !prefix_cons. }
  assert (H2 : strip "## " ("# " ++ x) = None).
  { unfold strip. cbn [append]. now rewrite !prefix_cons. }
  rewrite (line_rule_none "<h3>" "</h3>" _ _ H3).
  rewrite (line_rule_none "<h2>" "</h2>" _ _ H2).
  rewrite (line_rule_some "<h1>" "</h1>" _ _ x (strip_here _ _)).
  exact (list_line_element "h1" x).
Qed.

Lemma header_line_h2 (x : string) : block_line ("## " ++ x) = element "h2" x.
Proof.
  unfold block_line, header_line.
  assert (H3 : strip "### " ("## " ++ x) = None).
  { unfold strip. cbn [append]. now rewrite !prefix_cons. }
  rewrite (line_rule_none "<h3>" "</h3>" _ _ H3).
  rewrite (line_rule_some "<h2>" "</h2>" _ _ x (strip_here _ _)).
  change ("<h2>" ++ x ++ "</h2>") with (element "h2" x).
  rewrite (line_rule_none "<h1>" "</h1>" _ _ (strip_element " " "h2" x)).
  exact (list_line_element "h2" x).
Qed.

Lemma header_line_h3 (x : string) : block_line ("### " ++ x) = element "h3" x.
Proof.
  unfold block_line, header_line.
  rewrite (line_rule_some "<h3>" "</h3>" _ _ x (strip_here _ _)).
  change ("<h3>" ++ x ++ "</h3>") with (element "h3" x).
  rewrite (line_rule_none "<h2>" "</h2>" _ _ (strip_element "# " "h3" x)).
  rewrite (line_rule_none "<h1>" "</h1>" _ _ (strip_element " " "h3" x)).
  exact (list_line_element "h3" x).
Qed.

Lemma text_lines_idle (ls : list string) :
  Forall text_line ls -> List.map block_line ls = ls.
Proof.
  intros H. apply map_fixed. eapply Forall_impl; [exact H|].
  intros l (_ & _ & Hl). now apply block_line_idle.
Qed.

Lemma text_lines_plain (ls : list string) :
  Forall text_line ls -> Forall (fun l => plain l = true /\ l <> "") ls.
Proof.
  intros H. eapply Forall_impl; [exact H|]. intros l (Hl & Hne & _).
  now apply prose_parts in Hl as [? _].
Qed.

Lemma text_lines_pass (r : string) (ls : list string) :
  Forall text_line ls -> Forall (passes (String "<" r)) ls.
Proof.
  intros H. eapply Forall_impl; [exact H|]. intros l (Hl & _).
  apply passes_text. now apply prose_parts in Hl as [_ ?].
Qed.

Lemma has_block_absent (html : string) :
  Forall (fun r => passes (String "<" r) html) ["h1>"; "h2>"; "h3>"; "ul>"; "pre>"] ->
  Markdown.has_block html = false.
Proof.
  intros H. unfold Markdown.has_block.
  repeat (apply Forall_cons in H as [?%passes_absent H]).
  repeat (apply orb_false_iff; split); assumption.
Qed.

Lemma has_block_header (n : ascii) (x rest : string) :
  Str.has_char n "123" = true ->
  Markdown.has_block (element (String "h" (String n "")) x ++ rest) = true.
Proof.
  intros Hn.
  assert (Hfound : Str.includes ("<h" ++ String n ">")
                     (element (String "h" (String n "")) x ++ rest) = true).
  { apply includes_here. unfold element. cbn [append].
    now rewrite !prefix_cons, !Ascii.eqb_refl, prefix_empty. }
  unfold Markdown.has_block. cbn [Str.has_char] in Hn.
  repeat (apply orb_true_iff in Hn as [Hn|Hn]); try discriminate;
    apply Ascii.eqb_eq in Hn; subst n; cbn [append] in Hfound; rewrite Hfound;
    now rewrite ?orb_true_r.
Qed.

(** A header line followed by lines of running text. *)
Lemma header_text (mark tag x : string) (ls : list string) (n : ascii) :
  tag = String "h" (String n "") -> Str.has_char n "123" = true ->
  plain mark = true -> mark <> "" ->
  block_line (mark ++ x) = element tag x ->
  prose x = true -> Forall text_line ls ->
  Markdown.parseMarkdown (unlines ((mark ++ x) :: ls))
    = Str.join "<br>" (element tag x :: ls).
Proof.
  intros -> Hn Hmark Hne Hline Hx Hls.
  destruct (prose_parts x Hx) as [Hplain Htagless].
  change (unlines ((mark ++ x) :: ls)) with (paragraphs [(mark ++ x) :: ls]).
  rewrite render_paragraphs; [|discriminate|].
  2:{ repeat constructor; [discriminate| |now destruct mark|].
      - now apply plain_append.
      - now apply text_lines_plain. }
  cbn [List.map].
  change (Str.join "</p><p>"
            [Str.join "<br>" (block_line (mark ++ x) :: List.map block_line ls)])
    with (Str.join "<br>" (block_line (mark ++ x) :: List.map block_line ls)).
  rewrite Hline, (text_lines_idle ls Hls).
  rewrite wrap_lists_idle.
  - unfold finish.
    assert (Hblock : Markdown.has_block
              (Str.join "<br>" (element (String "h" (String n "")) x :: ls))
            = true).
    { destruct ls as [|l ls].
      - rewrite <- (append_empty_r (Str.join _ _)). now apply has_block_header.
      - now apply has_block_header. }
    now rewrite Hblock.
  - apply passes_absent, passes_join; [now pass_tags|].
    constructor; [|now apply text_lines_pass].
    cbn [Str.has_char] in Hn.
    repeat (apply orb_true_iff in Hn as [Hn|Hn]); try discriminate;
      apply Ascii.eqb_eq in Hn; subst n; now pass_tags.
Qed.

(** The markup of paragraphs of running text holds no tag the pattern
    could be. *)
Lemma paragraphs_pass (r : string) (ps : list (list string)) :
  diverge (String "<" r) "<br>" = true ->
  diverge (String "<" r) "</p>" = true ->
  diverge (String "<" r) "<p>" = true ->
  Forall (Forall text_line) ps ->
  passes (String "<" r) (Str.join "</p><p>" (List.map (Str.join "<br>") ps)).
Proof.
  intros Hbr Hend Hp Hps. apply passes_join.
  - change "</p><p>" with ("</p>" ++ "<p>"). now pass_tags.
  - apply Forall_map. eapply Forall_impl; [exact Hps|]. intros p Hpl. simpl.
    apply passes_join; [now pass_tags|]. now apply text_lines_pass.
Qed.

End Texts.

Section RunningText.

(** X13: a one-line text without inline markers that begins neither like a
    header nor like a list item, and that names none of the tags the
    renderer looks for, comes back unchanged inside one paragraph element.
    No character is escaped: markup in the text stays markup. *)
Theorem raw_markup_passes_through (t : string) :
  t <> "" -> plain t = true -> starts_block t = false ->
  Str.includes "<li>" t = false -> Markdown.has_block t = false ->
  Markdown.parseMarkdown t = "<p>" ++ t ++ "</p>".
Proof.
  intros Hne Hplain Hstart Hli Hblock.
  change t with (paragraphs [[t]]) at 1.
  rewrite render_paragraphs; [|discriminate|].
  2:{ repeat constructor; [discriminate|assumption|assumption]. }
  cbn [List.map Str.join]. rewrite (block_line_idle t Hstart).
  rewrite (wrap_lists_idle t Hli). unfold finish. now rewrite Hblock.
Qed.

Lemma raw_markup_passes_through_witness :
  Markdown.parseMarkdown sample_raw_markup
    = "<p><img src=x onerror=alert(1)></p>".
Proof.
  apply (raw_markup_passes_through sample_raw_markup);
    [discriminate | reflexivity | reflexivity | reflexivity | reflexivity].
Defined.

(** X14: a text whose first line is a header of level one, two or three,
    followed by lines of running text, gets no paragraph element: the
    header element stands first and the lines follow it, each behind a
    line break. *)
Theorem header_suppresses_the_paragraph (x : string) (ls : list string) :
  prose x = true -> Forall text_line ls ->
  Markdown.parseMarkdown (unlines (("# " ++ x) :: ls))
    = Str.join "<br>" (element "h1" x :: ls) /\
  Markdown.parseMarkdown (unlines (("## " ++ x) :: ls))
    = Str.join "<br>" (element "h2" x :: ls) /\
  Markdown.parseMarkdown (unlines (("### " ++ x) :: ls))
    = Str.join "<br>" (element "h3" x :: ls).
Proof.
  intros Hx Hls. split; [|split].
  - apply (header_text "# " "h1" x ls "1"); auto using header_line_h1; discriminate.
  - apply (header_text "## " "h2" x ls "2"); auto using header_line_h2; discriminate.
  - apply (header_text "### " "h3" x ls "3"); auto using header_line_h3; discriminate.
Qed.

Lemma header_suppresses_the_paragraph_witness :
  Markdown.parseMarkdown (unlines ["## Dosage"; "Take one tablet."])
    = "<h2>Dosage</h2><br>Take one tablet.".
Proof.
  refine (proj1 (proj2 (header_suppresses_the_paragraph "Dosage"
                          ["Take one tablet."] eq_refl _))).
  repeat constructor. discriminate.
Defined.

(** X15: paragraphs of running text, an empty line between two of them,
    render as one paragraph element each; inside a paragraph every line
    feed becomes a line break. *)
Theorem paragraphs_and_line_breaks (ps : list (list string)) :
  ps <> [] -> Forall (fun p => p <> [] /\ Forall text_line p) ps ->
  Markdown.parseMarkdown (paragraphs ps)
    = "<p>" ++ Str.join "</p><p>" (List.map (Str.join "<br>") ps) ++ "</p>".
Proof.
  intros Hne Hps.
  assert (Hlines : Forall (Forall text_line) ps).
  { eapply Forall_impl; [exact Hps|]. now intros p [_ ?]. }
  rewrite render_paragraphs; [|exact Hne|].
  2:{ eapply Forall_impl; [exact Hps|]. intros p [Hp Hl]. simpl.
      split; [exact Hp | now apply text_lines_plain]. }
  assert (Hidle : List.map (fun p => Str.join "<br>" (List.map block_line p)) ps
                  = List.map (Str.join "<br>") ps).
  { apply List.map_ext_in. intros p Hp. rewrite Forall_forall in Hlines.
    apply list_elem_of_In in Hp. now rewrite (text_lines_idle p (Hlines p Hp)). }
  rewrite Hidle.
  rewrite wrap_lists_idle
    by now apply passes_absent, paragraphs_pass.
  unfold finish. rewrite has_block_absent; [reflexivity|].
  repeat constructor; now apply paragraphs_pass.
Qed.

Lemma paragraphs_and_line_breaks_witness :
  Markdown.parseMarkdown (paragraphs sample_paragraphs)
    = "<p>Take one tablet.<br>Drink water.</p><p>Rest well.</p>".
Proof.
  apply (paragraphs_and_line_breaks sample_paragraphs); [discriminate|].
  repeat constructor; discriminate.
Defined.

End RunningText.

Section InlineMarkup.
Import Regex.

Lemma within_dot (x : string) : within Dot x = Str.single_line x.
Proof. induction x as [|c x IH]; [reflexivity|]. cbn. now rewrite IH. Qed.

Lemma within_every (x : string) : within Every x = true.
Proof. induction x as [|c x IH]; [reflexivity | exact IH]. Qed.

(** A span rule replaces the one span of a line. *)
Lemma re_span_replaced (c : ascii) (d' before after a x b : string) :
  Str.has_char c a = false -> Str.has_char c x = false ->
  Str.single_line x = true -> Str.has_char c b = false ->
  replace_all (Markdown.re_span (String c d')) before after
    (a ++ String c d' ++ x ++ String c d' ++ b)
  = a ++ before ++ x ++ after ++ b.
Proof.
  intros Ha Hx Hsl Hb.
  pose proof (span_replaced Dot c d' before after a x b Ha Hx) as H.
  rewrite within_dot in H. specialize (H Hsl). cbv zeta in H.
  change (span_like Dot (String c d')) with (Markdown.re_span (String c d')) in H.
  now rewrite H, (re_span_idle c d' before after b Hb).
Qed.

Lemma re_fence_replaced (before after a x b : string) :
  Str.has_char "`" a = false -> Str.has_char "`" x = false ->
  Str.has_char "`" b = false ->
  replace_all Markdown.re_fence before after (a ++ "```" ++ x ++ "```" ++ b)
  = a ++ before ++ x ++ after ++ b.
Proof.
  intros Ha Hx Hb.
  pose proof (span_replaced Every "`" "``" before after a x b Ha Hx
                (within_every x)) as H.
  cbv zeta in H. change (span_like Every "```") with Markdown.re_fence in H.
  now rewrite H, (re_fence_idle before after b Hb).
Qed.

Lemma re_span_idle_by_count (c : ascii) (d before after s : string) :
  (count_char c s < 2 * count_char c d)%nat ->
  replace_all (Markdown.re_span d) before after s = s.
Proof. exact (span_idle_by_count Dot c d before after s). Qed.

Lemma re_fence_idle_by_count (before after s : string) :
  (count_char "`" s < 6)%nat ->
  replace_all Markdown.re_fence before after s = s.
Proof. exact (span_idle_by_count Every "`" "```" before after s). Qed.

Lemma bold_idle (s : string) :
  Str.has_char "*" s = false -> Str.has_char "_" s = false ->
  Markdown.bold s = s.
Proof.
  intros Hstar Hund. unfold Markdown.bold.
  now rewrite (re_span_idle "*" "*" _ _ s Hstar), (re_span_idle "_" "_" _ _ s Hund).
Qed.

Lemma italic_idle (s : string) :
  Str.has_char "*" s = false -> Str.has_char "_" s = false ->
  Markdown.italic s = s.
Proof.
  intros Hstar Hund. unfold Markdown.italic.
  now rewrite (re_span_idle "*" "" _ _ s Hstar), (re_span_idle "_" "" _ _ s Hund).
Qed.

Lemma code_idle (s : string) :
  Str.has_char "`" s = false -> Markdown.code s = s.
Proof.
  intros Htick. unfold Markdown.code.
  now rewrite (re_fence_idle _ _ s Htick), (re_span_idle "`" "" _ _ s Htick).
Qed.

Lemma element_append (tag x b : string) :
  element tag x ++ b = "<" ++ tag ++ ">" ++ x ++ "</" ++ tag ++ ">" ++ b.
Proof. unfold element. now rewrite !append_assoc. Qed.

Lemma element_single_line (tag x : string) :
  Str.single_line tag = true -> Str.single_line x = true ->
  Str.single_line (element tag x) = true.
Proof.
  intros Htag Hx. unfold element. now rewrite !single_line_append, Htag, Hx.
Qed.

Lemma element_has_char (c : ascii) (tag x : string) :
  Str.has_char c "</>" = false -> Str.has_char c tag = false ->
  Str.has_char c x = false -> Str.has_char c (element tag x) = false.
Proof.
  intros Hc Htag Hx. unfold element. cbn [Str.has_char] in Hc.
  repeat (apply orb_false_iff in Hc as [? Hc]).
  rewrite !has_char_append, Htag, Hx. cbn [Str.has_char orb].
  repeat (apply orb_false_iff; split); auto.
Qed.

End InlineMarkup.

Section InlineSpans.
Import Regex.

(** The renderer on one line, given what the inline rules make of it. *)
Lemma parse_one_line (t t1 : string) :
  t <> "" -> Str.single_line t = true -> header_line t = t ->
  Markdown.code (Markdown.italic (Markdown.bold t)) = t1 ->
  Str.single_line t1 = true -> t1 <> "" -> item_body t1 = None ->
  Markdown.parseMarkdown t = finish (Markdown.wrap_lists t1).
Proof.
  intros Hne Hsl Hheader Hinline Hsl1 Hne1 Hitem.
  rewrite (parseMarkdown_nonempty t Hne). cbv zeta.
  change (Markdown.headers t) with (Markdown.headers (unlines [t])).
  rewrite headers_on_lines; [|now repeat constructor|discriminate].
  cbn [List.map]. change (unlines [header_line t]) with (header_line t).
  rewrite Hheader, Hinline, (list_items_last_line t1 Hsl1).
  unfold list_line. rewrite Hitem.
  change (Markdown.line_breaks t1)
    with (Markdown.line_breaks (paragraphs [[t1]])).
  rewrite line_breaks_paragraphs.
  - reflexivity.
  - repeat constructor; [discriminate|assumption|assumption].
Qed.

Lemma parse_inline_line (t t1 : string) :
  t <> "" -> Str.single_line t = true -> header_line t = t ->
  Markdown.code (Markdown.italic (Markdown.bold t)) = t1 ->
  Str.single_line t1 = true -> t1 <> "" -> item_body t1 = None ->
  Forall (fun r => passes (String "<" r) t1)
    ["li>"; "h1>"; "h2>"; "h3>"; "ul>"; "pre>"] ->
  Markdown.parseMarkdown t = "<p>" ++ t1 ++ "</p>".
Proof.
  intros Hne Hsl Hheader Hinline Hsl1 Hne1 Hitem Hpass.
  rewrite (parse_one_line t t1) by assumption.
  apply Forall_cons in Hpass as [Hli Hblock].
  rewrite (wrap_lists_idle t1 (passes_absent _ _ _ Hli)).
  unfold finish. now rewrite (has_block_absent t1 Hblock).
Qed.

Lemma inert_header (a : string) (c : ascii) (rest : string) :
  inert_start a = true -> Ascii.eqb "#" c = false ->
  header_line (a ++ String c rest) = a ++ String c rest.
Proof.
  intros Ha Hc. destruct a as [|d a]; [now apply header_line_other|].
  cbn [append]. apply header_line_other.
  cbn [inert_start Str.has_char] in Ha.
  apply andb_true_iff in Ha as [Ha _]. apply negb_true_iff in Ha.
  apply orb_false_iff in Ha as [Ha _]. now rewrite Ascii.eqb_sym.
Qed.

Lemma inert_item (a rest : string) :
  inert_start a = true -> item_body (a ++ String "<" rest) = None.
Proof.
  intros Ha. destruct a as [|d a]; [now apply item_body_other|].
  cbn [append]. cbn [inert_start] in Ha.
  apply andb_true_iff in Ha as [Hm Hd]. apply negb_true_iff in Hm, Hd.
  apply item_body_other; [|exact Hd].
  cbn [Str.has_char] in *. now apply orb_false_iff in Hm as [_ ?].
Qed.

(** One element in a line of running text. *)
Lemma span_in_line (t a tag x b : string) (c : ascii) (rest : string) :
  t = a ++ String c rest -> Ascii.eqb "#" c = false ->
  Str.single_line t = true ->
  Markdown.code (Markdown.italic (Markdown.bold t))
    = a ++ "<" ++ tag ++ ">" ++ x ++ "</" ++ tag ++ ">" ++ b ->
  tag = "strong" \/ tag = "em" \/ tag = "code" ->
  prose a = true -> prose x = true -> prose b = true ->
  inert_start a = true ->
  Markdown.parseMarkdown t
    = "<p>" ++ a ++ "<" ++ tag ++ ">" ++ x ++ "</" ++ tag ++ ">" ++ b ++ "</p>".
Proof.
  intros Ht Hc Hsl Hinline Htag Ha Hx Hb Hstart.
  destruct (prose_parts a Ha) as [Hpa Hta].
  destruct (prose_parts x Hx) as [Hpx Htx].
  destruct (prose_parts b Hb) as [Hpb Htb].
  destruct (plain_parts a Hpa) as (Hsa & _).
  destruct (plain_parts x Hpx) as (Hsx & _).
  destruct (plain_parts b Hpb) as (Hsb & _).
  rewrite <- element_append in Hinline.
  rewrite (parse_inline_line t (a ++ element tag x ++ b)).
  - now rewrite !append_assoc, element_append.
  - subst t. now destruct a.
  - exact Hsl.
  - subst t. now apply inert_header.
  - exact Hinline.
  - rewrite !single_line_append, Hsa, Hsb, element_single_line; auto.
    now destruct Htag as [->|[->| ->]].
  - destruct a; discriminate.
  - now apply inert_item.
  - destruct Htag as [->|[->| ->]]; repeat constructor; pass_tags.
Qed.

End InlineSpans.

Ltac absent_char :=
  rewrite ?has_char_append;
  repeat match goal with
         | H : Str.has_char _ _ = false |- _ => rewrite H
         end;
  reflexivity.

Section InlineRules.
Import Regex.

Variables a x b : string.
Hypothesis plain_a : plain a = true.
Hypothesis plain_x : plain x = true.
Hypothesis plain_b : plain b = true.

Lemma inline_bold_star :
  Markdown.code (Markdown.italic (Markdown.bold (a ++ "**" ++ x ++ "**" ++ b)))
    = a ++ "<strong>" ++ x ++ "</strong>" ++ b.
Proof.
  destruct (plain_parts a plain_a) as (A1 & A2 & A3 & A4).
  destruct (plain_parts x plain_x) as (X1 & X2 & X3 & X4).
  destruct (plain_parts b plain_b) as (B1 & B2 & B3 & B4).
  unfold Markdown.bold.
  rewrite (re_span_replaced "*" "*" "<strong>" "</strong>" a x b) by assumption.
  rewrite (re_span_idle "_" "_") by absent_char.
  rewrite italic_idle, code_idle by absent_char. reflexivity.
Qed.

Lemma inline_bold_underscore :
  Markdown.code (Markdown.italic (Markdown.bold (a ++ "__" ++ x ++ "__" ++ b)))
    = a ++ "<strong>" ++ x ++ "</strong>" ++ b.
Proof.
  destruct (plain_parts a plain_a) as (A1 & A2 & A3 & A4).
  destruct (plain_parts x plain_x) as (X1 & X2 & X3 & X4).
  destruct (plain_parts b plain_b) as (B1 & B2 & B3 & B4).
  unfold Markdown.bold.
  rewrite (re_span_idle "*" "*") by absent_char.
  rewrite (re_span_replaced "_" "_" "<strong>" "</strong>" a x b) by assumption.
  rewrite italic_idle, code_idle by absent_char. reflexivity.
Qed.

Lemma inline_italic_star :
  Markdown.code (Markdown.italic (Markdown.bold (a ++ "*" ++ x ++ "*" ++ b)))
    = a ++ "<em>" ++ x ++ "</em>" ++ b.
Proof.
  destruct (plain_parts a plain_a) as (A1 & A2 & A3 & A4).
  destruct (plain_parts x plain_x) as (X1 & X2 & X3 & X4).
  destruct (plain_parts b plain_b) as (B1 & B2 & B3 & B4).
  unfold Markdown.bold.
  rewrite (re_span_idle_by_count "*" "**").
  2:{ rewrite !count_char_append, (count_char_absent "*" a),
        (count_char_absent "*" x), (count_char_absent "*" b) by assumption.
      cbn. lia. }
  rewrite (re_span_idle "_" "_") by absent_char.
  unfold Markdown.italic.
  rewrite (re_span_replaced "*" "" "<em>" "</em>" a x b) by assumption.
  rewrite (re_span_idle "_" "") by absent_char.
  rewrite code_idle by absent_char. reflexivity.
Qed.

Lemma inline_italic_underscore :
  Markdown.code (Markdown.italic (Markdown.bold (a ++ "_" ++ x ++ "_" ++ b)))
    = a ++ "<em>" ++ x ++ "</em>" ++ b.
Proof.
  destruct (plain_parts a plain_a) as (A1 & A2 & A3 & A4).
  destruct (plain_parts x plain_x) as (X1 & X2 & X3 & X4).
  destruct (plain_parts b plain_b) as (B1 & B2 & B3 & B4).
  unfold Markdown.bold.
  rewrite (re_span_idle "*" "*") by absent_char.
  rewrite (re_span_idle_by_count "_" "__").
  2:{ rewrite !count_char_append, (count_char_absent "_" a),
        (count_char_absent "_" x), (count_char_absent "_" b) by assumption.
      cbn. lia. }
  unfold Markdown.italic.
  rewrite (re_span_idle "*" "") by absent_char.
  rewrite (re_span_replaced "_" "" "<em>" "</em>" a x b) by assumption.
  rewrite code_idle by absent_char. reflexivity.
Qed.

Lemma inline_code_span :
  Markdown.code (Markdown.italic (Markdown.bold (a ++ "`" ++ x ++ "`" ++ b)))
    = a ++ "<code>" ++ x ++ "</code>" ++ b.
Proof.
  destruct (plain_parts a plain_a) as (A1 & A2 & A3 & A4).
  destruct (plain_parts x plain_x) as (X1 & X2 & X3 & X4).
  destruct (plain_parts b plain_b) as (B1 & B2 & B3 & B4).
  rewrite bold_idle, italic_idle by absent_char.
  unfold Markdown.code.
  rewrite re_fence_idle_by_count.
  2:{ rewrite !count_char_append, (count_char_absent "`" a),
        (count_char_absent "`" x), (count_char_absent "`" b) by assumption.
      cbn. lia. }
  now rewrite (re_span_replaced "`" "" "<code>" "</code>" a x b) by assumption.
Qed.

Lemma inline_code_fence :
  Markdown.code (Markdown.italic (Markdown.bold (a ++ "```" ++ x ++ "```" ++ b)))
    = a ++ "<pre><code>" ++ x ++ "</code></pre>" ++ b.
Proof.
  destruct (plain_parts a plain_a) as (A1 & A2 & A3 & A4).
  destruct (plain_parts x plain_x) as (X1 & X2 & X3 & X4).
  destruct (plain_parts b plain_b) as (B1 & B2 & B3 & B4).
  rewrite bold_idle, italic_idle by absent_char.
  unfold Markdown.code.
  rewrite (re_fence_replaced "<pre><code>" "</code></pre>" a x b) by assumption.
  rewrite (re_span_idle "`" "") by absent_char. reflexivity.
Qed.

(** Emphasis inside a code span: the emphasis rules run first. *)
Lemma inline_emphasis_in_code :
  Markdown.code (Markdown.italic (Markdown.bold
     ("`" ++ a ++ "*" ++ x ++ "*" ++ b ++ "`")))
    = element "code" (a ++ element "em" x ++ b).
Proof.
  destruct (plain_parts a plain_a) as (A1 & A2 & A3 & A4).
  destruct (plain_parts x plain_x) as (X1 & X2 & X3 & X4).
  destruct (plain_parts b plain_b) as (B1 & B2 & B3 & B4).
  unfold Markdown.bold.
  rewrite (re_span_idle_by_count "*" "**").
  2:{ rewrite !count_char_append, (count_char_absent "*" a),
        (count_char_absent "*" x), (count_char_absent "*" b) by assumption.
      cbn. lia. }
  rewrite (re_span_idle "_" "_") by absent_char.
  unfold Markdown.italic.
  change ("`" ++ a ++ "*" ++ x ++ "*" ++ b ++ "`")
    with (("`" ++ a) ++ "*" ++ x ++ "*" ++ (b ++ "`")).
  rewrite (re_span_replaced "*" "" "<em>" "</em>" ("`" ++ a) x (b ++ "`"))
    by (assumption || absent_char).
  rewrite (re_span_idle "_" "") by absent_char.
  unfold Markdown.code.
  rewrite re_fence_idle_by_count.
  2:{ rewrite !count_char_append, (count_char_absent "`" a),
        (count_char_absent "`" x), (count_char_absent "`" b) by assumption.
      cbn. lia. }
  assert (Hshape : ("`" ++ a) ++ "<em>" ++ x ++ "</em>" ++ b ++ "`"
                   = "" ++ "`" ++ (a ++ element "em" x ++ b) ++ "`" ++ "").
  { unfold element. now rewrite !append_assoc. }
  rewrite Hshape.
  rewrite (re_span_replaced "`" "" "<code>" "</code>" ""
             (a ++ element "em" x ++ b) ""); try reflexivity.
  - rewrite !has_char_append, A4, B4, element_has_char; auto.
  - rewrite !single_line_append, A1, B1, element_single_line; auto.
Qed.

End InlineRules.

Section InlineElements.
Import Regex.

Lemma prose_single_line (s : string) : prose s = true -> Str.single_line s = true.
Proof.
  intros H. apply prose_parts in H as [H _]. now apply plain_parts in H as [? _].
Qed.

Lemma prose_plain (s : string) : prose s = true -> plain s = true.
Proof. intros H. now apply prose_parts in H as [? _]. Qed.

Lemma prose_tagless (s : string) : prose s = true -> tagless s = true.
Proof. intros H. now apply prose_parts in H as [_ ?]. Qed.

(** X16: in a line of running text a span between two [**] or two [__]
    becomes a strong element, a span between two [*] or two [_] an
    emphasis element and a span between two backquotes a code element;
    the text around the span is kept and the line is wrapped in one
    paragraph element. *)
Theorem inline_spans_in_running_text (a x b : string) :
  prose a = true -> prose x = true -> prose b = true ->
  inert_start a = true ->
  Markdown.parseMarkdown (a ++ "**" ++ x ++ "**" ++ b)
    = "<p>" ++ a ++ "<strong>" ++ x ++ "</strong>" ++ b ++ "</p>" /\
  Markdown.parseMarkdown (a ++ "__" ++ x ++ "__" ++ b)
    = "<p>" ++ a ++ "<strong>" ++ x ++ "</strong>" ++ b ++ "</p>" /\
  Markdown.parseMarkdown (a ++ "*" ++ x ++ "*" ++ b)
    = "<p>" ++ a ++ "<em>" ++ x ++ "</em>" ++ b ++ "</p>" /\
  Markdown.parseMarkdown (a ++ "_" ++ x ++ "_" ++ b)
    = "<p>" ++ a ++ "<em>" ++ x ++ "</em>" ++ b ++ "</p>" /\
  Markdown.parseMarkdown (a ++ "`" ++ x ++ "`" ++ b)
    = "<p>" ++ a ++ "<code>" ++ x ++ "</code>" ++ b ++ "</p>".
Proof.
  intros Ha Hx Hb Hstart.
  pose proof (prose_single_line a Ha) as Sa.
  pose proof (prose_single_line x Hx) as Sx.
  pose proof (prose_single_line b Hb) as Sb.
  pose proof (prose_plain a Ha) as Pa.
  pose proof (prose_plain x Hx) as Px.
  pose proof (prose_plain b Hb) as Pb.
  repeat apply conj.
  - apply (span_in_line _ a "strong" x b "*" ("*" ++ x ++ "**" ++ b)); auto.
    + now rewrite !single_line_append, Sa, Sx, Sb.
    + now apply inline_bold_star.
  - apply (span_in_line _ a "strong" x b "_" ("_" ++ x ++ "__" ++ b)); auto.
    + now rewrite !single_line_append, Sa, Sx, Sb.
    + now apply inline_bold_underscore.
  - apply (span_in_line _ a "em" x b "*" (x ++ "*" ++ b)); auto.
    + now rewrite !single_line_append, Sa, Sx, Sb.
    + now apply inline_italic_star.
  - apply (span_in_line _ a "em" x b "_" (x ++ "_" ++ b)); auto.
    + now rewrite !single_line_append, Sa, Sx, Sb.
    + now apply inline_italic_underscore.
  - apply (span_in_line _ a "code" x b "`" (x ++ "`" ++ b)); auto.
    + now rewrite !single_line_append, Sa, Sx, Sb.
    + now apply inline_code_span.
Qed.

Lemma inline_spans_in_running_text_witness :
  Markdown.parseMarkdown "Take **two** tablets."
    = "<p>Take <strong>two</strong> tablets.</p>".
Proof.
  exact (proj1 (inline_spans_in_running_text "Take " "two" " tablets."
                  eq_refl eq_refl eq_refl eq_refl)).
Defined.

(** X17: a [**] or [__] that is never closed does not stay in the text:
    the emphasis rule takes its two characters for an empty span, so an
    empty emphasis element stands in their place. *)
Theorem unclosed_bold_marker_becomes_empty_emphasis (a b : string) :
  prose a = true -> prose b = true -> inert_start a = true ->
  Markdown.parseMarkdown (a ++ "**" ++ b)
    = "<p>" ++ a ++ "<em></em>" ++ b ++ "</p>" /\
  Markdown.parseMarkdown (a ++ "__" ++ b)
    = "<p>" ++ a ++ "<em></em>" ++ b ++ "</p>".
Proof.
  intros Ha Hb Hstart.
  pose proof (prose_single_line a Ha) as Sa.
  pose proof (prose_single_line b Hb) as Sb.
  pose proof (prose_plain a Ha) as Pa.
  pose proof (prose_plain b Hb) as Pb.
  split.
  - apply (span_in_line _ a "em" "" b "*" ("*" ++ b)); auto.
    + now rewrite !single_line_append, Sa, Sb.
    + exact (inline_italic_star a "" b Pa eq_refl Pb).
  - apply (span_in_line _ a "em" "" b "_" ("_" ++ b)); auto.
    + now rewrite !single_line_append, Sa, Sb.
    + exact (inline_italic_underscore a "" b Pa eq_refl Pb).
Qed.

Lemma unclosed_bold_marker_becomes_empty_emphasis_witness :
  Markdown.parseMarkdown "Warning: **do not exceed the dose"
    = "<p>Warning: <em></em>do not exceed the dose</p>".
Proof.
  exact (proj1 (unclosed_bold_marker_becomes_empty_emphasis "Warning: "
                  "do not exceed the dose" eq_refl eq_refl eq_refl)).
Defined.

(** X18: a code span does not protect its content: the emphasis rules run
    before the code rule, so a span between two asterisks inside the
    backquotes becomes an emphasis element inside the code element. *)
Theorem emphasis_is_converted_inside_code (a x b : string) :
  prose a = true -> prose x = true -> prose b = true ->
  Markdown.parseMarkdown ("`" ++ a ++ "*" ++ x ++ "*" ++ b ++ "`")
    = "<p>" ++ element "code" (a ++ element "em" x ++ b) ++ "</p>".
Proof.
  intros Ha Hx Hb.
  pose proof (prose_single_line a Ha) as Sa.
  pose proof (prose_single_line x Hx) as Sx.
  pose proof (prose_single_line b Hb) as Sb.
  pose proof (prose_tagless a Ha) as Ta.
  pose proof (prose_tagless x Hx) as Tx.
  pose proof (prose_tagless b Hb) as Tb.
  apply parse_inline_line.
  - discriminate.
  - now rewrite !single_line_append, Sa, Sx, Sb.
  - exact (header_line_other "`" _ eq_refl).
  - apply inline_emphasis_in_code; now apply prose_plain.
  - apply element_single_line; [reflexivity|].
    rewrite !single_line_append, Sa, Sb. now rewrite element_single_line.
  - discriminate.
  - exact (item_body_other "<" _ eq_refl eq_refl).
  - repeat constructor; pass_tags.
Qed.

Lemma emphasis_is_converted_inside_code_witness :
  Markdown.parseMarkdown "`2*3*4`" = "<p><code>2<em>3</em>4</code></p>".
Proof.
  exact (emphasis_is_converted_inside_code "2" "3" "4" eq_refl eq_refl eq_refl).
Defined.

(** X19: a fenced span in a line of running text becomes a code element
    inside a preformatted element, and the line then gets no paragraph
    element, whatever text stands around the fence. *)
Theorem code_fence_suppresses_the_paragraph (a x b : string) :
  prose a = true -> prose x = true -> prose b = true ->
  inert_start a = true ->
  Markdown.parseMarkdown (a ++ "```" ++ x ++ "```" ++ b)
    = a ++ "<pre><code>" ++ x ++ "</code></pre>" ++ b.
Proof.
  intros Ha Hx Hb Hstart.
  pose proof (prose_single_line a Ha) as Sa.
  pose proof (prose_single_line x Hx) as Sx.
  pose proof (prose_single_line b Hb) as Sb.
  pose proof (prose_tagless a Ha) as Ta.
  pose proof (prose_tagless x Hx) as Tx.
  pose proof (prose_tagless b Hb) as Tb.
  set (out := a ++ "<pre><code>" ++ x ++ "</code></pre>" ++ b).
  assert (Hshape : out = a ++ element "pre" (element "code" x) ++ b).
  { subst out. unfold element. now rewrite !append_assoc. }
  rewrite (parse_one_line _ out).
  - rewrite wrap_lists_idle.
    + unfold finish, Markdown.has_block.
      assert (Hpre : Str.includes "<pre>" out = true).
      { subst out.
        change (a ++ "<pre><code>" ++ x ++ "</code></pre>" ++ b)
          with (a ++ "<pre>" ++ "<code>" ++ x ++ "</code></pre>" ++ b).
        apply includes_append. }
      now rewrite Hpre, !orb_true_r.
    + rewrite Hshape. apply passes_absent. pass_tags.
  - now destruct a.
  - now rewrite !single_line_append, Sa, Sx, Sb.
  - now apply inert_header.
  - apply inline_code_fence; now apply prose_plain.
  - subst out. now rewrite !single_line_append, Sa, Sx, Sb.
  - subst out. now destruct a.
  - subst out. now apply inert_item.
Qed.

Lemma code_fence_suppresses_the_paragraph_witness :
  Markdown.parseMarkdown "Run ```ls -l``` now"
    = "Run <pre><code>ls -l</code></pre> now".
Proof.
  exact (code_fence_suppresses_the_paragraph "Run " "ls -l" " now"
           eq_refl eq_refl eq_refl eq_refl).
Defined.

End InlineElements.
